(** * ofxtools.models: the aggregate decoder, embedded and verified

    A shallow embedding of [ofxtools/models.py]: the [Aggregate] base class
    ([__init__], [elements], [from_etree], [_groom], [_preflatten],
    [_flatten], [_postflatten]), the [_preflatten] overrides of
    [ORIGCURRENCY], [MFINFO], [OPTINFO] and [STMTTRN], and the table of
    aggregate classes of the module.

    Python values are modelled as follows.
    - [str] is [string]; [str.lower] and [str.strip] are written out on
      8-bit characters (ASCII letters and ASCII white space).
    - a [dict] is an association list with unique keys kept in insertion
      order, as Python dicts are.
    - [xml.etree.ElementTree.Element] is the rose tree [ETElement]; the
      methods that mutate a tree return the new tree.
    - a raised exception is the [Raise] case of [Result]. *)

From Stdlib Require Import List String Ascii Bool Arith Lia.
Import ListNotations.
Local Open Scope string_scope.
Local Open Scope list_scope.

Set Implicit Arguments.

(* ------------------------------------------------------------------ *)
(** ** Strings *)

Module Str.

(** [c in string.ascii_uppercase] *)
Definition isupper (c : ascii) : bool :=
  let n := nat_of_ascii c in Nat.leb 65 n && Nat.leb n 90.

Definition lower_ascii (c : ascii) : ascii :=
  if isupper c then ascii_of_nat (nat_of_ascii c + 32) else c.

(** [s.lower()] *)
Fixpoint lower (s : string) : string :=
  match s with
  | EmptyString => EmptyString
  | String c r => String (lower_ascii c) (lower r)
  end.

(** [c.isspace()]: TAB, LF, VT, FF, CR, FS, GS, RS, US and SPACE. *)
Definition isspace (c : ascii) : bool :=
  let n := nat_of_ascii c in
  (Nat.leb 9 n && Nat.leb n 13) || (Nat.leb 28 n && Nat.leb n 32).

Fixpoint lstrip (s : string) : string :=
  match s with
  | EmptyString => EmptyString
  | String c r => if isspace c then lstrip r else s
  end.

Fixpoint rstrip (s : string) : string :=
  match s with
  | EmptyString => EmptyString
  | String c r =>
      match rstrip r with
      | EmptyString => if isspace c then EmptyString else String c EmptyString
      | r' => String c r'
      end
  end.

(** [s.strip()] *)
Definition strip (s : string) : string := rstrip (lstrip s).

(** [c in s] for a one-character [c] *)
Fixpoint contains (c : ascii) (s : string) : bool :=
  match s with
  | EmptyString => false
  | String d r => Ascii.eqb c d || contains c r
  end.

(** truth value of a [str]: non-empty *)
Definition nonempty (s : string) : bool :=
  match s with EmptyString => false | _ => true end.

End Str.

(* ------------------------------------------------------------------ *)
(** ** Dictionaries *)

Module Dict.
Section Dict.
Variable V : Type.

Definition t := list (string * V).

Fixpoint get (k : string) (d : t) : option V :=
  match d with
  | [] => None
  | (k', v) :: r => if String.eqb k k' then Some v else get k r
  end.

(** [k in d] *)
Definition mem (k : string) (d : t) : bool :=
  match get k d with Some _ => true | None => false end.

(** [d[k] = v]: an existing key keeps its place, a new one goes last. *)
Fixpoint set (k : string) (v : V) (d : t) : t :=
  match d with
  | [] => [(k, v)]
  | (k', v') :: r =>
      if String.eqb k k' then (k', v) :: r else (k', v') :: set k v r
  end.

(** [d.update(other)] *)
Definition update (d other : t) : t :=
  fold_left (fun acc kv => set (fst kv) (snd kv) acc) other d.

(** [d.pop(k, None)]: the value (or [None]) and the dictionary left. *)
Fixpoint remove (k : string) (d : t) : t :=
  match d with
  | [] => []
  | (k', v) :: r => if String.eqb k k' then r else (k', v) :: remove k r
  end.

Definition pop (k : string) (d : t) : option V * t := (get k d, remove k d).

(** [d.keys()] *)
Definition keys (d : t) : list string := map fst d.

End Dict.
End Dict.

(* ------------------------------------------------------------------ *)
(** ** Exceptions *)

(** The argument of a [ValueError], kept as the format and its operands. *)
Inductive Message : Type :=
| MsgText (s : string)
    (** raised by a field conversion of [ofxtools.Types] *)
| MsgCantCreate (cls name : string) (cause : Message)
    (** ["Can't create %s.%s: %s" % (cls, name, e.args[0])] *)
| MsgUndefined (cls : string) (keys : list string)
    (** ["Undefined element(s) for '%s': %s" % (cls, kwargs.keys())] *)
| MsgExclusive (parent first second : string)
    (** ["<%s> may not contain both <%s> and <%s>"] *).

Inductive Exception : Type :=
| AssertionError
| ValueError (arg : Message)
| KeyError (key : string)
| AttributeError (attr : string)
| OtherError (name : string).

Inductive Result (A : Type) : Type :=
| Ok (a : A)
| Raise (e : Exception).
Arguments Ok {A} a.
Arguments Raise {A} e.

Definition bind {A B} (m : Result A) (k : A -> Result B) : Result B :=
  match m with
  | Ok a => k a
  | Raise e => Raise e
  end.

Notation "x <- m ;; k" := (bind m (fun x => k))
  (at level 61, m at next level, right associativity).
Notation "' p <- m ;; k" := (bind m (fun p => k))
  (at level 61, p pattern, m at next level, right associativity).

(** [assert b], with assertions enabled (the interpreter runs without
    [-O]). *)
Definition assert (b : bool) : Result unit :=
  if b then Ok tt else Raise AssertionError.

Definition raises {A} (m : Result A) : Prop := exists e, m = Raise e.

(* ------------------------------------------------------------------ *)
(** ** Element trees *)

(** [ET.Element]: tag, text and the ordered children. *)
#[warning="-register-all"]
Inductive ETElement : Type :=
| Elem (tag : string) (text : option string) (children : list ETElement).

Definition tag (e : ETElement) : string :=
  match e with Elem t _ _ => t end.
Definition text (e : ETElement) : option string :=
  match e with Elem _ x _ => x end.
Definition children (e : ETElement) : list ETElement :=
  match e with Elem _ _ cs => cs end.

(** A leaf carrying text, and an aggregate without text. *)
Definition leaf (t x : string) : ETElement := Elem t (Some x) [].
Definition agg (t : string) (cs : list ETElement) : ETElement := Elem t None cs.

Section ETElement_ind.
Variable P : ETElement -> Prop.
Hypothesis step : forall t x cs, Forall P cs -> P (Elem t x cs).

Fixpoint ETElement_rect' (e : ETElement) : P e :=
  match e with
  | Elem t x cs =>
      step t x
        ((fix all (l : list ETElement) : Forall P l :=
            match l with
            | [] => Forall_nil P
            | c :: r => Forall_cons c (ETElement_rect' c) (all r)
            end) cs)
  end.
End ETElement_ind.

(** [bool(elem)]: an element is true when it has children. *)
Definition truthy (e : ETElement) : bool :=
  match children e with [] => false | _ => true end.

(** [elem.find(t)] and [elem.find('./' + t)]: the first direct child
    tagged [t]. *)
Definition find (t : string) (e : ETElement) : option ETElement :=
  List.find (fun c => String.eqb (tag c) t) (children e).

(** [elem.find('*/' + t)]: the first element tagged [t] among the children
    of the children, in document order. *)
Definition find_grandchild (t : string) (e : ETElement) : option ETElement :=
  List.find (fun c => String.eqb (tag c) t) (flat_map children (children e)).

(** [elem.remove(elem.find(t))]: the first direct child tagged [t] leaves
    the list. *)
Fixpoint remove_first (t : string) (cs : list ETElement) : list ETElement :=
  match cs with
  | [] => []
  | c :: r => if String.eqb (tag c) t then r else c :: remove_first t r
  end.

Definition remove (t : string) (e : ETElement) : ETElement :=
  match e with Elem g x cs => Elem g x (remove_first t cs) end.

(** [elem.find(t).tag = t']: the first direct child tagged [t] is renamed. *)
Fixpoint retag_first (t t' : string) (cs : list ETElement) : list ETElement :=
  match cs with
  | [] => []
  | c :: r =>
      if String.eqb (tag c) t then Elem t' (text c) (children c) :: r
      else c :: retag_first t t' r
  end.

(* ------------------------------------------------------------------ *)
(** ** [Aggregate._flatten] *)

(** [data = child.text or ''; data = data.strip()] *)
Definition data (child : ETElement) : string :=
  Str.strip (match text child with Some x => x | None => EmptyString end).

Definition flat := Dict.t string.

(** The body of [for child in element], with the recursive call on an
    aggregate child passed as [rec]. *)
Definition flatten_children (rec : ETElement -> Result flat)
  : list ETElement -> flat -> flat -> Result (flat * flat) :=
  fix loop (cs : list ETElement) (aggs leaves : flat) :=
    match cs with
    | [] => Ok (aggs, leaves)
    | child :: rest =>
        let tag := tag child in
        let data := data child in
        if Str.nonempty data then
          (* it's a data-bearing leaf element. *)
          _ <- assert (negb (Dict.mem tag leaves)) ;;
          (* Silently drop all private tags *)
          if negb (Str.contains "."%char tag)
          then loop rest aggs (Dict.set (Str.lower tag) data leaves)
          else loop rest aggs leaves
        else
          (* it's an aggregate. *)
          _ <- assert (negb (Dict.mem tag aggs)) ;;
          sub <- rec child ;;
          loop rest (Dict.update aggs sub) leaves
    end.

(** [for key in aggs.keys(): assert key not in leaves] *)
Fixpoint check_collisions (ks : list string) (leaves : flat) : Result unit :=
  match ks with
  | [] => Ok tt
  | key :: r =>
      _ <- assert (negb (Dict.mem key leaves)) ;;
      check_collisions r leaves
  end.

Definition flatten_finish (r : flat * flat) : Result flat :=
  let '(aggs, leaves) := r in
  _ <- check_collisions (Dict.keys aggs) leaves ;;
  Ok (Dict.update leaves aggs).

Fixpoint _flatten (element : ETElement) : Result flat :=
  match element with
  | Elem _ _ cs =>
      r <- flatten_children _flatten cs [] [] ;;
      flatten_finish r
  end.

(* ------------------------------------------------------------------ *)
(** ** Field descriptors and classes *)

(** The descriptors of [ofxtools.Types], as the class bodies construct them:
    the positional argument (a length, a precision or the valid values) and
    the [required] keyword. *)
Module Types.
Inductive Element : Type :=
| Bool (required : bool)
| String (length : nat) (required : bool)
| NagString (length : nat) (required : bool)
| OneOf (valid : list string) (required : bool)
| Integer (length : option nat) (required : bool)
| Decimal (precision : option nat) (required : bool)
| DateTime (required : bool).
End Types.

(** A value bound in a class body: a descriptor, [None] or [[]]. *)
Inductive ClassAttr : Type :=
| AttrElement (e : Types.Element)
| AttrNone
| AttrList.

(** The classes that define [_preflatten]. *)
Inductive Hook : Type :=
| Aggregate_hook
| ORIGCURRENCY_hook
| MFINFO_hook
| OPTINFO_hook
| STMTTRN_hook.

(** A class statement: name, bases, the assignments of its body in order,
    and its own [_preflatten] when it defines one. *)
Record Class : Type := mkClass {
  cls_name : string;
  cls_bases : list string;
  cls_dict : list (string * ClassAttr);
  cls_preflatten : option Hook
}.

(** *** [__mro__]: the C3 linearization Python computes when a class is
    created, from the linearizations of its bases. *)
Module C3.

Definition in_tail (h : string) (seq : list string) : bool :=
  existsb (String.eqb h) (tl seq).

(** The first head that is in the tail of no sequence. *)
Fixpoint candidate (todo seqs : list (list string)) : option string :=
  match todo with
  | [] => None
  | [] :: r => candidate r seqs
  | (h :: _) :: r =>
      if existsb (in_tail h) seqs then candidate r seqs else Some h
  end.

Definition drop_head (h : string) (seq : list string) : list string :=
  match seq with
  | x :: r => if String.eqb x h then r else seq
  | [] => []
  end.

Definition nonnil (seq : list string) : bool :=
  match seq with [] => false | _ => true end.

Fixpoint merge (fuel : nat) (seqs : list (list string))
  : option (list string) :=
  match filter nonnil seqs with
  | [] => Some []
  | live =>
      match fuel with
      | 0 => None
      | S fuel' =>
          match candidate live live with
          | None => None
          | Some h =>
              option_map (cons h) (merge fuel' (map (drop_head h) live))
          end
      end
  end.

Fixpoint all_some {A} (l : list (option A)) : option (list A) :=
  match l with
  | [] => Some []
  | None :: _ => None
  | Some a :: r => option_map (cons a) (all_some r)
  end.

(** Classes are created in the order of their statements; each one needs
    its bases to exist already. *)
Fixpoint linearize (todo : list Class) (known : Dict.t (list string))
  : option (Dict.t (list string)) :=
  match todo with
  | [] => Some known
  | c :: r =>
      match all_some (map (fun b => Dict.get b known) (cls_bases c)) with
      | None => None
      | Some ms =>
          let seqs := ms ++ [cls_bases c] in
          match merge (S (List.length (List.concat seqs))) seqs with
          | None => None
          | Some l => linearize r (Dict.set (cls_name c) (cls_name c :: l) known)
          end
      end
  end.

End C3.

Section ClassTable.
Variable classes : list Class.

Definition get_class (name : string) : option Class :=
  List.find (fun c => String.eqb (cls_name c) name) classes.

(** [cls.__mro__], as names. *)
Definition __mro__ (cls : string) : list string :=
  match C3.linearize classes [] with
  | Some table =>
      match Dict.get cls table with Some l => l | None => [] end
  | None => []
  end.

(** [m.__dict__], restricted to the assignments of the class body. *)
Definition class_dict (m : string) : list (string * ClassAttr) :=
  match get_class m with Some c => cls_dict c | None => [] end.

(** [{k: v for k, v in m.__dict__.items() if isinstance(v, Element)}] *)
Definition element_items (d : list (string * ClassAttr))
  : Dict.t Types.Element :=
  fold_left
    (fun acc kv =>
       match snd kv with
       | AttrElement e => Dict.set (fst kv) e acc
       | _ => acc
       end) d [].

(** The [elements] property:
    [d = {}; for m in self.__class__.__mro__: d.update({...}); return d] *)
Definition elements_of (mro : list string) : Dict.t Types.Element :=
  fold_left (fun d m => Dict.update d (element_items (class_dict m))) mro [].

Definition elements (cls : string) : Dict.t Types.Element :=
  elements_of (__mro__ cls).

(** Attribute lookup on the type, as [setattr] and [cls._preflatten] do
    it: the first class of the MRO that binds the name. *)
Fixpoint type_lookup (mro : list string) (name : string)
  : option ClassAttr :=
  match mro with
  | [] => None
  | m :: r =>
      match Dict.get name (class_dict m) with
      | Some a => Some a
      | None => type_lookup r name
      end
  end.

Fixpoint resolve_preflatten (mro : list string) : option Hook :=
  match mro with
  | [] => None
  | m :: r =>
      match get_class m with
      | Some (mkClass _ _ _ (Some h)) => Some h
      | _ => resolve_preflatten r
      end
  end.

End ClassTable.

(* ------------------------------------------------------------------ *)
(** ** Python objects held by an instance *)

(** The values an attribute of an [Aggregate] instance can hold: [None], a
    [str], a converted field value, a nested instance (its class name and
    its attributes) or a list. *)
#[warning="-register-all"]
Inductive PyObj (Value : Type) : Type :=
| ObjNone
| ObjStr (s : string)
| ObjValue (v : Value)
| ObjInstance (cls : string) (attrs : list (string * PyObj Value))
| ObjList (l : list (PyObj Value)).
Arguments ObjNone {Value}.
Arguments ObjStr {Value} s.
Arguments ObjValue {Value} v.
Arguments ObjInstance {Value} cls attrs.
Arguments ObjList {Value} l.

(** What [models.py] imports and this development takes as given: the
    code tables of [ofxtools.lib] and the conversion a descriptor of
    [ofxtools.Types] applies when an attribute is set. *)
Class External : Type := {
  Value : Type;
  LANG_CODES : list string;
  CURRENCY_CODES : list string;
  COUNTRY_CODES : list string;
  convert : Types.Element -> PyObj Value -> Result (PyObj Value)
}.

(** Enums used in aggregate validation *)
Definition INV401KSOURCES : list string :=
  ["PRETAX"; "AFTERTAX"; "MATCH"; "PROFITSHARING"; "ROLLOVER"; "OTHERVEST"; "OTHERNONVEST"].

Definition ACCTTYPES : list string :=
  ["CHECKING"; "SAVINGS"; "MONEYMRKT"; "CREDITLINE"].

Definition INVSUBACCTS : list string :=
  ["CASH"; "MARGIN"; "SHORT"; "OTHER"].

Definition BUYTYPES : list string :=
  ["BUY"; "BUYTOCOVER"].

Definition SELLTYPES : list string :=
  ["SELL"; "SELLSHORT"].

Definition INCOMETYPES : list string :=
  ["CGLONG"; "CGSHORT"; "DIV"; "INTEREST"; "MISC"].

Definition ASSETCLASSES : list string :=
  ["DOMESTICBOND"; "INTLBOND"; "LARGESTOCK"; "SMALLSTOCK"; "INTLSTOCK"; "MONEYMRKT"; "OTHER"].


(* ------------------------------------------------------------------ *)
(** ** The classes of the module *)

Section Models.
  Context {ext : External}.

(** The builtin root of every class; it binds no descriptor and no
    [_preflatten]. *)
Definition object : Class := mkClass "object" [] [] None.

Definition Aggregate : Class :=
  mkClass "Aggregate" ["object"]
    []
    (Some Aggregate_hook).

Definition FI : Class :=
  mkClass "FI" ["Aggregate"]
    [("org", AttrElement (Types.String 32 false));
     ("fid", AttrElement (Types.String 32 false))]
    None.

Definition STATUS : Class :=
  mkClass "STATUS" ["Aggregate"]
    [("code", AttrElement (Types.Integer (Some 6) true));
     ("severity", AttrElement (Types.OneOf ["INFO"; "WARN"; "ERROR"] true));
     ("message", AttrElement (Types.String 255 false))]
    None.

Definition SONRS : Class :=
  mkClass "SONRS" ["FI"; "STATUS"]
    [("dtserver", AttrElement (Types.DateTime true));
     ("userkey", AttrElement (Types.String 64 false));
     ("tskeyexpire", AttrElement (Types.DateTime false));
     ("language", AttrElement (Types.OneOf LANG_CODES false));
     ("dtprofup", AttrElement (Types.DateTime false));
     ("dtacctup", AttrElement (Types.DateTime false));
     ("sesscookie", AttrElement (Types.String 1000 false));
     ("accesskey", AttrElement (Types.String 1000 false))]
    None.

Definition CURRENCY : Class :=
  mkClass "CURRENCY" ["Aggregate"]
    [("cursym", AttrElement (Types.OneOf CURRENCY_CODES false));
     ("currate", AttrElement (Types.Decimal (Some 8) false))]
    None.

Definition ORIGCURRENCY : Class :=
  mkClass "ORIGCURRENCY" ["CURRENCY"]
    [("curtype", AttrElement (Types.OneOf ["CURRENCY"; "ORIGCURRENCY"] false))]
    (Some ORIGCURRENCY_hook).

Definition ACCTFROM : Class :=
  mkClass "ACCTFROM" ["Aggregate"]
    [("acctid", AttrElement (Types.String 22 true))]
    None.

Definition BANKACCTFROM : Class :=
  mkClass "BANKACCTFROM" ["ACCTFROM"]
    [("bankid", AttrElement (Types.String 9 true));
     ("branchid", AttrElement (Types.String 22 false));
     ("accttype", AttrElement (Types.OneOf ACCTTYPES true));
     ("acctkey", AttrElement (Types.String 22 false))]
    None.

Definition BANKACCTTO : Class :=
  mkClass "BANKACCTTO" ["BANKACCTFROM"]
    []
    None.

Definition CCACCTFROM : Class :=
  mkClass "CCACCTFROM" ["ACCTFROM"]
    [("acctkey", AttrElement (Types.String 22 false))]
    None.

Definition CCACCTTO : Class :=
  mkClass "CCACCTTO" ["CCACCTFROM"]
    []
    None.

Definition INVACCTFROM : Class :=
  mkClass "INVACCTFROM" ["ACCTFROM"]
    [("brokerid", AttrElement (Types.String 22 true))]
    None.

Definition LEDGERBAL : Class :=
  mkClass "LEDGERBAL" ["Aggregate"]
    [("balamt", AttrElement (Types.Decimal None true));
     ("dtasof", AttrElement (Types.DateTime true))]
    None.

Definition AVAILBAL : Class :=
  mkClass "AVAILBAL" ["Aggregate"]
    [("balamt", AttrElement (Types.Decimal None true));
     ("dtasof", AttrElement (Types.DateTime true))]
    None.

Definition INVBAL : Class :=
  mkClass "INVBAL" ["Aggregate"]
    [("availcash", AttrElement (Types.Decimal None true));
     ("marginbalance", AttrElement (Types.Decimal None true));
     ("shortbalance", AttrElement (Types.Decimal None true));
     ("buypower", AttrElement (Types.Decimal None false))]
    None.

Definition BAL : Class :=
  mkClass "BAL" ["CURRENCY"]
    [("name", AttrElement (Types.String 32 true));
     ("desc", AttrElement (Types.String 80 true));
     ("baltype", AttrElement (Types.OneOf ["DOLLAR"; "PERCENT"; "NUMBER"] true));
     ("value", AttrElement (Types.Decimal None true));
     ("dtasof", AttrElement (Types.DateTime false))]
    None.

Definition SECID : Class :=
  mkClass "SECID" ["Aggregate"]
    [("uniqueid", AttrElement (Types.String 32 true));
     ("uniqueidtype", AttrElement (Types.String 10 true))]
    None.

Definition SECINFO : Class :=
  mkClass "SECINFO" ["CURRENCY"; "SECID"]
    [("secname", AttrElement (Types.NagString 120 true));
     ("ticker", AttrElement (Types.NagString 32 false));
     ("fiid", AttrElement (Types.String 32 false));
     ("rating", AttrElement (Types.String 10 false));
     ("unitprice", AttrElement (Types.Decimal None false));
     ("dtasof", AttrElement (Types.DateTime false));
     ("memo", AttrElement (Types.String 255 false))]
    None.

Definition DEBTINFO : Class :=
  mkClass "DEBTINFO" ["SECINFO"]
    [("parvalue", AttrElement (Types.Decimal None true));
     ("debttype", AttrElement (Types.OneOf ["COUPON"; "ZERO"] true));
     ("debtclass", AttrElement (Types.OneOf ["TREASURY"; "MUNICIPAL"; "CORPORATE"; "OTHER"] false));
     ("couponrt", AttrElement (Types.Decimal (Some 4) false));
     ("dtcoupon", AttrElement (Types.DateTime false));
     ("couponfreq", AttrElement (Types.OneOf ["MONTHLY"; "QUARTERLY"; "SEMIANNUAL"; "ANNUAL"; "OTHER"] false));
     ("callprice", AttrElement (Types.Decimal (Some 4) false));
     ("yieldtocall", AttrElement (Types.Decimal (Some 4) false));
     ("dtcall", AttrElement (Types.DateTime false));
     ("calltype", AttrElement (Types.OneOf ["CALL"; "PUT"; "PREFUND"; "MATURITY"] false));
     ("yieldtomat", AttrElement (Types.Decimal (Some 4) false));
     ("dtmat", AttrElement (Types.DateTime false));
     ("assetclass", AttrElement (Types.OneOf ASSETCLASSES false));
     ("fiassetclass", AttrElement (Types.String 32 false))]
    None.

Definition MFINFO : Class :=
  mkClass "MFINFO" ["SECINFO"]
    [("mftype", AttrElement (Types.OneOf ["OPENEND"; "CLOSEEND"; "OTHER"] false));
     ("yld", AttrElement (Types.Decimal (Some 4) false));
     ("dtyieldasof", AttrElement (Types.DateTime false));
     ("mfassetclass", AttrList);
     ("fimfassetclass", AttrList)]
    (Some MFINFO_hook).

Definition PORTION : Class :=
  mkClass "PORTION" ["Aggregate"]
    [("assetclass", AttrElement (Types.OneOf ASSETCLASSES true));
     ("percent", AttrElement (Types.Decimal None true))]
    None.

Definition FIPORTION : Class :=
  mkClass "FIPORTION" ["Aggregate"]
    [("fiassetclass", AttrElement (Types.String 32 true));
     ("percent", AttrElement (Types.Decimal None true))]
    None.

Definition OPTINFO : Class :=
  mkClass "OPTINFO" ["SECINFO"]
    [("opttype", AttrElement (Types.OneOf ["CALL"; "PUT"] true));
     ("strikeprice", AttrElement (Types.Decimal None true));
     ("dtexpire", AttrElement (Types.DateTime true));
     ("shperctrct", AttrElement (Types.Integer None true));
     ("assetclass", AttrElement (Types.OneOf ASSETCLASSES false));
     ("fiassetclass", AttrElement (Types.String 32 false))]
    (Some OPTINFO_hook).

Definition OTHERINFO : Class :=
  mkClass "OTHERINFO" ["SECINFO"]
    [("typedesc", AttrElement (Types.String 32 false));
     ("assetclass", AttrElement (Types.OneOf ASSETCLASSES false));
     ("fiassetclass", AttrElement (Types.String 32 false))]
    None.

Definition STOCKINFO : Class :=
  mkClass "STOCKINFO" ["SECINFO"]
    [("stocktype", AttrElement (Types.OneOf ["COMMON"; "PREFERRED"; "CONVERTIBLE"; "OTHER"] false));
     ("yld", AttrElement (Types.Decimal (Some 4) false));
     ("dtyieldasof", AttrElement (Types.DateTime false));
     ("typedesc", AttrElement (Types.String 32 false));
     ("assetclass", AttrElement (Types.OneOf ASSETCLASSES false));
     ("fiassetclass", AttrElement (Types.String 32 false))]
    None.

Definition PAYEE : Class :=
  mkClass "PAYEE" ["Aggregate"]
    [("name", AttrElement (Types.NagString 32 true));
     ("addr1", AttrElement (Types.String 32 true));
     ("addr2", AttrElement (Types.String 32 false));
     ("addr3", AttrElement (Types.String 32 false));
     ("city", AttrElement (Types.String 32 true));
     ("state", AttrElement (Types.String 5 true));
     ("postalcode", AttrElement (Types.String 11 true));
     ("country", AttrElement (Types.OneOf COUNTRY_CODES false));
     ("phone", AttrElement (Types.String 32 true))]
    None.

Definition TRAN : Class :=
  mkClass "TRAN" ["Aggregate"]
    [("fitid", AttrElement (Types.String 255 true));
     ("srvrtid", AttrElement (Types.String 10 false))]
    None.

Definition STMTTRN : Class :=
  mkClass "STMTTRN" ["TRAN"; "ORIGCURRENCY"]
    [("trntype", AttrElement (Types.OneOf ["CREDIT"; "DEBIT"; "INT"; "DIV"; "FEE"; "SRVCHG"; "DEP"; "ATM"; "POS"; "XFER"; "CHECK"; "PAYMENT"; "CASH"; "DIRECTDEP"; "DIRECTDEBIT"; "REPEATPMT"; "OTHER"] true));
     ("dtposted", AttrElement (Types.DateTime true));
     ("dtuser", AttrElement (Types.DateTime false));
     ("dtavail", AttrElement (Types.DateTime false));
     ("trnamt", AttrElement (Types.Decimal None true));
     ("correctfitid", AttrElement (Types.Decimal None false));
     ("correctaction", AttrElement (Types.OneOf ["REPLACE"; "DELETE"] false));
     ("checknum", AttrElement (Types.String 12 false));
     ("refnum", AttrElement (Types.String 32 false));
     ("sic", AttrElement (Types.Integer None false));
     ("payeeid", AttrElement (Types.String 12 false));
     ("name", AttrElement (Types.String 32 false));
     ("memo", AttrElement (Types.String 255 false));
     ("inv401ksource", AttrElement (Types.OneOf INV401KSOURCES false));
     ("payee", AttrNone);
     ("bankacctto", AttrNone);
     ("ccacctto", AttrNone)]
    (Some STMTTRN_hook).

Definition INVBANKTRAN : Class :=
  mkClass "INVBANKTRAN" ["STMTTRN"]
    [("subacctfund", AttrElement (Types.OneOf INVSUBACCTS true))]
    None.

Definition INVTRAN : Class :=
  mkClass "INVTRAN" ["TRAN"]
    [("dttrade", AttrElement (Types.DateTime true));
     ("dtsettle", AttrElement (Types.DateTime false));
     ("reversalfitid", AttrElement (Types.String 255 false));
     ("memo", AttrElement (Types.String 255 false))]
    None.

Definition INVBUY : Class :=
  mkClass "INVBUY" ["INVTRAN"; "SECID"; "ORIGCURRENCY"]
    [("units", AttrElement (Types.Decimal None true));
     ("unitprice", AttrElement (Types.Decimal (Some 4) true));
     ("markup", AttrElement (Types.Decimal None false));
     ("commission", AttrElement (Types.Decimal None false));
     ("taxes", AttrElement (Types.Decimal None false));
     ("fees", AttrElement (Types.Decimal None false));
     ("load", AttrElement (Types.Decimal None false));
     ("total", AttrElement (Types.Decimal None true));
     ("subacctsec", AttrElement (Types.OneOf INVSUBACCTS true));
     ("subacctfund", AttrElement (Types.OneOf INVSUBACCTS true));
     ("loanid", AttrElement (Types.String 32 false));
     ("loanprincipal", AttrElement (Types.Decimal None false));
     ("loaninterest", AttrElement (Types.Decimal None false));
     ("inv401ksource", AttrElement (Types.OneOf INV401KSOURCES false));
     ("dtpayroll", AttrElement (Types.DateTime false));
     ("prioryearcontrib", AttrElement (Types.Bool false))]
    None.

Definition INVSELL : Class :=
  mkClass "INVSELL" ["INVTRAN"; "SECID"; "ORIGCURRENCY"]
    [("units", AttrElement (Types.Decimal None true));
     ("unitprice", AttrElement (Types.Decimal (Some 4) true));
     ("markdown", AttrElement (Types.Decimal None false));
     ("commission", AttrElement (Types.Decimal None false));
     ("taxes", AttrElement (Types.Decimal None false));
     ("fees", AttrElement (Types.Decimal None false));
     ("load", AttrElement (Types.Decimal None false));
     ("withholding", AttrElement (Types.Decimal None false));
     ("taxexempt", AttrElement (Types.Bool false));
     ("total", AttrElement (Types.Decimal None true));
     ("gain", AttrElement (Types.Decimal None false));
     ("subacctsec", AttrElement (Types.OneOf INVSUBACCTS true));
     ("subacctfund", AttrElement (Types.OneOf INVSUBACCTS true));
     ("loanid", AttrElement (Types.String 32 false));
     ("statewithholding", AttrElement (Types.Decimal None false));
     ("penalty", AttrElement (Types.Decimal None false));
     ("inv401ksource", AttrElement (Types.OneOf INV401KSOURCES false))]
    None.

Definition BUYDEBT : Class :=
  mkClass "BUYDEBT" ["INVBUY"]
    [("accrdint", AttrElement (Types.Decimal None false))]
    None.

Definition BUYMF : Class :=
  mkClass "BUYMF" ["INVBUY"]
    [("buytype", AttrElement (Types.OneOf BUYTYPES true));
     ("relfitid", AttrElement (Types.String 255 false))]
    None.

Definition BUYOPT : Class :=
  mkClass "BUYOPT" ["INVBUY"]
    [("optbuytype", AttrElement (Types.OneOf ["BUYTOOPEN"; "BUYTOCLOSE"] true));
     ("shperctrct", AttrElement (Types.Integer None true))]
    None.

Definition BUYOTHER : Class :=
  mkClass "BUYOTHER" ["INVBUY"]
    []
    None.

Definition BUYSTOCK : Class :=
  mkClass "BUYSTOCK" ["INVBUY"]
    [("buytype", AttrElement (Types.OneOf BUYTYPES true))]
    None.

Definition CLOSUREOPT : Class :=
  mkClass "CLOSUREOPT" ["INVTRAN"; "SECID"]
    [("optaction", AttrElement (Types.OneOf ["EXERCISE"; "ASSIGN"; "EXPIRE"] false));
     ("units", AttrElement (Types.Decimal None true));
     ("shperctrct", AttrElement (Types.Integer None true));
     ("subacctsec", AttrElement (Types.OneOf INVSUBACCTS true));
     ("relfitid", AttrElement (Types.String 255 false));
     ("gain", AttrElement (Types.Decimal None false))]
    None.

Definition INCOME : Class :=
  mkClass "INCOME" ["INVTRAN"; "SECID"; "ORIGCURRENCY"]
    [("incometype", AttrElement (Types.OneOf INCOMETYPES true));
     ("total", AttrElement (Types.Decimal None true));
     ("subacctsec", AttrElement (Types.OneOf INVSUBACCTS true));
     ("subacctfund", AttrElement (Types.OneOf INVSUBACCTS true));
     ("taxexempt", AttrElement (Types.Bool false));
     ("withholding", AttrElement (Types.Decimal None false));
     ("inv401ksource", AttrElement (Types.OneOf INV401KSOURCES false))]
    None.

Definition INVEXPENSE : Class :=
  mkClass "INVEXPENSE" ["INVTRAN"; "SECID"; "ORIGCURRENCY"]
    [("total", AttrElement (Types.Decimal None true));
     ("subacctsec", AttrElement (Types.OneOf INVSUBACCTS true));
     ("subacctfund", AttrElement (Types.OneOf INVSUBACCTS true));
     ("inv401ksource", AttrElement (Types.OneOf INV401KSOURCES false))]
    None.

Definition JRNLFUND : Class :=
  mkClass "JRNLFUND" ["INVTRAN"]
    [("subacctto", AttrElement (Types.OneOf INVSUBACCTS true));
     ("subacctfrom", AttrElement (Types.OneOf INVSUBACCTS true));
     ("total", AttrElement (Types.Decimal None true))]
    None.

Definition JRNLSEC : Class :=
  mkClass "JRNLSEC" ["INVTRAN"; "SECID"]
    [("subacctto", AttrElement (Types.OneOf INVSUBACCTS true));
     ("subacctfrom", AttrElement (Types.OneOf INVSUBACCTS true));
     ("units", AttrElement (Types.Decimal None true))]
    None.

Definition MARGININTEREST : Class :=
  mkClass "MARGININTEREST" ["INVTRAN"; "ORIGCURRENCY"]
    [("total", AttrElement (Types.Decimal None true));
     ("subacctfund", AttrElement (Types.OneOf INVSUBACCTS true))]
    None.

Definition REINVEST : Class :=
  mkClass "REINVEST" ["INVTRAN"; "SECID"; "ORIGCURRENCY"]
    [("incometype", AttrElement (Types.OneOf INCOMETYPES true));
     ("total", AttrElement (Types.Decimal None true));
     ("subacctsec", AttrElement (Types.OneOf INVSUBACCTS true));
     ("units", AttrElement (Types.Decimal None true));
     ("unitprice", AttrElement (Types.Decimal (Some 4) true));
     ("commission", AttrElement (Types.Decimal None false));
     ("taxes", AttrElement (Types.Decimal None false));
     ("fees", AttrElement (Types.Decimal None false));
     ("load", AttrElement (Types.Decimal None false));
     ("taxexempt", AttrElement (Types.Bool false));
     ("inv401ksource", AttrElement (Types.OneOf INV401KSOURCES false))]
    None.

Definition RETOFCAP : Class :=
  mkClass "RETOFCAP" ["INVTRAN"; "SECID"; "ORIGCURRENCY"]
    [("total", AttrElement (Types.Decimal None true));
     ("subacctsec", AttrElement (Types.OneOf INVSUBACCTS true));
     ("subacctfund", AttrElement (Types.OneOf INVSUBACCTS true));
     ("inv401ksource", AttrElement (Types.OneOf INV401KSOURCES false))]
    None.

Definition SELLDEBT : Class :=
  mkClass "SELLDEBT" ["INVSELL"]
    [("sellreason", AttrElement (Types.OneOf ["CALL"; "SELL"; "MATURITY"] true));
     ("accrdint", AttrElement (Types.Decimal None false))]
    None.

Definition SELLMF : Class :=
  mkClass "SELLMF" ["INVSELL"]
    [("selltype", AttrElement (Types.OneOf SELLTYPES true));
     ("avgcostbasis", AttrElement (Types.Decimal None false));
     ("relfitid", AttrElement (Types.String 255 false))]
    None.

Definition SELLOPT : Class :=
  mkClass "SELLOPT" ["INVSELL"]
    [("optselltype", AttrElement (Types.OneOf ["SELLTOCLOSE"; "SELLTOOPEN"] true));
     ("shperctrct", AttrElement (Types.Integer None true));
     ("relfitid", AttrElement (Types.String 255 false));
     ("reltype", AttrElement (Types.OneOf ["SPREAD"; "STRADDLE"; "NONE"; "OTHER"] false));
     ("secured", AttrElement (Types.OneOf ["NAKED"; "COVERED"] false))]
    None.

Definition SELLOTHER : Class :=
  mkClass "SELLOTHER" ["INVSELL"]
    []
    None.

Definition SELLSTOCK : Class :=
  mkClass "SELLSTOCK" ["INVSELL"]
    [("selltype", AttrElement (Types.OneOf SELLTYPES true))]
    None.

Definition SPLIT : Class :=
  mkClass "SPLIT" ["INVTRAN"; "SECID"]
    [("subacctsec", AttrElement (Types.OneOf INVSUBACCTS true));
     ("oldunits", AttrElement (Types.Decimal None true));
     ("newunits", AttrElement (Types.Decimal None true));
     ("numerator", AttrElement (Types.Decimal None true));
     ("denominator", AttrElement (Types.Decimal None true));
     ("fraccash", AttrElement (Types.Decimal None false));
     ("subacctfund", AttrElement (Types.OneOf INVSUBACCTS false));
     ("inv401ksource", AttrElement (Types.OneOf INV401KSOURCES false))]
    None.

Definition TRANSFER : Class :=
  mkClass "TRANSFER" ["INVTRAN"; "SECID"]
    [("subacctsec", AttrElement (Types.OneOf INVSUBACCTS true));
     ("units", AttrElement (Types.Decimal None true));
     ("tferaction", AttrElement (Types.OneOf ["IN"; "OUT"] true));
     ("postype", AttrElement (Types.OneOf ["SHORT"; "LONG"] true));
     ("avgcostbasis", AttrElement (Types.Decimal None false));
     ("unitprice", AttrElement (Types.Decimal None false));
     ("dtpurchase", AttrElement (Types.DateTime false));
     ("inv401ksource", AttrElement (Types.OneOf INV401KSOURCES false))]
    None.

Definition INVPOS : Class :=
  mkClass "INVPOS" ["SECID"; "CURRENCY"]
    [("heldinacct", AttrElement (Types.OneOf INVSUBACCTS true));
     ("postype", AttrElement (Types.OneOf ["SHORT"; "LONG"] true));
     ("units", AttrElement (Types.Decimal None true));
     ("unitprice", AttrElement (Types.Decimal (Some 4) true));
     ("mktval", AttrElement (Types.Decimal None true));
     ("dtpriceasof", AttrElement (Types.DateTime true));
     ("memo", AttrElement (Types.String 255 false));
     ("inv401ksource", AttrElement (Types.OneOf INV401KSOURCES false))]
    None.

Definition POSDEBT : Class :=
  mkClass "POSDEBT" ["INVPOS"]
    []
    None.

Definition POSMF : Class :=
  mkClass "POSMF" ["INVPOS"]
    [("unitsstreet", AttrElement (Types.Decimal None false));
     ("unitsuser", AttrElement (Types.Decimal None false));
     ("reinvdiv", AttrElement (Types.Bool false));
     ("reinvcg", AttrElement (Types.Bool false))]
    None.

Definition POSOPT : Class :=
  mkClass "POSOPT" ["INVPOS"]
    [("secured", AttrElement (Types.OneOf ["NAKED"; "COVERED"] false))]
    None.

Definition POSOTHER : Class :=
  mkClass "POSOTHER" ["INVPOS"]
    []
    None.

Definition POSSTOCK : Class :=
  mkClass "POSSTOCK" ["INVPOS"]
    [("unitsstreet", AttrElement (Types.Decimal None false));
     ("unitsuser", AttrElement (Types.Decimal None false));
     ("reinvdiv", AttrElement (Types.Bool false))]
    None.

(** The classes bound in the module namespace, in the order of their
    statements. *)
Definition module_classes : list Class :=
  [Aggregate; FI; STATUS; SONRS; CURRENCY; ORIGCURRENCY; ACCTFROM;
   BANKACCTFROM; BANKACCTTO; CCACCTFROM; CCACCTTO; INVACCTFROM;
   LEDGERBAL; AVAILBAL; INVBAL; BAL; SECID; SECINFO; DEBTINFO; MFINFO;
   PORTION; FIPORTION; OPTINFO; OTHERINFO; STOCKINFO; PAYEE; TRAN;
   STMTTRN; INVBANKTRAN; INVTRAN; INVBUY; INVSELL; BUYDEBT; BUYMF;
   BUYOPT; BUYOTHER; BUYSTOCK; CLOSUREOPT; INCOME; INVEXPENSE; JRNLFUND;
   JRNLSEC; MARGININTEREST; REINVEST; RETOFCAP; SELLDEBT; SELLMF;
   SELLOPT; SELLOTHER; SELLSTOCK; SPLIT; TRANSFER; INVPOS; POSDEBT;
   POSMF; POSOPT; POSOTHER; POSSTOCK].

(** Every class there is: [object], then the classes of the module. *)
Definition classes : list Class := object :: module_classes.

(* ------------------------------------------------------------------ *)
(** ** Instances: [setattr] and [Aggregate.__init__] *)

(** An instance: [self.__class__.__name__] and the attributes set on it,
    in the order they were first set. *)
Definition Instance : Type := string * Dict.t (PyObj Value).

Definition of_text (x : option string) : PyObj Value :=
  match x with Some s => ObjStr s | None => ObjNone end.

(** [setattr(self, name, value)]: when the type binds [name] to a
    descriptor, the descriptor converts the value (and may raise);
    otherwise the value is stored as it is. *)
Definition setattr (self : Instance) (name : string) (value : PyObj Value)
  : Result Instance :=
  let '(cls, d) := self in
  match type_lookup classes (__mro__ classes cls) name with
  | Some (AttrElement e) =>
      v <- convert e value ;;
      Ok (cls, Dict.set name v d)
  | _ => Ok (cls, Dict.set name value d)
  end.

(** [except ValueError as e: raise ValueError("Can't create ...")] *)
Definition cant_create {A} (cls name : string) (m : Result A) : Result A :=
  match m with
  | Raise (ValueError arg) => Raise (ValueError (MsgCantCreate cls name arg))
  | _ => m
  end.

(** [for name, element in self.elements.items(): ...] *)
Fixpoint init_elements (names : list string) (kwargs : Dict.t string)
  (self : Instance) : Result (Dict.t string * Instance) :=
  match names with
  | [] => Ok (kwargs, self)
  | name :: rest =>
      let '(value, kwargs) := Dict.pop name kwargs in
      self <- cant_create (fst self) name (setattr self name (of_text value)) ;;
      init_elements rest kwargs self
  end.

(** The body of [__init__], run once the keyword arguments are bound. *)
Definition init_body (cls : string) (kwargs : Dict.t string) : Result Instance :=
  '(kwargs, self) <-
     init_elements (Dict.keys (elements classes cls)) kwargs (cls, []) ;;
  match kwargs with
  | [] => Ok self
  | _ => Raise (ValueError (MsgUndefined cls (Dict.keys kwargs)))
  end.

(** The constructor, called with the entries of [kwargs] as keyword
    arguments.  The signature is [__init__(self, ...)] with the other
    keywords gathered in a dictionary, so a key [self] clashes with the
    first parameter: the call raises [TypeError] (multiple values for the
    argument) and the body does not run. *)
Definition __init__ (cls : string) (kwargs : Dict.t string) : Result Instance :=
  if Dict.mem "self" kwargs then Raise (OtherError "TypeError")
  else init_body cls kwargs.

(* ------------------------------------------------------------------ *)
(** ** [Aggregate._groom] *)

Definition dual_relationships : list (string * string) :=
  [("CCACCTTO", "BANKACCTTO");
   ("NAME", "PAYEE");
   ("CURRENCY", "ORIGCURRENCY")].

(** [yld = elem.find('./YIELD'); if yld is not None: yld.tag = 'YLD'] *)
Definition rename_yield (elem : ETElement) : ETElement :=
  match find "YIELD" elem with
  | Some _ =>
      Elem (tag elem) (text elem) (retag_first "YIELD" "YLD" (children elem))
  | None => elem
  end.

Fixpoint check_exclusive (elem : ETElement) (pairs : list (string * string))
  : Result unit :=
  match pairs with
  | [] => Ok tt
  | (first, second) :: rest =>
      match find first elem, find second elem with
      | Some _, Some _ =>
          Raise (ValueError (MsgExclusive (tag elem) first second))
      | _, _ => check_exclusive elem rest
      end
  end.

(** The tree as [_groom] leaves it, and whether it raised. *)
Definition _groom (elem : ETElement) : ETElement * Result unit :=
  let elem := rename_yield elem in
  (elem, check_exclusive elem dual_relationships).

(* ------------------------------------------------------------------ *)
(** ** [_preflatten] *)

(** A value of the [subaggs] dictionary, by the [isinstance] tests of
    [_postflatten]. *)
Inductive Subagg : Type :=
| SubElement (e : ETElement)
| SubList (l : list ETElement).

(** [attrs], [subaggs] and the tree as the hook leaves it. *)
Definition Preflattened : Type :=
  (Dict.t (PyObj Value) * Dict.t Subagg * ETElement)%type.

Definition Aggregate__preflatten (elem : ETElement) : Result Preflattened :=
  Ok ([], [], elem).

(** [a or b] on the results of two [find]s. *)
Definition or_else (a b : option ETElement) : option ETElement :=
  match a with
  | Some x => if truthy x then a else b
  | None => b
  end.

(** [super(ORIGCURRENCY, ORIGCURRENCY)._preflatten] is
    [Aggregate._preflatten]. *)
Definition ORIGCURRENCY__preflatten (elem : ETElement) : Result Preflattened :=
  '(attr, subagg, elem) <- Aggregate__preflatten elem ;;
  let curtype :=
    or_else (find_grandchild "CURRENCY" elem)
            (find_grandchild "ORIGCURRENCY" elem) in
  match curtype with
  | Some curtype =>
      _ <- assert (negb (Dict.mem "curtype" attr)) ;;
      Ok (Dict.set "curtype" (of_text (text curtype)) attr, subagg, elem)
  | None => Ok (attr, subagg, elem)
  end.

(** [if x is not None: subaggs[t] = x; elem.remove(x)], for the [x] that
    [elem.find(t)] returned. *)
Definition strip_subagg (t : string) (found : option ETElement)
  (subaggs : Dict.t Subagg) (elem : ETElement) : Dict.t Subagg * ETElement :=
  match found with
  | Some x => (Dict.set t (SubElement x) subaggs, remove t elem)
  | None => (subaggs, elem)
  end.

(** [super(MFINFO, MFINFO)._preflatten] is [Aggregate._preflatten]. *)
Definition MFINFO__preflatten (elem : ETElement) : Result Preflattened :=
  '(attrs, subaggs, elem) <- Aggregate__preflatten elem ;;
  let mfassetclass := find "MFASSETCLASS" elem in
  let fimfassetclass := find "FIMFASSETCLASS" elem in
  let '(subaggs, elem) := strip_subagg "MFASSETCLASS" mfassetclass subaggs elem in
  let '(subaggs, elem) :=
    strip_subagg "FIMFASSETCLASS" fimfassetclass subaggs elem in
  Ok (attrs, subaggs, elem).

(** [super(OPTINFO, OPTINFO)._preflatten] is [Aggregate._preflatten]. *)
Definition OPTINFO__preflatten (elem : ETElement) : Result Preflattened :=
  '(attrs, subaggs, elem) <- Aggregate__preflatten elem ;;
  let secid := find "SECID" elem in
  match secid with
  | Some _ => Ok (attrs, subaggs, remove "SECID" elem)
  | None => Ok (attrs, subaggs, elem)
  end.

(** [for tag in ["CCACCTTO", "BANKACCTTO", "PAYEE"]: ...] *)
Fixpoint strip_subaggs (tags : list string) (subaggs : Dict.t Subagg)
  (elem : ETElement) : Dict.t Subagg * ETElement :=
  match tags with
  | [] => (subaggs, elem)
  | t :: rest =>
      let '(subaggs, elem) := strip_subagg t (find t elem) subaggs elem in
      strip_subaggs rest subaggs elem
  end.

(** [super(STMTTRN, STMTTRN)._preflatten] is [ORIGCURRENCY._preflatten]. *)
Definition STMTTRN__preflatten (elem : ETElement) : Result Preflattened :=
  '(attrs, subaggs, elem) <- ORIGCURRENCY__preflatten elem ;;
  let '(subaggs, elem) :=
    strip_subaggs ["CCACCTTO"; "BANKACCTTO"; "PAYEE"] subaggs elem in
  Ok (attrs, subaggs, elem).

Definition run_hook (h : Hook) : ETElement -> Result Preflattened :=
  match h with
  | Aggregate_hook => Aggregate__preflatten
  | ORIGCURRENCY_hook => ORIGCURRENCY__preflatten
  | MFINFO_hook => MFINFO__preflatten
  | OPTINFO_hook => OPTINFO__preflatten
  | STMTTRN_hook => STMTTRN__preflatten
  end.

(** [super(cls, cls)._preflatten]: the search starts after [cls] in the
    MRO of [cls]. *)
Definition super_preflatten (cls : string) : option Hook :=
  resolve_preflatten classes (tl (__mro__ classes cls)).

(* ------------------------------------------------------------------ *)
(** ** [_postflatten] and [from_etree] *)

(** [for attr, value in attrs.items(): setattr(instance, attr, value)] *)
Fixpoint set_attrs (instance : Instance) (attrs : Dict.t (PyObj Value))
  : Result Instance :=
  match attrs with
  | [] => Ok instance
  | (attr, value) :: rest =>
      instance <- setattr instance attr value ;;
      set_attrs instance rest
  end.

(** The value built for one entry of [subaggs]; [rec] is
    [Aggregate.from_etree].  In the list branch the comprehension calls
    [from_etree] on the list itself once per member, and a list has no
    [find]. *)
Definition decode_subagg (rec : ETElement -> Result Instance) (elem : Subagg)
  : Result (PyObj Value) :=
  match elem with
  | SubElement e =>
      i <- rec e ;;
      Ok (ObjInstance (fst i) (snd i))
  | SubList [] => Ok (ObjList [])
  | SubList (_ :: _) => Raise (AttributeError "find")
  end.

(** [for tag, elem in subaggs.items(): ...] *)
Fixpoint attach_subaggs (rec : ETElement -> Result Instance)
  (instance : Instance) (subaggs : Dict.t Subagg) : Result Instance :=
  match subaggs with
  | [] => Ok instance
  | (tag, elem) :: rest =>
      v <- decode_subagg rec elem ;;
      instance <- setattr instance (Str.lower tag) v ;;
      attach_subaggs rec instance rest
  end.

Definition _postflatten (rec : ETElement -> Result Instance)
  (instance : Instance) (attrs : Dict.t (PyObj Value))
  (subaggs : Dict.t Subagg) : Result Instance :=
  instance <- set_attrs instance attrs ;;
  attach_subaggs rec instance subaggs.

(** What a name of the module namespace is bound to: one of the
    aggregate classes, or something else the module imports or defines. *)
Inductive Global : Type :=
| GClass (name : string)
| GOther.

Definition other_globals : list string :=
  ["__name__"; "__doc__"; "__package__"; "__loader__"; "__spec__";
   "__file__"; "__cached__"; "__builtins__";
   "ET"; "ofxtools"; "Element"; "Bool"; "String"; "OneOf"; "Integer";
   "Decimal"; "DateTime"; "NagString";
   "LANG_CODES"; "CURRENCY_CODES"; "COUNTRY_CODES";
   "INV401KSOURCES"; "ACCTTYPES"; "INVSUBACCTS"; "BUYTYPES"; "SELLTYPES";
   "INCOMETYPES"; "ASSETCLASSES"].

(** [globals()[name]] *)
Definition globals (name : string) : Result Global :=
  if existsb (fun c => String.eqb (cls_name c) name) module_classes
  then Ok (GClass name)
  else if existsb (String.eqb name) other_globals then Ok GOther
  else Raise (KeyError name).

(** [SubClass._preflatten(elem)] *)
Definition _preflatten (SubClass : Global) (elem : ETElement)
  : Result Preflattened :=
  match SubClass with
  | GClass name =>
      match resolve_preflatten classes (__mro__ classes name) with
      | Some h => run_hook h elem
      | None => Raise (AttributeError "_preflatten")
      end
  | GOther => Raise (AttributeError "_preflatten")
  end.

(** The call of [SubClass] on the flat mapping, its entries passed as
    keyword arguments; a name of the module that is not a class cannot be
    called so. *)
Definition instantiate (SubClass : Global) (attributes : flat)
  : Result Instance :=
  match SubClass with
  | GClass name => __init__ name attributes
  | GOther => Raise (OtherError "TypeError")
  end.

(** The body of [Aggregate.from_etree]; [rec] is the call of
    [Aggregate.from_etree] that [_postflatten] makes. *)
Definition from_etree_body (rec : ETElement -> Result Instance)
  (elem : ETElement) : Result Instance :=
  let '(elem, groomed) := _groom elem in
  _ <- groomed ;;
  SubClass <- globals (tag elem) ;;
  '(attrs, subaggs, elem) <- _preflatten SubClass elem ;;
  attributes <- _flatten elem ;;
  instance <- instantiate SubClass attributes ;;
  _postflatten rec instance attrs subaggs.

(** [from_etree] with the depth of recursion it may use. *)
Fixpoint from_etree_depth (depth : nat) (elem : ETElement) : Result Instance :=
  match depth with
  | 0 => Raise (OtherError "RecursionError")
  | S d => from_etree_body (from_etree_depth d) elem
  end.

(** The number of levels of a tree. *)
Fixpoint height (e : ETElement) : nat :=
  match e with
  | Elem _ _ cs => S (list_max (map height cs))
  end.

(** [Aggregate.from_etree(elem)]: [_postflatten] only recurses into
    children taken out of [elem], so the height of [elem] is depth
    enough (see [from_etree_depth_enough]). *)
Definition from_etree (elem : ETElement) : Result Instance :=
  from_etree_depth (height elem) elem.

End Models.

(* ------------------------------------------------------------------ *)
(** ** A concrete [External], used to run the decoder on examples *)

Module SpecTypes.

(** Modelled from the spec: the typed values of [ofxtools.Types], which
    is not part of the source tree.  Numbers and date-times are kept as
    the text that was validated. *)
Inductive value : Type :=
| VBool (b : bool)
| VString (s : string)
| VInteger (digits : string)
| VDecimal (digits : string)
| VDateTime (digits : string).

Definition isdigit (c : ascii) : bool :=
  let n := nat_of_ascii c in Nat.leb 48 n && Nat.leb n 57.

Fixpoint all_digits (s : string) : bool :=
  match s with
  | EmptyString => true
  | String c r => isdigit c && all_digits r
  end.

Definition unsigned (s : string) : string :=
  match s with
  | String "-"%char r => r
  | String "+"%char r => r
  | _ => s
  end.

Definition is_integer (s : string) : bool :=
  Str.nonempty (unsigned s) && all_digits (unsigned s).

(** The digits before and after the first point. *)
Fixpoint split_point (s : string) : string * option string :=
  match s with
  | EmptyString => (EmptyString, None)
  | String "."%char r => (EmptyString, Some r)
  | String c r => let '(a, b) := split_point r in (String c a, b)
  end.

Definition is_decimal (precision : option nat) (s : string) : bool :=
  let '(whole, frac) := split_point (unsigned s) in
  Str.nonempty whole && all_digits whole &&
  match frac with
  | None => true
  | Some f =>
      all_digits f &&
      match precision with
      | Some p => Nat.leb (String.length f) p
      | None => true
      end
  end.

Definition is_datetime (s : string) : bool :=
  Nat.leb 8 (String.length s) && all_digits s.

Definition invalid {A} (why : string) : Result A :=
  Raise (ValueError (MsgText why)).

Definition required (e : Types.Element) : bool :=
  match e with
  | Types.Bool r | Types.String _ r | Types.NagString _ r
  | Types.OneOf _ r | Types.Integer _ r | Types.Decimal _ r
  | Types.DateTime r => r
  end.

Definition convert_text (e : Types.Element) (s : string)
  : Result (PyObj value) :=
  match e with
  | Types.Bool _ =>
      if String.eqb s "Y" then Ok (ObjValue (VBool true))
      else if String.eqb s "N" then Ok (ObjValue (VBool false))
      else invalid "not a boolean"
  | Types.String n _ =>
      if Nat.leb (String.length s) n then Ok (ObjValue (VString s))
      else invalid "too long"
  | Types.NagString _ _ => Ok (ObjValue (VString s))
  | Types.OneOf valid _ =>
      if existsb (String.eqb s) valid then Ok (ObjValue (VString s))
      else invalid "not one of the valid values"
  | Types.Integer n _ =>
      if is_integer s &&
         match n with Some n => Nat.leb (String.length s) n | None => true end
      then Ok (ObjValue (VInteger s))
      else invalid "not an integer"
  | Types.Decimal p _ =>
      if is_decimal p s then Ok (ObjValue (VDecimal s))
      else invalid "not a decimal"
  | Types.DateTime _ =>
      if is_datetime s then Ok (ObjValue (VDateTime s))
      else invalid "not a date-time"
  end.

(** Modelled from the spec: the conversion of section 4.1.  An absent
    value fails for a required field and stays unset for an optional
    one; a bounded string fails over its bound and the lenient variant
    accepts it; a number fails unless it parses (for a decimal, with no
    more fractional digits than the precision); an enumeration fails
    unless the text is one of its members.  The date-time grammar is
    external to the spec: eight or more digits stand in for it, and Y
    and N for the booleans. *)
Definition spec_convert (e : Types.Element) (v : PyObj value)
  : Result (PyObj value) :=
  match v with
  | ObjNone => if required e then invalid "required" else Ok ObjNone
  | ObjStr s => convert_text e s
  | _ => invalid "not text"
  end.

(** Modelled from the spec: the code tables of [ofxtools.lib] are closed
    sets consumed as they are; three short tables stand in for them. *)
#[export] Instance external : External := {|
  Value := value;
  LANG_CODES := ["ENG"; "FRA"; "SPA"];
  CURRENCY_CODES := ["USD"; "EUR"; "CAD"];
  COUNTRY_CODES := ["USA"; "FRA"; "CAN"];
  convert := spec_convert
|}.

End SpecTypes.

(* ------------------------------------------------------------------ *)
(** ** Vocabulary of the statements *)

(** A data-bearing child whose tag holds the private-namespace dot. *)
Definition private_leaf (c : ETElement) : bool :=
  Str.nonempty (data c) && Str.contains "."%char (tag c).

Definition filter_children (keep : ETElement -> bool) (e : ETElement)
  : ETElement :=
  match e with Elem t x cs => Elem t x (filter keep cs) end.

(** The tree without its private leaves, at every depth. *)
Fixpoint drop_private (e : ETElement) : ETElement :=
  match e with
  | Elem t x cs =>
      filter_children (fun c => negb (private_leaf c))
        (Elem t x (map drop_private cs))
  end.

Definition no_dot (k : string) : Prop := Str.contains "."%char k = false.

(** A data-bearing child whose tag holds no dot, and the entry it stands
    for in the flat mapping. *)
Definition flat_leaf (c : ETElement) : Prop :=
  Str.nonempty (data c) = true /\ no_dot (tag c).

Definition leaf_entry (c : ETElement) : string * string :=
  (Str.lower (tag c), data c).

(** The depth-1 tree that spells out a flat mapping. *)
Definition tree_of_flat (t : string) (m : flat) : ETElement :=
  Elem t None (map (fun kv => leaf (fst kv) (snd kv)) m).

(** [True] when no string occurs twice. *)
Fixpoint distinct (l : list string) : bool :=
  match l with
  | [] => true
  | k :: r => negb (existsb (String.eqb k) r) && distinct r
  end.

(** The names bound to a descriptor by the classes of an MRO, class by
    class. *)
Definition bound_elements (classes : list Class) (mro : list string)
  : list string :=
  flat_map (fun m => Dict.keys (element_items (class_dict classes m))) mro.

(** The keys of a flat mapping that no field of the class claims. *)
Definition unclaimed {ext : External} (cls : string) (kwargs : Dict.t string)
  : list string :=
  filter (fun k => negb (Dict.mem k (elements classes cls))) (Dict.keys kwargs).

(** The tags of the children that some [_preflatten] takes out of the
    tree. *)
Definition hook_tags : list string :=
  ["MFASSETCLASS"; "FIMFASSETCLASS"; "SECID"; "CCACCTTO"; "BANKACCTTO";
   "PAYEE"].

Definition remove_all (ts : list string) (cs : list ETElement)
  : list ETElement :=
  fold_left (fun cs t => remove_first t cs) ts cs.

(** [e'] is [e] after removals of a first child, each for one of the
    tags above; a tag may be taken more than once. *)
Definition trimmed (e e' : ETElement) : Prop :=
  tag e' = tag e /\ text e' = text e /\
  exists ts, incl ts hook_tags /\ children e' = remove_all ts (children e).

(** Every entry of [subaggs] is a child of [e], under its own tag. *)
Definition subaggs_of (e : ETElement) (subaggs : Dict.t Subagg) : Prop :=
  forall t s, In (t, s) subaggs ->
    In t hook_tags /\
    exists x, s = SubElement x /\ In x (children e) /\ tag x = t.

(** A data-bearing child without a dot in its tag whose lower-cased tag is
    [k], and the text of the last such child of a list. *)
Definition leaf_for (k : string) (c : ETElement) : bool :=
  Str.nonempty (data c) && negb (Str.contains "."%char (tag c)) &&
  String.eqb (Str.lower (tag c)) k.

Fixpoint leaf_value (k : string) (cs : list ETElement) (acc : option string)
  : option string :=
  match cs with
  | [] => acc
  | c :: r => leaf_value k r (if leaf_for k c then Some (data c) else acc)
  end.

(** The value [setattr] stores under a name of a class. *)
Definition setattr_value {ext : External} (cls name : string)
  (value : PyObj Value) : Result (PyObj Value) :=
  match type_lookup classes (__mro__ classes cls) name with
  | Some (AttrElement e) => convert e value
  | _ => Ok value
  end.

(** [True] when the type binds [name] to the descriptor [e]. *)
Definition bound_to {ext : External} (cls name : string)
  (e : Types.Element -> bool) : bool :=
  match type_lookup classes (__mro__ classes cls) name with
  | Some (AttrElement d) => e d
  | _ => false
  end.

Definition is_Decimal_4 (e : Types.Element) : bool :=
  match e with
  | Types.Decimal (Some 4) false => true
  | _ => false
  end.

(** The only attribute a hook computes is [curtype]. *)
Definition only_curtype {ext : External} (attrs : Dict.t (PyObj Value))
  : Prop :=
  forall k, In k (Dict.keys attrs) -> k = "curtype".

(** A class table in which a subclass binds a name its base binds too. *)
Definition override_classes : list Class :=
  [object; Aggregate;
   mkClass "Base" ["Aggregate"]
     [("memo", AttrElement (Types.String 255 false))] None;
   mkClass "Derived" ["Base"]
     [("memo", AttrElement (Types.String 32 true))] None].

(** The entries that the data-bearing leaves of a tree stand for, in
    document order: the leaves are looked for among the children and, below
    a child without text, among its children. *)
Fixpoint leaves_of (e : ETElement) : list (string * string) :=
  match e with
  | Elem _ _ cs =>
      flat_map
        (fun c =>
           if Str.nonempty (data c) then
             if Str.contains "."%char (tag c) then [] else [leaf_entry c]
           else leaves_of c)
        cs
  end.

(** What [_flatten] is shown to keep for a tree: the keys of its mapping
    are those of the leaves, and every entry is one of theirs. *)
Definition flat_sound (e : ETElement) : Prop :=
  forall m, _flatten e = Ok m ->
    (forall k, In k (Dict.keys m) <-> In k (map fst (leaves_of e))) /\
    (forall k v, In (k, v) m -> In (k, v) (leaves_of e)).

(** The exception that leaves [__init__] when setting the field [name]
    raised [e]: a [ValueError] is wrapped, anything else goes through. *)
Definition reraised (cls name : string) (e : Exception) : Exception :=
  match e with
  | ValueError arg => ValueError (MsgCantCreate cls name arg)
  | _ => e
  end.

(** [True] when the node has a direct child of each tag of the pair. *)
Definition holds_pair (elem : ETElement) (p : string * string) : bool :=
  match find (fst p) elem, find (snd p) elem with
  | Some _, Some _ => true
  | _, _ => false
  end.

(** The tags whose first child a hook takes out of the node, the tags
    among them whose child it sets aside as a sub-aggregate, and the
    attributes it may compute. *)
Definition hook_removes (h : Hook) : list string :=
  match h with
  | Aggregate_hook | ORIGCURRENCY_hook => []
  | MFINFO_hook => ["MFASSETCLASS"; "FIMFASSETCLASS"]
  | OPTINFO_hook => ["SECID"]
  | STMTTRN_hook => ["CCACCTTO"; "BANKACCTTO"; "PAYEE"]
  end.

Definition hook_sets_aside (h : Hook) : list string :=
  match h with
  | Aggregate_hook | ORIGCURRENCY_hook | OPTINFO_hook => []
  | MFINFO_hook => ["MFASSETCLASS"; "FIMFASSETCLASS"]
  | STMTTRN_hook => ["CCACCTTO"; "BANKACCTTO"; "PAYEE"]
  end.

Definition hook_computes (h : Hook) : list string :=
  match h with
  | ORIGCURRENCY_hook | STMTTRN_hook => ["curtype"]
  | Aggregate_hook | MFINFO_hook | OPTINFO_hook => []
  end.

(** For each of the tags, in their order, the first child of the node
    with that tag, when it has one. *)
Definition first_children (tags : list string) (e : ETElement)
  : Dict.t Subagg :=
  flat_map
    (fun t =>
       match find t e with
       | Some x => [(t, SubElement x)]
       | None => []
       end)
    tags.

(** Every name that the classes of an MRO bind in their bodies, class by
    class, whatever it is bound to. *)
Definition bound_names (classes : list Class) (mro : list string)
  : list string :=
  flat_map (fun m => map fst (class_dict classes m)) mro.

(* ------------------------------------------------------------------ *)
(** ** Example trees *)

Module Examples.

Definition secid (uniqueid : string) : ETElement :=
  agg "SECID" [leaf "UNIQUEID" uniqueid; leaf "UNIQUEIDTYPE" "CUSIP"].

Definition portion (assetclass percent : string) : ETElement :=
  agg "PORTION" [leaf "ASSETCLASS" assetclass; leaf "PERCENT" percent].

Definition three_portions : list ETElement :=
  [portion "DOMESTICBOND" "50"; portion "INTLBOND" "25";
   portion "OTHER" "25"].

Definition mfinfo_fields : list ETElement :=
  [agg "SECINFO" [secid "123"; leaf "SECNAME" "Fund"; leaf "TICKER" "FND"];
   leaf "MFTYPE" "OPENEND"].

(** A mutual fund with one MFASSETCLASS that lists three PORTIONs. *)
Definition mfinfo_portions : ETElement :=
  agg "MFINFO" (mfinfo_fields ++ [agg "MFASSETCLASS" three_portions]).

(** A mutual fund with three MFASSETCLASS children of one PORTION. *)
Definition mfinfo_repeated : ETElement :=
  agg "MFINFO"
    (mfinfo_fields ++ map (fun p => agg "MFASSETCLASS" [p]) three_portions).

(** A mutual fund with a yield. *)
Definition yield_leaf : ETElement := leaf "YIELD" " 5.0 ".

Definition mfinfo_yield : ETElement :=
  agg "MFINFO"
    (mfinfo_fields ++ yield_leaf :: [leaf "DTYIELDASOF" "20230101"]).

Definition optinfo_fields : list ETElement :=
  [agg "SECINFO" [secid "111"; leaf "SECNAME" "Call"];
   leaf "OPTTYPE" "CALL"; leaf "STRIKEPRICE" "10";
   leaf "DTEXPIRE" "20240101"; leaf "SHPERCTRCT" "100"].

(** An option, with the SECID of the underlying as a direct child. *)
Definition optinfo_underlying : ETElement :=
  agg "OPTINFO" (optinfo_fields ++ secid "999" :: []).

Definition currency (t : string) : ETElement :=
  agg t [leaf "CURRATE" "1.1"; leaf "CURSYM" "EUR"].

Definition stmttrn_fields : list ETElement :=
  [leaf "TRNTYPE" "CREDIT"; leaf "DTPOSTED" "20230101";
   leaf "TRNAMT" "10.00"; leaf "FITID" "1"].

(** A bank transaction with a CURRENCY as a direct child. *)
Definition stmttrn_currency : ETElement :=
  agg "STMTTRN" (stmttrn_fields ++ [currency "CURRENCY"]).

(** A bank transaction with both destinations. *)
Definition stmttrn_both : ETElement :=
  agg "STMTTRN"
    (stmttrn_fields ++
     [agg "CCACCTTO" [leaf "ACCTID" "1"];
      agg "BANKACCTTO" [leaf "ACCTID" "2"]]).

(** A bank transaction with a payee beside its name and, after them, both
    destinations. *)
Definition stmttrn_two_pairs : ETElement :=
  agg "STMTTRN"
    (stmttrn_fields ++
     [leaf "NAME" "Shop"; agg "PAYEE" [leaf "NAME" "Shop"];
      agg "CCACCTTO" [leaf "ACCTID" "1"];
      agg "BANKACCTTO" [leaf "ACCTID" "2"]]).

(** A purchase of stock, the ORIGCURRENCY two levels down. *)
Definition buystock_origcurrency : ETElement :=
  agg "BUYSTOCK"
    [agg "INVBUY"
       [agg "INVTRAN" [leaf "FITID" "1"; leaf "DTTRADE" "20230101"];
        secid "123"; leaf "UNITS" "10"; leaf "UNITPRICE" "1.5";
        leaf "TOTAL" "-15"; currency "ORIGCURRENCY";
        leaf "SUBACCTSEC" "CASH"; leaf "SUBACCTFUND" "CASH"];
     leaf "BUYTYPE" "BUY"].

(** A purchase of stock with a CURRENCY two levels down that holds only
    white space and the given children. *)
Definition buystock_blank_currency (inner : list ETElement) : ETElement :=
  agg "BUYSTOCK"
    [agg "INVBUY"
       [agg "INVTRAN" [leaf "FITID" "1"; leaf "DTTRADE" "20230101"];
        secid "123"; leaf "UNITS" "10"; leaf "UNITPRICE" "1.5";
        leaf "TOTAL" "-15"; Elem "CURRENCY" (Some " ") inner;
        leaf "SUBACCTSEC" "CASH"; leaf "SUBACCTFUND" "CASH"];
     leaf "BUYTYPE" "BUY"].

(** A bank transaction to a credit card account. *)
Definition ccacctto : ETElement := agg "CCACCTTO" [leaf "ACCTID" "1"].

Definition stmttrn_ccacctto : ETElement :=
  agg "STMTTRN" (stmttrn_fields ++ [ccacctto]).

(** A ledger balance, and a statement around it, for which the module has
    no class. *)
Definition ledgerbal : ETElement :=
  agg "LEDGERBAL" [leaf "BALAMT" "100.00"; leaf "DTASOF" "20230101"].

Definition stmtrs : ETElement :=
  agg "STMTRS" [leaf "CURDEF" "USD"; ledgerbal; leaf "INTU.BID" "7"].

(** A memo that carries text and a child. *)
Definition memo_with_child : list ETElement :=
  [leaf "FITID" "1"] ++ Elem "MEMO" (Some "note") [leaf "X" "y"] :: [].

End Examples.

(* ------------------------------------------------------------------ *)
(** * Properties *)

Unset Implicit Arguments.

(** ** Strings *)

Lemma lower_ascii_idem (c : ascii) :
  Str.lower_ascii (Str.lower_ascii c) = Str.lower_ascii c.
Proof.
  destruct c as [b0 b1 b2 b3 b4 b5 b6 b7].
  destruct b0, b1, b2, b3, b4, b5, b6, b7; reflexivity.
Qed.

Lemma lower_ascii_dot (c : ascii) :
  Ascii.eqb "."%char (Str.lower_ascii c) = Ascii.eqb "."%char c.
Proof.
  destruct c as [b0 b1 b2 b3 b4 b5 b6 b7].
  destruct b0, b1, b2, b3, b4, b5, b6, b7; reflexivity.
Qed.

Lemma lower_idem (s : string) : Str.lower (Str.lower s) = Str.lower s.
Proof.
  induction s as [|c r IH]; simpl; [reflexivity|].
  now rewrite lower_ascii_idem, IH.
Qed.

Lemma contains_dot_lower (s : string) :
  Str.contains "."%char (Str.lower s) = Str.contains "."%char s.
Proof.
  induction s as [|c r IH]; cbn [Str.contains Str.lower]; [reflexivity|].
  now rewrite lower_ascii_dot, IH.
Qed.

Lemma lstrip_idem (s : string) : Str.lstrip (Str.lstrip s) = Str.lstrip s.
Proof.
  induction s as [|c r IH]; simpl; [reflexivity|].
  destruct (Str.isspace c) eqn:E; [exact IH|].
  simpl. now rewrite E.
Qed.

Lemma rstrip_cons (c : ascii) (r : string) :
  Str.rstrip (String c r) =
  match Str.rstrip r with
  | EmptyString => if Str.isspace c then EmptyString else String c EmptyString
  | r' => String c r'
  end.
Proof. reflexivity. Qed.

Lemma rstrip_idem (s : string) : Str.rstrip (Str.rstrip s) = Str.rstrip s.
Proof.
  induction s as [|c r IH]; [reflexivity|].
  rewrite rstrip_cons.
  destruct (Str.rstrip r) as [|d r'] eqn:E.
  - destruct (Str.isspace c) eqn:Ec; [reflexivity|].
    rewrite rstrip_cons. simpl. now rewrite Ec.
  - rewrite rstrip_cons, IH. reflexivity.
Qed.

Lemma lstrip_rstrip (s : string) :
  Str.lstrip (Str.rstrip s) = Str.rstrip (Str.lstrip s).
Proof.
  induction s as [|c r IH]; [reflexivity|].
  rewrite rstrip_cons. cbn [Str.lstrip].
  destruct (Str.isspace c) eqn:Ec.
  - rewrite <- IH.
    destruct (Str.rstrip r) as [|d r']; cbn [Str.lstrip]; now rewrite ?Ec.
  - rewrite rstrip_cons.
    destruct (Str.rstrip r) as [|d r']; cbn [Str.lstrip]; now rewrite Ec.
Qed.

Lemma strip_idem (s : string) : Str.strip (Str.strip s) = Str.strip s.
Proof.
  unfold Str.strip.
  now rewrite lstrip_rstrip, rstrip_idem, lstrip_idem.
Qed.

(** ** Dictionaries *)

Section DictFacts.
Variable V : Type.
Implicit Types (d : Dict.t V) (k : string) (v : V).

Lemma get_set k k' v d :
  Dict.get k (Dict.set k' v d) =
  if String.eqb k k' then Some v else Dict.get k d.
Proof.
  induction d as [|[k0 v0] r IH]; simpl.
  - reflexivity.
  - destruct (String.eqb k' k0) eqn:E; simpl.
    + apply String.eqb_eq in E. subst k0.
      destruct (String.eqb k k'); reflexivity.
    + rewrite IH. destruct (String.eqb k k0) eqn:E0; [|reflexivity].
      apply String.eqb_eq in E0. subst k0.
      rewrite String.eqb_sym, E. reflexivity.
Qed.

Lemma mem_In k d : Dict.mem k d = true <-> In k (Dict.keys d).
Proof.
  unfold Dict.mem.
  induction d as [|[k0 v0] r IH]; simpl.
  - split; [discriminate|tauto].
  - destruct (String.eqb k k0) eqn:E.
    + apply String.eqb_eq in E. subst. tauto.
    + apply String.eqb_neq in E. rewrite IH. split; [tauto|].
      intros [H|H]; [congruence|exact H].
Qed.

Lemma mem_false k d : Dict.mem k d = false <-> ~ In k (Dict.keys d).
Proof.
  rewrite <- mem_In. destruct (Dict.mem k d); split; congruence.
Qed.

Lemma set_fresh k v d :
  Dict.mem k d = false -> Dict.set k v d = d ++ [(k, v)].
Proof.
  unfold Dict.mem.
  induction d as [|[k0 v0] r IH]; simpl; [reflexivity|].
  destruct (String.eqb k k0); [discriminate|].
  intros H. now rewrite IH.
Qed.

Lemma keys_set_In k k' v d :
  In k (Dict.keys (Dict.set k' v d)) <-> k = k' \/ In k (Dict.keys d).
Proof.
  rewrite <- !mem_In. unfold Dict.mem. rewrite get_set.
  destruct (String.eqb k k') eqn:E.
  - apply String.eqb_eq in E. tauto.
  - apply String.eqb_neq in E.
    destruct (Dict.get k d); split; try tauto; intros [?|?]; congruence.
Qed.

Lemma keys_update_In k d other :
  In k (Dict.keys (Dict.update d other)) <->
  In k (Dict.keys d) \/ In k (Dict.keys other).
Proof.
  unfold Dict.update. revert d.
  induction other as [|[k0 v0] r IH]; intros d; simpl.
  - tauto.
  - rewrite IH, keys_set_In. simpl. intuition congruence.
Qed.

Lemma keys_set_NoDup k v d :
  NoDup (Dict.keys d) -> NoDup (Dict.keys (Dict.set k v d)).
Proof.
  induction d as [|[k0 v0] r IH]; simpl; intros H.
  - constructor; [tauto|constructor].
  - inversion H as [|? ? Hn Hr]; subst.
    destruct (String.eqb k k0) eqn:E; simpl.
    + constructor; assumption.
    + constructor; [|now apply IH].
      change (~ In k0 (Dict.keys (Dict.set k v r))).
      rewrite keys_set_In. apply String.eqb_neq in E.
      intros [?|?]; [congruence|contradiction].
Qed.

Lemma keys_update_NoDup d other :
  NoDup (Dict.keys d) -> NoDup (Dict.keys (Dict.update d other)).
Proof.
  unfold Dict.update. revert d.
  induction other as [|[k0 v0] r IH]; intros d H; simpl; [exact H|].
  apply IH, keys_set_NoDup, H.
Qed.

Lemma get_update k d other :
  Dict.mem k other = false ->
  Dict.get k (Dict.update d other) = Dict.get k d.
Proof.
  unfold Dict.update, Dict.mem. revert d.
  induction other as [|[k0 v0] r IH]; intros d; simpl; [reflexivity|].
  destruct (String.eqb k k0) eqn:E; [discriminate|].
  intros H. rewrite (IH _ H), get_set, E. reflexivity.
Qed.

End DictFacts.

(** ** [_flatten] *)

Lemma flatten_unfold (t : string) (x : option string) (cs : list ETElement) :
  _flatten (Elem t x cs) =
  (r <- flatten_children _flatten cs [] [] ;; flatten_finish r).
Proof. reflexivity. Qed.

Lemma tag_drop_private (e : ETElement) : tag (drop_private e) = tag e.
Proof. destruct e; reflexivity. Qed.

Lemma data_drop_private (e : ETElement) : data (drop_private e) = data e.
Proof. destruct e; reflexivity. Qed.

Lemma private_leaf_drop_private (e : ETElement) :
  private_leaf (drop_private e) = private_leaf e.
Proof.
  unfold private_leaf. now rewrite tag_drop_private, data_drop_private.
Qed.

Lemma drop_private_unfold (t : string) (x : option string)
  (cs : list ETElement) :
  drop_private (Elem t x cs) =
  Elem t x (filter (fun c => negb (private_leaf c)) (map drop_private cs)).
Proof. reflexivity. Qed.

Lemma no_dot_mem (k : string) (d : flat) :
  Forall no_dot (Dict.keys d) -> Str.contains "."%char k = true ->
  Dict.mem k d = false.
Proof.
  intros Hd Hk. apply mem_false. intros Hin.
  rewrite Forall_forall in Hd. specialize (Hd _ Hin).
  unfold no_dot in Hd. congruence.
Qed.

Lemma no_dot_set (k v : string) (d : flat) :
  no_dot k -> Forall no_dot (Dict.keys d) ->
  Forall no_dot (Dict.keys (Dict.set k v d)).
Proof.
  intros Hk Hd. rewrite Forall_forall in *. intros k' Hin.
  apply keys_set_In in Hin. destruct Hin as [->|Hin]; auto.
Qed.

Lemma no_dot_update (d other : flat) :
  Forall no_dot (Dict.keys d) -> Forall no_dot (Dict.keys other) ->
  Forall no_dot (Dict.keys (Dict.update d other)).
Proof.
  intros Hd Ho. rewrite Forall_forall in *. intros k Hin.
  apply keys_update_In in Hin. destruct Hin; auto.
Qed.

Lemma flatten_children_drop_private (cs : list ETElement) :
  Forall (fun c => _flatten (drop_private c) = _flatten c) cs ->
  forall aggs leaves,
    Forall no_dot (Dict.keys leaves) ->
    flatten_children _flatten
      (filter (fun c => negb (private_leaf c)) (map drop_private cs))
      aggs leaves =
    flatten_children _flatten cs aggs leaves.
Proof.
  induction 1 as [|c r Hc Hr IH]; intros aggs leaves Hl; [reflexivity|].
  cbn [map filter]. rewrite private_leaf_drop_private.
  cbn [flatten_children].
  destruct (private_leaf c) eqn:Hp; cbn [negb].
  - unfold private_leaf in Hp. apply andb_true_iff in Hp as [Hd Ht].
    rewrite Hd, Ht, (no_dot_mem _ _ Hl Ht). cbn. now apply IH.
  - cbn [flatten_children].
    rewrite tag_drop_private, data_drop_private.
    unfold private_leaf in Hp.
    destruct (Str.nonempty (data c)) eqn:Hd.
    + cbn [andb] in Hp. rewrite Hp.
      destruct (Dict.mem (tag c) leaves); cbn; [reflexivity|].
      apply IH, no_dot_set; [|exact Hl].
      unfold no_dot. now rewrite contains_dot_lower.
    + rewrite Hc.
      destruct (Dict.mem (tag c) aggs); cbn; [reflexivity|].
      destruct (_flatten c); cbn; [|reflexivity].
      now apply IH.
Qed.

Lemma flatten_drop_private (e : ETElement) :
  _flatten (drop_private e) = _flatten e.
Proof.
  induction e as [t x cs IH] using ETElement_rect'.
  rewrite drop_private_unfold, !flatten_unfold.
  rewrite flatten_children_drop_private; [reflexivity|exact IH|constructor].
Qed.

Lemma flatten_children_no_dot (rec : ETElement -> Result flat)
  (cs : list ETElement) :
  Forall (fun c => forall m, rec c = Ok m -> Forall no_dot (Dict.keys m)) cs ->
  forall aggs leaves aggs' leaves',
    Forall no_dot (Dict.keys aggs) -> Forall no_dot (Dict.keys leaves) ->
    flatten_children rec cs aggs leaves = Ok (aggs', leaves') ->
    Forall no_dot (Dict.keys aggs') /\ Forall no_dot (Dict.keys leaves').
Proof.
  induction 1 as [|c r Hc Hr IH]; intros aggs leaves aggs' leaves' Ha Hl.
  - cbn. intros [= <- <-]. now split.
  - cbn [flatten_children].
    destruct (Str.nonempty (data c)).
    + destruct (Dict.mem (tag c) leaves); cbn; [discriminate|].
      destruct (Str.contains "."%char (tag c)) eqn:Ht; cbn [negb].
      * now apply IH.
      * apply IH; [exact Ha|]. apply no_dot_set; [|exact Hl].
        unfold no_dot. now rewrite contains_dot_lower.
    + destruct (Dict.mem (tag c) aggs); cbn; [discriminate|].
      destruct (rec c) as [sub|] eqn:Hs; cbn; [|discriminate].
      apply IH; [|exact Hl]. apply no_dot_update; [exact Ha|].
      now apply Hc.
Qed.

Lemma flatten_finish_Ok (aggs leaves m : flat) :
  flatten_finish (aggs, leaves) = Ok m -> m = Dict.update leaves aggs.
Proof.
  unfold flatten_finish.
  destruct (check_collisions (Dict.keys aggs) leaves); cbn; congruence.
Qed.

Lemma flatten_no_dot (e : ETElement) :
  forall m, _flatten e = Ok m -> Forall no_dot (Dict.keys m).
Proof.
  induction e as [t x cs IH] using ETElement_rect'. intros m.
  rewrite flatten_unfold.
  destruct (flatten_children _flatten cs [] []) as [[aggs leaves]|] eqn:E;
    cbn [bind]; [|discriminate].
  intros Hm. apply flatten_finish_Ok in Hm. subst m.
  destruct (flatten_children_no_dot _ _ IH [] [] _ _ (Forall_nil _) (Forall_nil _) E).
  now apply no_dot_update.
Qed.

(** C1: where the collision checks of [_flatten] fall short of its
    docstring.  Two sibling aggregates that both hold BALAMT and DTASOF
    (the docstring's own example) flatten without an exception, the later
    one overwriting the earlier; so do two sibling leaves with one
    upper-case tag.  Only a leaf against a sibling aggregate is caught. *)
Theorem flatten_collisions_overwrite :
  _flatten
    (agg "STMTRS"
       [agg "LEDGERBAL" [leaf "BALAMT" "100.00"; leaf "DTASOF" "20230101"];
        agg "AVAILBAL" [leaf "BALAMT" "75.00"; leaf "DTASOF" "20230102"]])
  = Ok [("balamt", "75.00"); ("dtasof", "20230102")]
  /\
  _flatten (agg "LEDGERBAL" [leaf "BALAMT" "100.00"; leaf "BALAMT" "75.00"])
  = Ok [("balamt", "75.00")]
  /\
  _flatten
    (agg "STMTRS"
       [leaf "BALAMT" "100.00"; agg "AVAILBAL" [leaf "BALAMT" "75.00"]])
  = Raise AssertionError.
Proof. repeat split; reflexivity. Qed.

Lemma keys_app {V : Type} (d d' : Dict.t V) :
  Dict.keys (d ++ d') = Dict.keys d ++ Dict.keys d'.
Proof. apply map_app. Qed.

Lemma flatten_children_leaves (rec : ETElement -> Result flat)
  (cs : list ETElement) :
  Forall flat_leaf cs ->
  forall leaves,
    NoDup (Dict.keys leaves ++ map (fun c => Str.lower (tag c)) cs) ->
    Forall (fun k => Str.lower k = k) (Dict.keys leaves) ->
    flatten_children rec cs [] leaves = Ok ([], leaves ++ map leaf_entry cs).
Proof.
  induction 1 as [|c r [Hd Ht] Hr IH]; intros leaves Hnd Hlow.
  - cbn. now rewrite app_nil_r.
  - cbn [flatten_children map]. rewrite Hd.
    assert (Hfresh : ~ In (Str.lower (tag c)) (Dict.keys leaves)).
    { intros Hin. apply NoDup_remove_2 in Hnd. apply Hnd.
      apply in_or_app. now left. }
    assert (Hmem : Dict.mem (tag c) leaves = false).
    { apply mem_false. intros Hin. apply Hfresh.
      rewrite Forall_forall in Hlow. now rewrite (Hlow _ Hin). }
    rewrite Hmem. cbn [negb assert bind]. unfold no_dot in Ht. rewrite Ht.
    cbn [negb]. rewrite set_fresh by now apply mem_false.
    rewrite IH.
    + now rewrite <- app_assoc.
    + rewrite keys_app, <- app_assoc. exact Hnd.
    + rewrite keys_app. apply Forall_app. split; [exact Hlow|].
      constructor; [apply lower_idem|constructor].
Qed.

Lemma tag_leaf (k v : string) : tag (leaf k v) = k.
Proof. reflexivity. Qed.

Lemma data_leaf (k v : string) : data (leaf k v) = Str.strip v.
Proof. reflexivity. Qed.

Lemma strip_data (c : ETElement) : Str.strip (data c) = data c.
Proof. unfold data. apply strip_idem. Qed.

Lemma flatten_leaves (t : string) (x : option string) (cs : list ETElement) :
  Forall flat_leaf cs ->
  NoDup (map (fun c => Str.lower (tag c)) cs) ->
  _flatten (Elem t x cs) = Ok (map leaf_entry cs).
Proof.
  intros Hl Hnd. rewrite flatten_unfold.
  rewrite (flatten_children_leaves _ cs Hl []); [reflexivity|exact Hnd|].
  constructor.
Qed.

(** C9: a depth-1 tree of data-bearing leaves whose tags hold no dot and
    stay distinct once lower-cased flattens to one entry per leaf, in
    order: the lower-cased tag with the stripped text.  Flattening the tree
    that spells out this mapping gives the mapping back. *)
Theorem flatten_flat_tree (t : string) (x : option string)
  (cs : list ETElement)
  (Hleaves : Forall flat_leaf cs)
  (Hdistinct : NoDup (map (fun c => Str.lower (tag c)) cs)) :
  _flatten (Elem t x cs) = Ok (map leaf_entry cs) /\
  _flatten (tree_of_flat t (map leaf_entry cs)) = Ok (map leaf_entry cs).
Proof.
  split; [now apply flatten_leaves|].
  unfold tree_of_flat.
  assert (Hsame :
    map leaf_entry (map (fun kv => leaf (fst kv) (snd kv)) (map leaf_entry cs))
    = map leaf_entry cs).
  { rewrite !map_map. apply map_ext. intros c.
    unfold leaf_entry. cbn [fst snd]. rewrite tag_leaf, data_leaf.
    now rewrite lower_idem, strip_data. }
  rewrite <- Hsame at 2. apply flatten_leaves.
  - rewrite Forall_forall in *. intros c Hc.
    apply in_map_iff in Hc as [kv [<- Hkv]].
    apply in_map_iff in Hkv as [c0 [<- Hc0]].
    destruct (Hleaves _ Hc0) as [Hd Ht].
    unfold flat_leaf, leaf_entry. cbn [fst snd].
    rewrite tag_leaf, data_leaf, strip_data. split; [exact Hd|].
    unfold no_dot. now rewrite contains_dot_lower.
  - rewrite !map_map.
    erewrite map_ext; [exact Hdistinct|].
    intros c. unfold leaf_entry. cbn [fst snd]. rewrite tag_leaf.
    apply lower_idem.
Qed.

Lemma flatten_flat_tree_witness :
  _flatten (agg "LEDGERBAL"
              [leaf "BALAMT" " 1234.56 "; leaf "DTASOF" "20230101120000"])
  = Ok [("balamt", "1234.56"); ("dtasof", "20230101120000")] /\
  _flatten (tree_of_flat "LEDGERBAL"
              [("balamt", "1234.56"); ("dtasof", "20230101120000")])
  = Ok [("balamt", "1234.56"); ("dtasof", "20230101120000")].
Proof.
  apply (flatten_flat_tree "LEDGERBAL" None
           [leaf "BALAMT" " 1234.56 "; leaf "DTASOF" "20230101120000"]).
  - repeat constructor.
  - repeat constructor; cbn; intuition discriminate.
Defined.

(** C9, as first stated, fails: two leaves with distinct tags that differ
    in case only leave a single entry, keyed by neither tag. *)
Lemma flatten_distinct_tags_merge :
  let cs := [leaf "Name" "a"; leaf "NAME" "b"] in
  NoDup (map tag cs) /\
  Forall flat_leaf cs /\
  _flatten (agg "PAYEE" cs) = Ok [("name", "b")] /\
  _flatten (agg "PAYEE" cs) <> Ok (map (fun c => (tag c, data c)) cs).
Proof.
  cbn. repeat split.
  - repeat constructor; cbn; intuition discriminate.
  - repeat constructor.
  - discriminate.
Qed.

(** ** [elements] *)

Lemma get_update_hit {V : Type} (k : string) (v : V) (d other : Dict.t V) :
  NoDup (Dict.keys other) ->
  Dict.get k other = Some v ->
  Dict.get k (Dict.update d other) = Some v.
Proof.
  revert d. induction other as [|[k0 v0] r IH]; intros d Hnd; [discriminate|].
  cbn [Dict.get]. inversion Hnd as [|? ? Hn Hr]; subst.
  change (Dict.update d ((k0, v0) :: r))
    with (Dict.update (Dict.set k0 v0 d) r).
  destruct (String.eqb k k0) eqn:E.
  - intros [= ->]. apply String.eqb_eq in E. subst k0.
    rewrite get_update by now apply mem_false.
    now rewrite get_set, String.eqb_refl.
  - intros H. now apply IH.
Qed.

Lemma element_items_NoDup (d : list (string * ClassAttr)) :
  NoDup (Dict.keys (element_items d)).
Proof.
  unfold element_items.
  assert (H : forall acc : Dict.t Types.Element,
    NoDup (Dict.keys acc) ->
    NoDup (Dict.keys
      (fold_left
         (fun acc kv =>
            match snd kv with
            | AttrElement e => Dict.set (fst kv) e acc
            | _ => acc
            end) d acc))).
  { induction d as [|[k a] r IH]; intros acc Hacc; [exact Hacc|].
    cbn [fold_left]. apply IH. destruct a; cbn; auto.
    now apply keys_set_NoDup. }
  apply H. constructor.
Qed.

Lemma elements_of_snoc (cl : list Class) (l : list string) (m : string) :
  elements_of cl (l ++ [m]) =
  Dict.update (elements_of cl l) (element_items (class_dict cl m)).
Proof. unfold elements_of. now rewrite fold_left_app. Qed.

(** Whatever the class table, a class later in the MRO overrides the
    descriptors of the classes before it. *)
Lemma elements_later_class_wins (cl : list Class) (l : list string)
  (m k : string) (e : Types.Element) :
  Dict.get k (element_items (class_dict cl m)) = Some e ->
  Dict.get k (elements_of cl (l ++ [m])) = Some e.
Proof.
  intros H. rewrite elements_of_snoc.
  apply get_update_hit; [apply element_items_NoDup|exact H].
Qed.

Lemma elements_of_NoDup (cl : list Class) (l : list string) :
  NoDup (Dict.keys (elements_of cl l)).
Proof.
  induction l as [|m r IH] using rev_ind.
  - constructor.
  - rewrite elements_of_snoc. now apply keys_update_NoDup.
Qed.

(** C2: [elements] walks the MRO from the concrete class to [object] and
    lets each class overwrite what is there, so where a subclass and its
    base bind one name, the mapping holds the descriptor of the base,
    while attribute lookup on the type (the descriptor [setattr] runs)
    finds the one of the subclass. *)
Theorem elements_keeps_base_descriptor :
  __mro__ override_classes "Derived"
  = ["Derived"; "Base"; "Aggregate"; "object"] /\
  elements override_classes "Derived"
  = [("memo", Types.String 255 false)] /\
  type_lookup override_classes (__mro__ override_classes "Derived") "memo"
  = Some (AttrElement (Types.String 32 true)).
Proof. repeat split; reflexivity. Qed.

Section Properties.
  Context {ext : External}.

(** In the module itself no name is bound to a descriptor by two classes
    of one MRO, so there the order of the walk does not show. *)
Lemma module_classes_bind_once :
  forallb
    (fun c => distinct (bound_elements classes (__mro__ classes (cls_name c))))
    module_classes = true.
Proof. vm_compute. reflexivity. Qed.

(** ** [__init__] *)

Lemma mem_existsb {V : Type} (k : string) (d : Dict.t V) :
  Dict.mem k d = existsb (String.eqb k) (Dict.keys d).
Proof.
  unfold Dict.mem.
  induction d as [|[k0 v0] r IH]; cbn; [reflexivity|].
  destruct (String.eqb k k0); [reflexivity|exact IH].
Qed.

Lemma filter_all {A : Type} (f : A -> bool) (l : list A) :
  (forall a, In a l -> f a = true) -> filter f l = l.
Proof.
  intros H. apply forallb_filter_id, forallb_forall, H.
Qed.

Lemma filter_twice {A : Type} (f g : A -> bool) (l : list A) :
  filter f (filter g l) = filter (fun a => g a && f a) l.
Proof.
  induction l as [|a r IH]; cbn; [reflexivity|].
  destruct (g a); cbn; [|exact IH].
  destruct (f a); now rewrite IH.
Qed.

Lemma keys_remove {V : Type} (k : string) (d : Dict.t V) :
  NoDup (Dict.keys d) ->
  Dict.keys (Dict.remove k d)
  = filter (fun k' => negb (String.eqb k' k)) (Dict.keys d).
Proof.
  unfold Dict.keys.
  induction d as [|[k0 v0] r IH]; cbn; [reflexivity|].
  intros Hnd. inversion Hnd as [|? ? Hn Hr]; subst.
  destruct (String.eqb k k0) eqn:E.
  - apply String.eqb_eq in E. subst k0. rewrite String.eqb_refl. cbn.
    symmetry. apply filter_all. intros k' Hin.
    destruct (String.eqb k' k) eqn:E'; [|reflexivity].
    apply String.eqb_eq in E'. now subst.
  - rewrite String.eqb_sym, E. cbn. now rewrite IH.
Qed.

Lemma keys_remove_all {V : Type} (names : list string) (d : Dict.t V) :
  NoDup (Dict.keys d) ->
  Dict.keys (fold_left (fun d n => Dict.remove n d) names d)
  = filter (fun k => negb (existsb (String.eqb k) names)) (Dict.keys d).
Proof.
  revert d. induction names as [|n r IH]; intros d Hnd; cbn [fold_left].
  - symmetry. now apply filter_all.
  - rewrite IH.
    + rewrite keys_remove by exact Hnd. rewrite filter_twice.
      apply filter_ext. intros k. cbn [existsb].
      destruct (String.eqb k n); reflexivity.
    + rewrite keys_remove by exact Hnd. now apply NoDup_filter.
Qed.

Lemma setattr_Ok (self self' : Instance) (name : string) (v : PyObj Value) :
  setattr self name v = Ok self' ->
  fst self' = fst self /\
  exists v', snd self' = Dict.set name v' (snd self).
Proof.
  destruct self as [cls d]. unfold setattr.
  destruct (type_lookup classes (__mro__ classes cls) name) as [[e| |]|].
  - destruct (convert e v) as [v'|]; cbn; [|discriminate].
    intros [= <-]. cbn. eauto.
  - intros [= <-]. cbn. eauto.
  - intros [= <-]. cbn. eauto.
  - intros [= <-]. cbn. eauto.
Qed.

Lemma cant_create_Ok {A : Type} (cls name : string) (m : Result A) (a : A) :
  cant_create cls name m = Ok a -> m = Ok a.
Proof. destruct m as [|[]]; cbn; congruence. Qed.

Lemma init_elements_Ok (names : list string) :
  forall (kwargs rest : Dict.t string) (self self' : Instance),
    NoDup (Dict.keys (snd self) ++ names) ->
    init_elements names kwargs self = Ok (rest, self') ->
    fst self' = fst self /\
    Dict.keys (snd self') = Dict.keys (snd self) ++ names /\
    rest = fold_left (fun d n => Dict.remove n d) names kwargs.
Proof.
  induction names as [|n r IH]; intros kwargs rest self self' Hnd.
  - cbn. intros [= <- <-]. now rewrite app_nil_r.
  - cbn [init_elements Dict.pop].
    destruct (cant_create (fst self) n
                (setattr self n (of_text (Dict.get n kwargs))))
      as [self1|] eqn:E; cbn [bind]; [|discriminate].
    apply cant_create_Ok, setattr_Ok in E as [Hcls [v' Hd]].
    assert (Hk : Dict.keys (snd self1) = Dict.keys (snd self) ++ [n]).
    { rewrite Hd, set_fresh; [apply keys_app|].
      apply mem_false. intros Hin. apply NoDup_remove_2 in Hnd.
      apply Hnd, in_or_app. now left. }
    intros H. apply IH in H.
    + destruct H as [H1 [H2 H3]]. rewrite H1, H2, Hk, <- app_assoc.
      now repeat split.
    + now rewrite Hk, <- app_assoc.
Qed.

(** What the constructor does: the first field that does not convert
    decides; when all convert, the keys left over decide. *)
Lemma init_spec (cls : string) (kwargs : Dict.t string) :
  NoDup (Dict.keys kwargs) ->
  init_body cls kwargs =
  match init_elements (Dict.keys (elements classes cls)) kwargs (cls, []) with
  | Raise e => Raise e
  | Ok (_, self) =>
      match unclaimed cls kwargs with
      | [] => Ok self
      | ks => Raise (ValueError (MsgUndefined cls ks))
      end
  end.
Proof.
  intros Hnd. unfold init_body.
  destruct (init_elements (Dict.keys (elements classes cls)) kwargs (cls, []))
    as [[rest self]|] eqn:E; cbn [bind]; [|reflexivity].
  apply init_elements_Ok in E; [|apply elements_of_NoDup].
  destruct E as [_ [_ Hrest]].
  assert (Hk : Dict.keys rest = unclaimed cls kwargs).
  { rewrite Hrest, keys_remove_all by exact Hnd.
    apply filter_ext. intros k. now rewrite mem_existsb. }
  rewrite <- Hk. destruct rest as [|[k v] rest]; reflexivity.
Qed.

(** A call that returns had no key [self] to bind, and its body ran. *)
Lemma init_call_Ok (cls : string) (kwargs : Dict.t string) (self : Instance) :
  __init__ cls kwargs = Ok self ->
  Dict.mem "self" kwargs = false /\ init_body cls kwargs = Ok self.
Proof.
  unfold __init__. destruct (Dict.mem "self" kwargs); [discriminate|].
  now split.
Qed.

Lemma init_Ok (cls : string) (kwargs : Dict.t string) (self : Instance) :
  NoDup (Dict.keys kwargs) ->
  __init__ cls kwargs = Ok self ->
  unclaimed cls kwargs = [] /\
  fst self = cls /\
  Dict.keys (snd self) = Dict.keys (elements classes cls).
Proof.
  intros Hdict Hi. apply init_call_Ok in Hi as [_ Hi]. revert Hi.
  rewrite (init_spec cls kwargs Hdict).
  destruct (init_elements (Dict.keys (elements classes cls)) kwargs (cls, []))
    as [[rest self0]|] eqn:E; [|discriminate].
  apply init_elements_Ok in E; [|apply elements_of_NoDup].
  destruct E as [Hc [Hk _]].
  destruct (unclaimed cls kwargs); [|discriminate].
  intros [= <-]. now repeat split.
Qed.

Lemma setattr_eq (self : Instance) (name : string) (v : PyObj Value) :
  setattr self name v =
  (v' <- setattr_value (fst self) name v ;;
   Ok (fst self, Dict.set name v' (snd self))).
Proof.
  destruct self as [cls d]. unfold setattr, setattr_value. cbn [fst snd].
  destruct (type_lookup classes (__mro__ classes cls) name) as [[e| |]|];
    reflexivity.
Qed.

Lemma get_remove {V : Type} (k n : string) (d : Dict.t V) :
  k <> n -> Dict.get k (Dict.remove n d) = Dict.get k d.
Proof.
  intros Hk. induction d as [|[k0 v0] r IH]; [reflexivity|]. cbn.
  destruct (String.eqb n k0) eqn:E.
  - apply String.eqb_eq in E. subst k0.
    now apply String.eqb_neq in Hk as ->.
  - cbn. now rewrite IH.
Qed.

Lemma init_elements_first_error (cls n : string) (e : Exception)
  (post : list string) :
  forall (pre : list string) (kw : Dict.t string) (self : Instance),
    NoDup (pre ++ n :: post) ->
    fst self = cls ->
    (forall k, In k pre ->
       exists v, setattr_value cls k (of_text (Dict.get k kw)) = Ok v) ->
    setattr_value cls n (of_text (Dict.get n kw)) = Raise e ->
    init_elements (pre ++ n :: post) kw self = Raise (reraised cls n e).
Proof.
  induction pre as [|k r IH]; intros kw self Hnd Hc Hpre Hn.
  - cbn [app init_elements Dict.pop]. rewrite setattr_eq, Hc, Hn.
    cbn [bind]. now destruct e.
  - cbn [app init_elements Dict.pop].
    destruct (Hpre k (or_introl eq_refl)) as [v Hv].
    rewrite setattr_eq, Hc, Hv. cbn [bind cant_create].
    cbn [app] in Hnd. inversion Hnd as [|? ? Hfresh Hnd']; subst.
    apply IH; [exact Hnd'|reflexivity| |].
    + intros k' Hin. rewrite get_remove.
      * apply Hpre. now right.
      * intros ->. apply Hfresh, in_or_app. now left.
    + rewrite get_remove; [exact Hn|].
      intros ->. apply Hfresh, in_or_app. right. now left.
Qed.

Lemma init_elements_succeeds (cls : string) (names : list string) :
  forall (kw : Dict.t string) (self : Instance),
    NoDup names -> fst self = cls ->
    (forall k, In k names ->
       exists v, setattr_value cls k (of_text (Dict.get k kw)) = Ok v) ->
    exists rest self', init_elements names kw self = Ok (rest, self').
Proof.
  induction names as [|k r IH]; intros kw self Hnd Hc Hall.
  - cbn. eauto.
  - cbn [init_elements Dict.pop].
    destruct (Hall k (or_introl eq_refl)) as [v Hv].
    rewrite setattr_eq, Hc, Hv. cbn [bind cant_create].
    inversion Hnd as [|? ? Hfresh Hr]; subst.
    apply IH; [exact Hr|reflexivity|].
    intros k' Hin. rewrite get_remove.
    + apply Hall. now right.
    + intros ->. contradiction.
Qed.

(** C6: a flat mapping with a key that no field of the class claims never
    makes an instance.  With a key [self] the call itself raises
    [TypeError].  Without one the fields are set first, in the order of
    [elements]: when the fields before a field convert and setting that
    field raises, its exception leaves the constructor, a [ValueError]
    raised again as the error that the field of the class cannot be
    created, any other exception as it is; when every field converts, the
    exception is the [ValueError] that names the class and lists the
    unclaimed keys, all of them, in the order of the mapping.  An instance
    that is made has exactly the fields of [elements], in their order. *)
Theorem init_rejects_unclaimed (cls : string) (kwargs : Dict.t string)
  (Hdict : NoDup (Dict.keys kwargs)) :
  (unclaimed cls kwargs <> [] -> raises (__init__ cls kwargs)) /\
  (Dict.mem "self" kwargs = true ->
   __init__ cls kwargs = Raise (OtherError "TypeError")) /\
  (Dict.mem "self" kwargs = false ->
   forall (pre post : list string) (n : string) (e : Exception),
     Dict.keys (elements classes cls) = pre ++ n :: post ->
     (forall k, In k pre ->
        exists v, setattr_value cls k (of_text (Dict.get k kwargs)) = Ok v) ->
     setattr_value cls n (of_text (Dict.get n kwargs)) = Raise e ->
     __init__ cls kwargs = Raise (reraised cls n e)) /\
  (Dict.mem "self" kwargs = false ->
   unclaimed cls kwargs <> [] ->
   (forall k, In k (Dict.keys (elements classes cls)) ->
      exists v, setattr_value cls k (of_text (Dict.get k kwargs)) = Ok v) ->
   __init__ cls kwargs
   = Raise (ValueError (MsgUndefined cls (unclaimed cls kwargs)))) /\
  (forall self,
     __init__ cls kwargs = Ok self ->
     unclaimed cls kwargs = [] /\
     fst self = cls /\
     Dict.keys (snd self) = Dict.keys (elements classes cls)).
Proof.
  pose proof (elements_of_NoDup classes (__mro__ classes cls)) as Hnames.
  fold (elements classes cls) in Hnames.
  split; [|split; [|split; [|split]]].
  - intros Hex. unfold __init__.
    destruct (Dict.mem "self" kwargs); [eexists; reflexivity|].
    rewrite (init_spec cls kwargs Hdict).
    destruct (init_elements (Dict.keys (elements classes cls)) kwargs (cls, []))
      as [[rest self]|] eqn:E; [|eexists; reflexivity].
    destruct (unclaimed cls kwargs) as [|k ks]; [contradiction|].
    eexists; reflexivity.
  - intros Hs. unfold __init__. now rewrite Hs.
  - intros Hs pre post n e Hk Hpre Hn. unfold __init__, init_body.
    rewrite Hs, Hk. rewrite Hk in Hnames.
    now rewrite (init_elements_first_error cls n e post pre kwargs (cls, [])).
  - intros Hs Hex Hall. unfold __init__. rewrite Hs.
    rewrite (init_spec cls kwargs Hdict).
    destruct (init_elements_succeeds cls (Dict.keys (elements classes cls))
                kwargs (cls, [])) as (rest & self & ->);
      [exact Hnames|reflexivity|exact Hall|].
    destruct (unclaimed cls kwargs) as [|k ks]; [contradiction|reflexivity].
  - intros self. now apply init_Ok.
Qed.

(** ** [_groom] *)

Lemma find_retag_other (t old new : string) (cs : list ETElement) :
  t <> old -> t <> new ->
  List.find (fun c => String.eqb (tag c) t) (retag_first old new cs)
  = List.find (fun c => String.eqb (tag c) t) cs.
Proof.
  intros Ho Hn. induction cs as [|c r IH]; [reflexivity|].
  cbn [retag_first]. destruct (String.eqb (tag c) old) eqn:E.
  - apply String.eqb_eq in E. cbn [List.find tag].
    replace (String.eqb new t) with false
      by (symmetry; apply String.eqb_neq; congruence).
    replace (String.eqb (tag c) t) with false
      by (symmetry; apply String.eqb_neq; congruence).
    reflexivity.
  - cbn [List.find]. now rewrite IH.
Qed.

Lemma tag_rename_yield (elem : ETElement) : tag (rename_yield elem) = tag elem.
Proof. unfold rename_yield. now destruct (find "YIELD" elem). Qed.

Lemma text_rename_yield (elem : ETElement) :
  text (rename_yield elem) = text elem.
Proof. unfold rename_yield. now destruct (find "YIELD" elem). Qed.

Lemma retag_first_absent (old new : string) (cs : list ETElement) :
  List.find (fun c => String.eqb (tag c) old) cs = None ->
  retag_first old new cs = cs.
Proof.
  induction cs as [|c r IH]; [reflexivity|]. cbn.
  destruct (String.eqb (tag c) old); [discriminate|].
  intros H. now rewrite IH.
Qed.

(** The renaming happens whether or not a child tagged YIELD is found. *)
Lemma children_rename_yield (elem : ETElement) :
  children (rename_yield elem) = retag_first "YIELD" "YLD" (children elem).
Proof.
  unfold rename_yield. destruct (find "YIELD" elem) eqn:E; [reflexivity|].
  symmetry. now apply retag_first_absent.
Qed.

Lemma find_rename_yield (t : string) (elem : ETElement) :
  t <> "YIELD" -> t <> "YLD" -> find t (rename_yield elem) = find t elem.
Proof.
  intros H1 H2. unfold find. rewrite children_rename_yield.
  now apply find_retag_other.
Qed.

Lemma dual_relationships_tags (first second : string) :
  In (first, second) dual_relationships ->
  (first <> "YIELD" /\ first <> "YLD") /\
  (second <> "YIELD" /\ second <> "YLD").
Proof.
  cbn. intros [H|[H|[H|[]]]]; inversion H; repeat split; discriminate.
Qed.

Lemma from_etree_unfold (elem : ETElement) :
  from_etree elem
  = from_etree_body (from_etree_depth (pred (height elem))) elem.
Proof. destruct elem. reflexivity. Qed.

Lemma from_etree_body_groom_raises (rec : ETElement -> Result Instance)
  (elem : ETElement) (e : Exception) :
  snd (_groom elem) = Raise e -> from_etree_body rec elem = Raise e.
Proof.
  unfold from_etree_body. destruct (_groom elem) as [elem' r]. cbn.
  now intros ->.
Qed.

(** What the check of the pairs returns: it raises for the first pair of
    its list that the node holds, and returns when the node holds none. *)
Lemma check_exclusive_first (elem : ETElement)
  (pairs : list (string * string)) :
  check_exclusive elem pairs =
  match List.find (holds_pair elem) pairs with
  | Some (first, second) =>
      Raise (ValueError (MsgExclusive (tag elem) first second))
  | None => Ok tt
  end.
Proof.
  induction pairs as [|[a b] r IH]; [reflexivity|].
  cbn [check_exclusive List.find]. unfold holds_pair at 1. cbn [fst snd].
  destruct (find a elem), (find b elem); try exact IH. reflexivity.
Qed.

Lemma holds_pair_rename_yield (elem : ETElement) :
  List.find (holds_pair (rename_yield elem)) dual_relationships
  = List.find (holds_pair elem) dual_relationships.
Proof.
  unfold dual_relationships, holds_pair. cbn [List.find fst snd].
  now rewrite !find_rename_yield by discriminate.
Qed.

(** C3: a node with both members of one of the three listed pairs among
    its direct children is rejected by [_groom], the first step of
    [from_etree], so that no class is looked up, no hook runs and nothing
    is flattened ([rec], the registry and the other children play no
    part).  The exception names the tag of the node and the pair it holds
    that comes first in the order CCACCTTO and BANKACCTTO, NAME and PAYEE,
    CURRENCY and ORIGCURRENCY, whichever pair made the node a rejected
    one.  The list is one list for every node: the tag of the node is not
    consulted. *)
Theorem exclusive_pair_rejected (rec : ETElement -> Result Instance)
  (elem : ETElement) (first second : string)
  (Hpair : In (first, second) dual_relationships)
  (Hfirst : find first elem <> None)
  (Hsecond : find second elem <> None) :
  exists first' second',
    List.find (holds_pair elem)
      [("CCACCTTO", "BANKACCTTO"); ("NAME", "PAYEE");
       ("CURRENCY", "ORIGCURRENCY")]
    = Some (first', second') /\
    In (first', second') dual_relationships /\
    find first' elem <> None /\ find second' elem <> None /\
    from_etree_body rec elem
    = Raise (ValueError (MsgExclusive (tag elem) first' second')) /\
    from_etree elem
    = Raise (ValueError (MsgExclusive (tag elem) first' second')).
Proof.
  assert (Hex : exists p,
    List.find (holds_pair elem) dual_relationships = Some p).
  { destruct (List.find (holds_pair elem) dual_relationships) as [p|] eqn:E;
      [now exists p|]. exfalso.
    pose proof (find_none _ _ E _ Hpair) as Hh.
    unfold holds_pair in Hh. cbn [fst snd] in Hh.
    destruct (find first elem); [|now apply Hfirst].
    destruct (find second elem); [discriminate Hh|now apply Hsecond]. }
  destruct Hex as [[a b] E]. exists a, b. split; [exact E|].
  destruct (find_some _ _ E) as [Hin Hh]. split; [exact Hin|].
  unfold holds_pair in Hh. cbn [fst snd] in Hh.
  destruct (find a elem) eqn:Ea; [|discriminate Hh].
  destruct (find b elem) eqn:Eb; [|discriminate Hh].
  split; [discriminate|]. split; [discriminate|].
  assert (Hg : snd (_groom elem)
               = Raise (ValueError (MsgExclusive (tag elem) a b))).
  { cbn [_groom snd].
    now rewrite check_exclusive_first, holds_pair_rename_yield, E,
      tag_rename_yield. }
  split; [now apply from_etree_body_groom_raises|].
  rewrite from_etree_unfold. now apply from_etree_body_groom_raises.
Qed.

(** ** [_preflatten] *)

Lemma In_remove_first (t : string) (x : ETElement) (cs : list ETElement) :
  In x (remove_first t cs) -> In x cs.
Proof.
  induction cs as [|c r IH]; cbn; [tauto|].
  destruct (String.eqb (tag c) t); cbn; tauto.
Qed.

Lemma In_remove_all (ts : list string) (x : ETElement) :
  forall cs, In x (remove_all ts cs) -> In x cs.
Proof.
  unfold remove_all. induction ts as [|t r IH]; intros cs; cbn; [tauto|].
  intros H. apply IH in H. now apply In_remove_first in H.
Qed.

Lemma trimmed_refl (e : ETElement) : trimmed e e.
Proof.
  repeat split. exists []. split; [apply incl_nil_l|reflexivity].
Qed.

Lemma trimmed_remove (t : string) (e e1 : ETElement) :
  In t hook_tags -> trimmed e e1 -> trimmed e (remove t e1).
Proof.
  intros Ht (H1 & H2 & ts & Hts & Hcs). destruct e1 as [g x cs].
  cbn in *. repeat split; try assumption.
  exists (ts ++ [t]). split.
  - apply incl_app; [exact Hts|]. intros ? [<-|[]]. exact Ht.
  - unfold remove_all in *. rewrite fold_left_app. cbn. now rewrite Hcs.
Qed.

Lemma In_set {V : Type} (k k' : string) (v v' : V) (d : Dict.t V) :
  In (k', v') (Dict.set k v d) -> (k', v') = (k, v) \/ In (k', v') d.
Proof.
  induction d as [|[k0 v0] r IH]; cbn.
  - intros [H|[]]. left. congruence.
  - destruct (String.eqb k k0) eqn:E; cbn.
    + apply String.eqb_eq in E. subst k0.
      intros [H|H]; [left; congruence|right; now right].
    + intros [H|H]; [right; now left|].
      apply IH in H. destruct H; [now left|right; now right].
Qed.

Lemma find_child (t : string) (e x : ETElement) :
  find t e = Some x -> In x (children e) /\ tag x = t.
Proof.
  intros E. apply find_some in E as [Hin Heq].
  apply String.eqb_eq in Heq. now split.
Qed.

Lemma trimmed_child (e e1 x : ETElement) :
  trimmed e e1 -> In x (children e1) -> In x (children e).
Proof.
  intros (_ & _ & ts & _ & Hcs) Hin. rewrite Hcs in Hin.
  now apply In_remove_all in Hin.
Qed.

Lemma strip_subagg_spec (t : string) (e e1 e2 : ETElement)
  (found : option ETElement) (subaggs subaggs' : Dict.t Subagg) :
  In t hook_tags -> trimmed e e1 -> subaggs_of e subaggs ->
  (forall x, found = Some x -> In x (children e) /\ tag x = t) ->
  strip_subagg t found subaggs e1 = (subaggs', e2) ->
  trimmed e e2 /\ subaggs_of e subaggs'.
Proof.
  intros Ht Htr Hs Hf. unfold strip_subagg.
  destruct found as [x|].
  - intros [= <- <-]. split; [now apply trimmed_remove|].
    intros t' s' Hin. apply In_set in Hin as [[= -> ->]|Hin]; [|now apply Hs].
    split; [exact Ht|]. exists x. destruct (Hf x eq_refl). now repeat split.
  - intros [= <- <-]. now split.
Qed.

Lemma strip_subaggs_spec (tags : list string) (e : ETElement) :
  incl tags hook_tags ->
  forall (e1 e2 : ETElement) (subaggs subaggs' : Dict.t Subagg),
    trimmed e e1 -> subaggs_of e subaggs ->
    strip_subaggs tags subaggs e1 = (subaggs', e2) ->
    trimmed e e2 /\ subaggs_of e subaggs'.
Proof.
  induction tags as [|t r IH]; intros Hincl e1 e2 subaggs subaggs' Htr Hs.
  - cbn. intros [= <- <-]. now split.
  - cbn [strip_subaggs].
    destruct (strip_subagg t (find t e1) subaggs e1) as [subaggs1 e1'] eqn:E.
    apply strip_subagg_spec with (e := e) in E;
      [|apply Hincl; now left|exact Htr|exact Hs|].
    + destruct E as [Htr' Hs'].
      apply IH; [|exact Htr'|exact Hs'].
      intros ? ?. apply Hincl. now right.
    + intros x Hx. apply find_child in Hx as [Hin Hx].
      split; [|exact Hx]. now apply trimmed_child with (e1 := e1).
Qed.

Lemma subaggs_of_nil (e : ETElement) : subaggs_of e [].
Proof. intros ? ? []. Qed.

Lemma ORIGCURRENCY_preflatten_spec (e e' : ETElement)
  (attrs : Dict.t (PyObj Value)) (subaggs : Dict.t Subagg) :
  ORIGCURRENCY__preflatten e = Ok (attrs, subaggs, e') ->
  e' = e /\ subaggs = [] /\ only_curtype attrs.
Proof.
  unfold ORIGCURRENCY__preflatten, Aggregate__preflatten. cbn [bind].
  destruct (or_else _ _).
  - cbn. intros [= <- <- <-]. repeat split. intros k [<-|[]]. reflexivity.
  - intros [= <- <- <-]. repeat split. intros k [].
Qed.

(** What every hook guarantees: the tree loses only children with the
    tags above, the sub-aggregates are children of the tree, and the only
    attribute a hook computes is [curtype]. *)
Lemma run_hook_spec (h : Hook) (e e' : ETElement)
  (attrs : Dict.t (PyObj Value)) (subaggs : Dict.t Subagg) :
  run_hook h e = Ok (attrs, subaggs, e') ->
  trimmed e e' /\ subaggs_of e subaggs /\ only_curtype attrs.
Proof.
  destruct h; cbn [run_hook].
  - intros [= <- <- <-].
    split; [apply trimmed_refl|split; [apply subaggs_of_nil|intros k []]].
  - intros H. apply ORIGCURRENCY_preflatten_spec in H as (-> & -> & Ha).
    split; [apply trimmed_refl|split; [apply subaggs_of_nil|exact Ha]].
  - unfold MFINFO__preflatten, Aggregate__preflatten. cbn [bind].
    destruct (strip_subagg "MFASSETCLASS" (find "MFASSETCLASS" e) [] e)
      as [subaggs1 e1] eqn:E1.
    apply strip_subagg_spec with (e := e) in E1;
      [|cbn; tauto|apply trimmed_refl|apply subaggs_of_nil|apply find_child].
    destruct E1 as [Htr1 Hs1].
    destruct (strip_subagg "FIMFASSETCLASS" (find "FIMFASSETCLASS" e)
                subaggs1 e1) as [subaggs2 e2] eqn:E2.
    apply strip_subagg_spec with (e := e) in E2;
      [|cbn; tauto|exact Htr1|exact Hs1|apply find_child].
    destruct E2 as [Htr2 Hs2].
    intros [= <- <- <-].
    split; [exact Htr2|split; [exact Hs2|intros k []]].
  - unfold OPTINFO__preflatten, Aggregate__preflatten. cbn [bind].
    destruct (find "SECID" e).
    + intros [= <- <- <-]. split; [|split].
      * apply trimmed_remove; [cbn; tauto|apply trimmed_refl].
      * apply subaggs_of_nil.
      * intros k [].
    + intros [= <- <- <-]. split; [|split].
      * apply trimmed_refl.
      * apply subaggs_of_nil.
      * intros k [].
  - unfold STMTTRN__preflatten.
    destruct (ORIGCURRENCY__preflatten e) as [[[attrs0 subaggs0] e0]|] eqn:E0;
      cbn [bind]; [|discriminate].
    apply ORIGCURRENCY_preflatten_spec in E0 as (-> & -> & Ha).
    destruct (strip_subaggs ["CCACCTTO"; "BANKACCTTO"; "PAYEE"] [] e)
      as [subaggs1 e1] eqn:E1.
    apply strip_subaggs_spec with (e := e) in E1;
      [|intros ? ?; cbn in *; tauto|apply trimmed_refl|apply subaggs_of_nil].
    destruct E1 as [Htr1 Hs1].
    intros [= <- <- <-]. split; [exact Htr1|split; [exact Hs1|exact Ha]].
Qed.

(** ** [from_etree]: the steps of a successful call, and the depth *)

Lemma globals_class (name : string) (g : Global) :
  globals name = Ok g ->
  g = GOther \/
  (g = GClass name /\
   existsb (fun c => String.eqb (cls_name c) name) module_classes = true).
Proof.
  unfold globals.
  destruct (existsb (fun c => String.eqb (cls_name c) name) module_classes).
  - intros [= <-]. right. now split.
  - destruct (existsb (String.eqb name) other_globals); [|discriminate].
    intros [= <-]. now left.
Qed.

Lemma from_etree_body_Ok (rec : ETElement -> Result Instance)
  (elem : ETElement) (inst : Instance) :
  from_etree_body rec elem = Ok inst ->
  exists h attrs subaggs elem' m inst0,
    existsb (fun c => String.eqb (cls_name c) (tag elem)) module_classes
    = true /\
    resolve_preflatten classes (__mro__ classes (tag elem)) = Some h /\
    run_hook h (rename_yield elem) = Ok (attrs, subaggs, elem') /\
    _flatten elem' = Ok m /\
    __init__ (tag elem) m = Ok inst0 /\
    _postflatten rec inst0 attrs subaggs = Ok inst.
Proof.
  unfold from_etree_body, _groom.
  destruct (check_exclusive (rename_yield elem) dual_relationships);
    cbn [bind]; [|discriminate].
  rewrite tag_rename_yield.
  destruct (globals (tag elem)) as [g|] eqn:Eg; cbn [bind]; [|discriminate].
  apply globals_class in Eg as [->|[-> Hc]]; [discriminate|].
  cbn [_preflatten instantiate].
  destruct (resolve_preflatten classes (__mro__ classes (tag elem)))
    as [h|] eqn:Er; [|discriminate].
  destruct (run_hook h (rename_yield elem)) as [[[attrs subaggs] elem']|] eqn:Eh;
    cbn [bind]; [|discriminate].
  destruct (_flatten elem') as [m|] eqn:Ef; cbn [bind]; [|discriminate].
  destruct (__init__ (tag elem) m) as [inst0|] eqn:Ei; cbn [bind];
    [|discriminate].
  intros H. exists h, attrs, subaggs, elem', m, inst0. now repeat split.
Qed.

Lemma attach_subaggs_ext (rec1 rec2 : ETElement -> Result Instance)
  (subaggs : Dict.t Subagg) :
  (forall t s, In (t, s) subaggs ->
     exists x, s = SubElement x /\ rec1 x = rec2 x) ->
  forall inst,
    attach_subaggs rec1 inst subaggs = attach_subaggs rec2 inst subaggs.
Proof.
  induction subaggs as [|[t s] r IH]; intros H inst; [reflexivity|].
  cbn [attach_subaggs].
  destruct (H t s (or_introl eq_refl)) as [x [-> Hx]].
  cbn [decode_subagg]. rewrite Hx.
  destruct (rec2 x) as [i|]; cbn [bind]; [|reflexivity].
  destruct (setattr inst (Str.lower t) (ObjInstance (fst i) (snd i)));
    cbn [bind]; [|reflexivity].
  apply IH. intros t' s' Hin. apply (H t' s'). now right.
Qed.

(** [from_etree] only calls itself on direct children of the tree. *)
Lemma from_etree_body_ext (rec1 rec2 : ETElement -> Result Instance)
  (elem : ETElement) :
  (forall x, In x (children (rename_yield elem)) -> rec1 x = rec2 x) ->
  from_etree_body rec1 elem = from_etree_body rec2 elem.
Proof.
  intros H. unfold from_etree_body, _groom.
  destruct (check_exclusive (rename_yield elem) dual_relationships);
    cbn [bind]; [|reflexivity].
  destruct (globals (tag (rename_yield elem))) as [[name|]|];
    cbn [bind _preflatten]; try reflexivity.
  destruct (resolve_preflatten classes (__mro__ classes name)) as [h|];
    [|reflexivity].
  destruct (run_hook h (rename_yield elem)) as [[[attrs subaggs] elem']|] eqn:Eh;
    cbn [bind]; [|reflexivity].
  destruct (_flatten elem') as [m|]; cbn [bind]; [|reflexivity].
  destruct (instantiate (GClass name) m) as [inst|]; cbn [bind];
    [|reflexivity].
  unfold _postflatten.
  destruct (set_attrs inst attrs); cbn [bind]; [|reflexivity].
  apply attach_subaggs_ext. intros t s Hin.
  apply run_hook_spec in Eh as (_ & Hs & _).
  destruct (Hs t s Hin) as (_ & x & -> & Hx & _).
  exists x. split; [reflexivity|]. now apply H.
Qed.

Lemma height_unfold (t : string) (x : option string) (cs : list ETElement) :
  height (Elem t x cs) = S (list_max (map height cs)).
Proof. reflexivity. Qed.

Lemma height_child (e x : ETElement) :
  In x (children e) -> height x < height e.
Proof.
  destruct e as [t y cs]. cbn [children]. rewrite height_unfold.
  intros Hin. apply Nat.lt_succ_r.
  assert (H : Forall (fun k => k <= list_max (map height cs))
                (map height cs)) by now apply list_max_le.
  rewrite Forall_forall in H. apply H. now apply in_map.
Qed.

Lemma heights_retag_first (old new : string) (cs : list ETElement) :
  map height (retag_first old new cs) = map height cs.
Proof.
  induction cs as [|c r IH]; [reflexivity|]. cbn [retag_first].
  destruct (String.eqb (tag c) old).
  - destruct c. reflexivity.
  - cbn [map]. now rewrite IH.
Qed.

Lemma height_rename_yield (e : ETElement) : height (rename_yield e) = height e.
Proof.
  unfold rename_yield. destruct (find "YIELD" e); [|reflexivity].
  destruct e as [t x cs]. cbn [tag text children].
  now rewrite !height_unfold, heights_retag_first.
Qed.

(** More depth than the height of the tree changes nothing:
    [from_etree] is total. *)
Lemma from_etree_depth_enough (d : nat) :
  forall e, height e <= d -> from_etree_depth d e = from_etree e.
Proof.
  induction d as [d IH] using lt_wf_ind. intros e Hd.
  rewrite from_etree_unfold.
  destruct d as [|d]; [destruct e; cbn in Hd; lia|].
  cbn [from_etree_depth]. apply from_etree_body_ext.
  intros x Hx. apply height_child in Hx. rewrite height_rename_yield in Hx.
  rewrite (IH d) by lia. rewrite (IH (pred (height e))) by lia.
  reflexivity.
Qed.

Lemma from_etree_body_from_etree (elem : ETElement) :
  from_etree elem = from_etree_body from_etree elem.
Proof.
  rewrite from_etree_unfold. apply from_etree_body_ext.
  intros x Hx. apply height_child in Hx. rewrite height_rename_yield in Hx.
  apply from_etree_depth_enough. lia.
Qed.

(** ** Method resolution in the module *)

(** The [super] calls written into the hooks are the ones the MRO gives. *)
Lemma super_preflatten_resolution :
  super_preflatten "ORIGCURRENCY" = Some Aggregate_hook /\
  super_preflatten "MFINFO" = Some Aggregate_hook /\
  super_preflatten "OPTINFO" = Some Aggregate_hook /\
  super_preflatten "STMTTRN" = Some ORIGCURRENCY_hook.
Proof. vm_compute. repeat split; reflexivity. Qed.

Lemma resolve_OPTINFO :
  resolve_preflatten classes (__mro__ classes "OPTINFO") = Some OPTINFO_hook.
Proof. vm_compute. reflexivity. Qed.

Lemma resolve_MFINFO :
  resolve_preflatten classes (__mro__ classes "MFINFO") = Some MFINFO_hook.
Proof. vm_compute. reflexivity. Qed.

(** ** [OPTINFO._preflatten] *)

Lemma rename_yield_eq (e : ETElement) :
  rename_yield e
  = Elem (tag e) (text e) (retag_first "YIELD" "YLD" (children e)).
Proof.
  rewrite <- children_rename_yield, <- (tag_rename_yield e),
    <- (text_rename_yield e).
  now destruct (rename_yield e).
Qed.

Lemma find_insert (t : string) (s : ETElement) (pre post : list ETElement) :
  tag s <> t ->
  List.find (fun c => String.eqb (tag c) t) (pre ++ s :: post)
  = List.find (fun c => String.eqb (tag c) t) (pre ++ post).
Proof.
  intros Hs. induction pre as [|c r IH]; cbn.
  - now apply String.eqb_neq in Hs as ->.
  - now rewrite IH.
Qed.

Lemma find_absent (t : string) (cs : list ETElement) :
  Forall (fun c => tag c <> t) cs ->
  List.find (fun c => String.eqb (tag c) t) cs = None.
Proof.
  induction 1 as [|c r Hc Hr IH]; [reflexivity|]. cbn.
  now apply String.eqb_neq in Hc as ->.
Qed.

Lemma find_first (t : string) (s : ETElement) (pre post : list ETElement) :
  tag s = t -> Forall (fun c => tag c <> t) pre ->
  List.find (fun c => String.eqb (tag c) t) (pre ++ s :: post) = Some s.
Proof.
  intros Hs. induction 1 as [|c r Hc Hr IH]; cbn.
  - now apply String.eqb_eq in Hs as ->.
  - now apply String.eqb_neq in Hc as ->.
Qed.

Lemma remove_first_insert (t : string) (s : ETElement)
  (pre post : list ETElement) :
  tag s = t -> Forall (fun c => tag c <> t) pre ->
  remove_first t (pre ++ s :: post) = pre ++ post.
Proof.
  intros Hs. induction 1 as [|c r Hc Hr IH]; cbn.
  - now apply String.eqb_eq in Hs as ->.
  - apply String.eqb_neq in Hc as ->. now rewrite IH.
Qed.

Lemma remove_retag_insert (t old new : string) (s : ETElement)
  (pre post : list ETElement) :
  tag s = t -> t <> old -> t <> new ->
  Forall (fun c => tag c <> t) pre ->
  remove_first t (retag_first old new (pre ++ s :: post))
  = retag_first old new (pre ++ post).
Proof.
  intros Hs Ho Hn. induction 1 as [|c r Hc Hr IH].
  - cbn [app retag_first].
    replace (String.eqb (tag s) old) with false
      by (symmetry; apply String.eqb_neq; congruence).
    cbn [remove_first]. now apply String.eqb_eq in Hs as ->.
  - cbn [app retag_first]. destruct (String.eqb (tag c) old).
    + cbn [remove_first tag].
      replace (String.eqb new t) with false
        by (symmetry; apply String.eqb_neq; congruence).
      now rewrite remove_first_insert.
    + cbn [remove_first]. apply String.eqb_neq in Hc as ->. now rewrite IH.
Qed.

Lemma check_exclusive_ext (e1 e2 : ETElement)
  (pairs : list (string * string)) :
  tag e1 = tag e2 ->
  (forall a b, In (a, b) pairs ->
     find a e1 = find a e2 /\ find b e1 = find b e2) ->
  check_exclusive e1 pairs = check_exclusive e2 pairs.
Proof.
  intros Ht. induction pairs as [|[a b] r IH]; intros H; [reflexivity|].
  cbn [check_exclusive].
  destruct (H a b (or_introl eq_refl)) as [-> ->]. rewrite Ht, IH.
  - reflexivity.
  - intros a' b' Hin. apply H. now right.
Qed.

Lemma dual_relationships_not_SECID (first second : string) :
  In (first, second) dual_relationships ->
  first <> "SECID" /\ second <> "SECID".
Proof.
  cbn. intros [H|[H|[H|[]]]]; inversion H; split; discriminate.
Qed.

(** C8: an OPTINFO node whose only direct child tagged SECID is the
    identifier of the underlying decodes exactly as the node without that
    child does: [OPTINFO._preflatten] takes it out before flattening, so
    none of its fields reaches the record and the identifier of the option
    itself, nested under SECINFO, is what the record holds. *)
Theorem underlying_secid_discarded (rec : ETElement -> Result Instance)
  (x : option string) (pre post : list ETElement) (secid : ETElement)
  (Htag : tag secid = "SECID")
  (Honly : Forall (fun c => tag c <> "SECID") (pre ++ post)) :
  from_etree_body rec (Elem "OPTINFO" x (pre ++ secid :: post))
  = from_etree_body rec (Elem "OPTINFO" x (pre ++ post)) /\
  from_etree (Elem "OPTINFO" x (pre ++ secid :: post))
  = from_etree (Elem "OPTINFO" x (pre ++ post)).
Proof.
  apply Forall_app in Honly as Hparts. destruct Hparts as [Hpre Hpost].
  assert (Hbody : forall rec',
    from_etree_body rec' (Elem "OPTINFO" x (pre ++ secid :: post))
    = from_etree_body rec' (Elem "OPTINFO" x (pre ++ post))).
  { intros rec'. unfold from_etree_body, _groom.
    rewrite (check_exclusive_ext
               (rename_yield (Elem "OPTINFO" x (pre ++ secid :: post)))
               (rename_yield (Elem "OPTINFO" x (pre ++ post)))).
    - destruct (check_exclusive _ dual_relationships); cbn [bind];
        [|reflexivity].
      rewrite !tag_rename_yield. cbn [tag].
      change (globals "OPTINFO") with (Ok (GClass "OPTINFO")).
      cbn [bind _preflatten]. rewrite resolve_OPTINFO. cbn [run_hook].
      unfold OPTINFO__preflatten, Aggregate__preflatten. cbn [bind].
      rewrite !find_rename_yield by discriminate. unfold find.
      cbn [children].
      rewrite (find_first "SECID" secid pre post Htag Hpre).
      rewrite (find_absent "SECID" (pre ++ post) Honly).
      rewrite !rename_yield_eq. cbn [tag text children remove].
      rewrite remove_retag_insert by (try discriminate; assumption).
      reflexivity.
    - now rewrite !tag_rename_yield.
    - intros a b Hin.
      destruct (dual_relationships_tags _ _ Hin) as [[? ?] [? ?]].
      destruct (dual_relationships_not_SECID _ _ Hin) as [? ?].
      rewrite !find_rename_yield by assumption.
      unfold find. cbn [children].
      rewrite !find_insert by congruence. now split. }
  split; [apply Hbody|].
  now rewrite !from_etree_body_from_etree, Hbody.
Qed.

(** ** [MFINFO._preflatten] and [_postflatten] *)

Lemma raises_or_Ok {A : Type} (m : Result A) :
  raises m \/ exists a, m = Ok a.
Proof. destruct m as [a|e]; [right|left]; eexists; reflexivity. Qed.

(** No class of the module is called MFASSETCLASS or FIMFASSETCLASS, so
    [from_etree] cannot decode what [MFINFO._preflatten] sets aside. *)
Lemma from_etree_MFASSETCLASS_raises (rec : ETElement -> Result Instance)
  (m : ETElement) :
  tag m = "MFASSETCLASS" \/ tag m = "FIMFASSETCLASS" ->
  raises (from_etree_body rec m).
Proof.
  intros Ht. destruct (raises_or_Ok (from_etree_body rec m)) as [H|[i H]];
    [exact H|].
  apply from_etree_body_Ok in H as (h & a & s & e' & f & i0 & Hc & _).
  destruct Ht as [Ht|Ht]; rewrite Ht in Hc; vm_compute in Hc; discriminate.
Qed.

Lemma attach_first_raises (rec : ETElement -> Result Instance)
  (inst : Instance) (t : string) (x : ETElement) (rest : Dict.t Subagg) :
  raises (rec x) ->
  raises (attach_subaggs rec inst ((t, SubElement x) :: rest)).
Proof.
  intros [e He]. exists e. cbn [attach_subaggs decode_subagg].
  now rewrite He.
Qed.

(** An MFINFO node with a direct child tagged MFASSETCLASS never decodes:
    the child is set aside as an element, never as a list, and
    [_postflatten] hands it to [from_etree], which knows no such class. *)
Lemma MFINFO_asset_classes_never_decode (elem : ETElement) :
  tag elem = "MFINFO" ->
  find "MFASSETCLASS" elem <> None ->
  raises (from_etree elem).
Proof.
  intros Ht Hf.
  destruct (raises_or_Ok (from_etree elem)) as [H|[inst H]]; [exact H|].
  exfalso. rewrite from_etree_body_from_etree in H.
  apply from_etree_body_Ok in H
    as (h & attrs & subaggs & e' & m & i0 & _ & Hr & Hh & _ & _ & Hp).
  rewrite Ht, resolve_MFINFO in Hr. injection Hr as <-.
  cbn [run_hook] in Hh.
  unfold MFINFO__preflatten, Aggregate__preflatten in Hh. cbn [bind] in Hh.
  rewrite !find_rename_yield in Hh by discriminate.
  destruct (find "MFASSETCLASS" elem) as [mf|] eqn:Emf; [|contradiction].
  apply find_child in Emf as [_ Hmf].
  cbn [strip_subagg Dict.set] in Hh.
  assert (Hsub : exists rest, subaggs = ("MFASSETCLASS", SubElement mf) :: rest).
  { destruct (find "FIMFASSETCLASS" elem); cbn in Hh;
      injection Hh as <- <- <-; eexists; reflexivity. }
  destruct Hsub as [rest ->].
  assert (Ha : attrs = []).
  { destruct (find "FIMFASSETCLASS" elem); cbn in Hh;
      now injection Hh as <- _ _. }
  subst attrs. unfold _postflatten in Hp. cbn [set_attrs bind] in Hp.
  destruct (attach_first_raises from_etree i0 "MFASSETCLASS" mf rest)
    as [e He]; [|congruence].
  rewrite from_etree_body_from_etree.
  apply from_etree_MFASSETCLASS_raises. now left.
Qed.

(** ** [ORIGCURRENCY._preflatten] *)

(** Whenever the hook computes [curtype], it is the text of a grandchild
    of the node, not the tag that was found. *)
Lemma ORIGCURRENCY_curtype_is_text (e e' : ETElement)
  (attrs : Dict.t (PyObj Value)) (subaggs : Dict.t Subagg) :
  ORIGCURRENCY__preflatten e = Ok (attrs, subaggs, e') ->
  attrs = [] \/
  exists c,
    In c (flat_map children (children e)) /\
    (tag c = "CURRENCY" \/ tag c = "ORIGCURRENCY") /\
    attrs = [("curtype", of_text (text c))].
Proof.
  unfold ORIGCURRENCY__preflatten, Aggregate__preflatten. cbn [bind].
  destruct (or_else _ _) as [c|] eqn:E.
  - cbn. intros [= <- _ _]. right. exists c.
    unfold or_else, find_grandchild in E.
    destruct (List.find _ _) as [c1|] eqn:E1 in E.
    + destruct (truthy c1).
      * injection E as ->. apply find_some in E1 as [Hin Heq].
        apply String.eqb_eq in Heq. auto.
      * apply find_some in E as [Hin Heq].
        apply String.eqb_eq in Heq. auto.
    + apply find_some in E as [Hin Heq].
      apply String.eqb_eq in Heq. auto.
  - intros [= <- _ _]. now left.
Qed.

(** ** What a decoded instance holds *)

Lemma flatten_children_get (rec : ETElement -> Result flat) (k : string)
  (cs : list ETElement) :
  forall aggs leaves aggs' leaves',
    flatten_children rec cs aggs leaves = Ok (aggs', leaves') ->
    Dict.get k leaves' = leaf_value k cs (Dict.get k leaves).
Proof.
  induction cs as [|c r IH]; intros aggs leaves aggs' leaves'.
  - cbn. now intros [= _ <-].
  - cbn [flatten_children leaf_value]. unfold leaf_for.
    destruct (Str.nonempty (data c)).
    + destruct (Dict.mem (tag c) leaves); cbn [negb assert bind];
        [discriminate|].
      destruct (Str.contains "."%char (tag c)); cbn [negb andb].
      * apply IH.
      * intros H. apply IH in H. rewrite H, get_set.
        now rewrite (String.eqb_sym k).
    + cbn [andb].
      destruct (Dict.mem (tag c) aggs); cbn [negb assert bind];
        [discriminate|].
      destruct (rec c); cbn [bind]; [|discriminate]. apply IH.
Qed.

Lemma flatten_children_NoDup (rec : ETElement -> Result flat)
  (cs : list ETElement) :
  forall aggs leaves aggs' leaves',
    NoDup (Dict.keys leaves) ->
    flatten_children rec cs aggs leaves = Ok (aggs', leaves') ->
    NoDup (Dict.keys leaves').
Proof.
  induction cs as [|c r IH]; intros aggs leaves aggs' leaves' Hnd.
  - cbn. now intros [= _ <-].
  - cbn [flatten_children].
    destruct (Str.nonempty (data c)).
    + destruct (Dict.mem (tag c) leaves); cbn [negb assert bind];
        [discriminate|].
      destruct (Str.contains "."%char (tag c)); cbn [negb].
      * now apply IH.
      * apply IH. now apply keys_set_NoDup.
    + destruct (Dict.mem (tag c) aggs); cbn [negb assert bind];
        [discriminate|].
      destruct (rec c); cbn [bind]; [|discriminate]. now apply IH.
Qed.

Lemma check_collisions_Ok (ks : list string) (leaves : flat) :
  check_collisions ks leaves = Ok tt ->
  forall k, In k ks -> Dict.mem k leaves = false.
Proof.
  induction ks as [|k0 r IH]; cbn [check_collisions]; [intros _ k []|].
  destruct (Dict.mem k0 leaves) eqn:E; cbn [negb assert bind];
    [discriminate|].
  intros H k [<-|Hin]; [exact E|now apply IH].
Qed.

Lemma flatten_Ok (t : string) (x : option string) (cs : list ETElement)
  (m : flat) :
  _flatten (Elem t x cs) = Ok m ->
  NoDup (Dict.keys m) /\
  forall k v, leaf_value k cs None = Some v -> Dict.get k m = Some v.
Proof.
  rewrite flatten_unfold.
  destruct (flatten_children _flatten cs [] []) as [[aggs leaves]|] eqn:E;
    cbn [bind]; [|discriminate].
  unfold flatten_finish.
  destruct (check_collisions (Dict.keys aggs) leaves) as [[]|] eqn:Ec;
    cbn [bind]; [|discriminate].
  intros [= <-]. split.
  - apply keys_update_NoDup.
    apply (flatten_children_NoDup _ cs [] [] aggs leaves (NoDup_nil _) E).
  - intros k v Hv.
    pose proof (flatten_children_get _ k _ _ _ _ _ E) as Hg.
    cbn [Dict.get] in Hg. rewrite Hv in Hg.
    rewrite get_update; [exact Hg|].
    destruct (Dict.mem k aggs) eqn:Em; [|reflexivity].
    apply mem_In in Em. apply (check_collisions_Ok _ _ Ec) in Em.
    unfold Dict.mem in Em. now rewrite Hg in Em.
Qed.

Lemma leaf_value_filter (k : string) (cs : list ETElement) :
  forall acc,
    leaf_value k cs acc
    = leaf_value k
        (filter (fun c => String.eqb (Str.lower (tag c)) k) cs) acc.
Proof.
  induction cs as [|c r IH]; intros acc; [reflexivity|].
  cbn [leaf_value filter].
  destruct (String.eqb (Str.lower (tag c)) k) eqn:E; cbn [leaf_value].
  - apply IH.
  - unfold leaf_for. rewrite E, andb_false_r. apply IH.
Qed.

Lemma filter_remove_first (p : ETElement -> bool) (t : string)
  (cs : list ETElement) :
  (forall c, tag c = t -> p c = false) ->
  filter p (remove_first t cs) = filter p cs.
Proof.
  intros H. induction cs as [|c r IH]; [reflexivity|].
  cbn [remove_first filter]. destruct (String.eqb (tag c) t) eqn:E.
  - apply String.eqb_eq in E. now rewrite (H c E).
  - cbn [filter]. now rewrite IH.
Qed.

Lemma filter_remove_all (p : ETElement -> bool) (ts : list string) :
  (forall t c, In t ts -> tag c = t -> p c = false) ->
  forall cs, filter p (remove_all ts cs) = filter p cs.
Proof.
  unfold remove_all. induction ts as [|t r IH]; intros H cs; [reflexivity|].
  cbn [fold_left]. rewrite IH.
  - apply filter_remove_first. intros c. apply H. now left.
  - intros t' c Hin. apply H. now right.
Qed.

Lemma setattr_get (self self' : Instance) (name k : string) (v : PyObj Value) :
  setattr self name v = Ok self' -> k <> name ->
  Dict.get k (snd self') = Dict.get k (snd self).
Proof.
  intros H Hk. apply setattr_Ok in H as [_ [v' ->]].
  rewrite get_set. now apply String.eqb_neq in Hk as ->.
Qed.

Lemma init_elements_get (names : list string) (k : string) :
  NoDup names -> In k names ->
  forall (kwargs rest : Dict.t string) (self self' : Instance),
    init_elements names kwargs self = Ok (rest, self') ->
    exists v',
      setattr_value (fst self) k (of_text (Dict.get k kwargs)) = Ok v' /\
      Dict.get k (snd self') = Some v'.
Proof.
  assert (Hkeep : forall names kwargs rest self self',
    ~ In k names ->
    init_elements names kwargs self = Ok (rest, self') ->
    Dict.get k (snd self') = Dict.get k (snd self)).
  { induction names0 as [|n r IH]; intros kwargs rest self self' Hk.
    - cbn. now intros [= _ <-].
    - cbn [init_elements Dict.pop].
      destruct (cant_create (fst self) n
                  (setattr self n (of_text (Dict.get n kwargs))))
        as [self1|] eqn:E; cbn [bind]; [|discriminate].
      apply cant_create_Ok in E. intros H. apply IH in H.
      + rewrite H. apply (setattr_get _ _ _ _ _ E).
        intros ->. apply Hk. now left.
      + intros Hin. apply Hk. now right. }
  induction names as [|n r IH]; intros Hnd Hin kwargs rest self self';
    [contradiction|].
  inversion Hnd as [|? ? Hn Hr]; subst.
  cbn [init_elements Dict.pop].
  destruct (cant_create (fst self) n
              (setattr self n (of_text (Dict.get n kwargs))))
    as [self1|] eqn:E; cbn [bind]; [|discriminate].
  apply cant_create_Ok in E.
  destruct (String.eqb k n) eqn:Ek.
  - apply String.eqb_eq in Ek. subst n. intros H.
    apply Hkeep in H; [|exact Hn]. rewrite H.
    rewrite setattr_eq in E.
    destruct (setattr_value (fst self) k (of_text (Dict.get k kwargs)))
      as [v'|]; cbn [bind] in E; [|discriminate].
    injection E as <-. exists v'. split; [reflexivity|]. cbn [snd].
    now rewrite get_set, String.eqb_refl.
  - apply String.eqb_neq in Ek. destruct Hin as [->|Hin]; [congruence|].
    intros H. apply (IH Hr Hin) in H as [v' [Hv Hg]].
    apply setattr_Ok in E as [Hc _]. rewrite Hc in Hv.
    rewrite get_remove in Hv by exact Ek. eauto.
Qed.

Lemma init_get (cls k v : string) (kwargs : Dict.t string) (self : Instance) :
  NoDup (Dict.keys kwargs) ->
  __init__ cls kwargs = Ok self ->
  Dict.get k kwargs = Some v ->
  In k (Dict.keys (elements classes cls)) /\
  exists v',
    setattr_value cls k (ObjStr v) = Ok v' /\
    Dict.get k (snd self) = Some v'.
Proof.
  intros Hnd Hi Hk.
  assert (Hin : In k (Dict.keys (elements classes cls))).
  { destruct (init_Ok cls kwargs self Hnd Hi) as [Hu _].
    destruct (Dict.mem k (elements classes cls)) eqn:Em;
      [now apply mem_In|].
    assert (Hx : In k (unclaimed cls kwargs)).
    { unfold unclaimed. apply filter_In. rewrite Em. split; [|reflexivity].
      apply mem_In. unfold Dict.mem. now rewrite Hk. }
    rewrite Hu in Hx. contradiction. }
  split; [exact Hin|].
  apply init_call_Ok in Hi as [_ Hi]. unfold init_body in Hi.
  pose proof (elements_of_NoDup classes (__mro__ classes cls)) as Hnames.
  fold (elements classes cls) in Hnames.
  remember (Dict.keys (elements classes cls)) as names eqn:En.
  clear En.
  destruct (init_elements names kwargs (cls, []))
    as [[rest self0]|] eqn:E; cbn [bind] in Hi; [|discriminate Hi].
  apply (init_elements_get _ k Hnames Hin) in E as [v' [Hv Hg]].
  cbn [fst] in Hv. rewrite Hk in Hv. cbn [of_text] in Hv.
  exists v'. split; [exact Hv|].
  destruct rest; [|discriminate Hi]. now injection Hi as <-.
Qed.

Lemma setattr_keys (self self' : Instance) (name k : string) (v : PyObj Value) :
  setattr self name v = Ok self' ->
  In k (Dict.keys (snd self')) -> k = name \/ In k (Dict.keys (snd self)).
Proof.
  intros H. apply setattr_Ok in H as [_ [v' ->]]. apply keys_set_In.
Qed.

Lemma set_attrs_spec (attrs : Dict.t (PyObj Value)) :
  forall inst inst',
    set_attrs inst attrs = Ok inst' ->
    (forall k, ~ In k (Dict.keys attrs) ->
       Dict.get k (snd inst') = Dict.get k (snd inst)) /\
    (forall k, In k (Dict.keys (snd inst')) ->
       In k (Dict.keys (snd inst)) \/ In k (Dict.keys attrs)).
Proof.
  induction attrs as [|[a v] r IH]; intros inst inst'.
  - cbn. intros [= <-]. split; auto.
  - cbn [set_attrs].
    destruct (setattr inst a v) as [inst1|] eqn:E; cbn [bind]; [|discriminate].
    intros H. apply IH in H as [Hg Hk]. split.
    + intros k Hn. rewrite Hg by (intros ?; apply Hn; now right).
      apply (setattr_get _ _ _ _ _ E). intros ->. apply Hn. now left.
    + intros k Hin. apply Hk in Hin as [Hin|Hin]; [|right; now right].
      apply (setattr_keys _ _ _ _ _ E) in Hin as [->|Hin];
        [right; now left|now left].
Qed.

Lemma attach_subaggs_spec (rec : ETElement -> Result Instance)
  (subaggs : Dict.t Subagg) :
  forall inst inst',
    attach_subaggs rec inst subaggs = Ok inst' ->
    (forall k, ~ In k (map Str.lower (Dict.keys subaggs)) ->
       Dict.get k (snd inst') = Dict.get k (snd inst)) /\
    (forall k, In k (Dict.keys (snd inst')) ->
       In k (Dict.keys (snd inst)) \/
       In k (map Str.lower (Dict.keys subaggs))).
Proof.
  induction subaggs as [|[t s] r IH]; intros inst inst'.
  - cbn. intros [= <-]. split; auto.
  - cbn [attach_subaggs].
    destruct (decode_subagg rec s) as [v|]; cbn [bind]; [|discriminate].
    destruct (setattr inst (Str.lower t) v) as [inst1|] eqn:E; cbn [bind];
      [|discriminate].
    intros H. apply IH in H as [Hg Hk]. split.
    + intros k Hn. rewrite Hg by (intros ?; apply Hn; now right).
      apply (setattr_get _ _ _ _ _ E). intros ->. apply Hn. now left.
    + intros k Hin. apply Hk in Hin as [Hin|Hin]; [|right; now right].
      apply (setattr_keys _ _ _ _ _ E) in Hin as [->|Hin];
        [right; now left|now left].
Qed.

Lemma subaggs_keys (e : ETElement) (subaggs : Dict.t Subagg) (k : string) :
  subaggs_of e subaggs ->
  In k (map Str.lower (Dict.keys subaggs)) ->
  In k (map Str.lower hook_tags).
Proof.
  intros Hs Hin. apply in_map_iff in Hin as [t [<- Hin]].
  apply in_map_iff in Hin as [[t' s] [<- Hin]].
  apply in_map. now apply (Hs t' s).
Qed.

(** The steps of a successful [from_etree], with what they leave on the
    instance: the fields of the class as the constructor set them, then
    [curtype] and the sub-aggregates. *)
Lemma from_etree_Ok (elem : ETElement) (inst : Instance) :
  from_etree elem = Ok inst ->
  exists c e' m inst0,
    In c module_classes /\ cls_name c = tag elem /\
    trimmed (rename_yield elem) e' /\
    _flatten e' = Ok m /\
    __init__ (tag elem) m = Ok inst0 /\
    (forall k, k <> "curtype" -> ~ In k (map Str.lower hook_tags) ->
       Dict.get k (snd inst) = Dict.get k (snd inst0)) /\
    (forall k, In k (Dict.keys (snd inst)) ->
       In k (Dict.keys (snd inst0)) \/ k = "curtype" \/
       In k (map Str.lower hook_tags)).
Proof.
  rewrite from_etree_body_from_etree. intros H.
  apply from_etree_body_Ok in H
    as (h & attrs & subaggs & e' & m & inst0 & Hc & _ & Hh & Hf & Hi & Hp).
  apply existsb_exists in Hc as [c [Hc Hn]]. apply String.eqb_eq in Hn.
  apply run_hook_spec in Hh as (Htr & Hs & Ha).
  exists c, e', m, inst0.
  split; [exact Hc|]. split; [exact Hn|]. split; [exact Htr|].
  split; [exact Hf|]. split; [exact Hi|]. split.
  - unfold _postflatten in Hp.
    destruct (set_attrs inst0 attrs) as [inst1|] eqn:E1; cbn [bind] in Hp;
      [|discriminate].
    apply set_attrs_spec in E1 as [Hg1 _].
    apply attach_subaggs_spec in Hp as [Hg2 _].
    intros k Hk1 Hk2. rewrite Hg2, Hg1; [reflexivity| |].
    + intros Hin. apply Hk1. now apply Ha.
    + intros Hin. apply Hk2. now apply (subaggs_keys _ _ _ Hs).
  - unfold _postflatten in Hp.
    destruct (set_attrs inst0 attrs) as [inst1|] eqn:E1; cbn [bind] in Hp;
      [|discriminate].
    apply set_attrs_spec in E1 as [_ Hk1].
    apply attach_subaggs_spec in Hp as [_ Hk2].
    intros k Hin. apply Hk2 in Hin as [Hin|Hin].
    + apply Hk1 in Hin as [Hin|Hin]; [now left|right; left; now apply Ha].
    + right; right. now apply (subaggs_keys _ _ _ Hs).
Qed.

(** ** Facts read off the class table *)

Lemma module_classes_no_yield :
  forallb
    (fun c => negb (Dict.mem "yield" (elements classes (cls_name c))))
    module_classes = true.
Proof. vm_compute. reflexivity. Qed.

Lemma module_classes_yld :
  forallb
    (fun c =>
       negb (Dict.mem "yld" (elements classes (cls_name c))) ||
       bound_to (cls_name c) "yld" is_Decimal_4)
    module_classes = true.
Proof. vm_compute. reflexivity. Qed.

Lemma module_classes_no_dot :
  forallb
    (fun c =>
       forallb (fun k => negb (Str.contains "."%char k))
         (Dict.keys (elements classes (cls_name c))))
    module_classes = true.
Proof. vm_compute. reflexivity. Qed.

Lemma hook_tags_no_dot :
  Forall no_dot ("curtype" :: map Str.lower hook_tags).
Proof. repeat constructor. Qed.

(** ** YIELD *)

Lemma retag_first_first (old new : string) (y : ETElement)
  (pre post : list ETElement) :
  tag y = old -> Forall (fun c => tag c <> old) pre ->
  retag_first old new (pre ++ y :: post)
  = pre ++ Elem new (text y) (children y) :: post.
Proof.
  intros Hy. induction 1 as [|c r Hc Hr IH]; cbn [app retag_first].
  - now apply String.eqb_eq in Hy as ->.
  - apply String.eqb_neq in Hc as ->. now rewrite IH.
Qed.

Lemma filter_none {A : Type} (p : A -> bool) (l : list A) :
  Forall (fun a => p a = false) l -> filter p l = [].
Proof.
  induction 1 as [|a r Ha Hr IH]; [reflexivity|]. cbn. now rewrite Ha.
Qed.

Lemma hook_tags_not_yld (t : string) (c : ETElement) :
  In t hook_tags -> tag c = t ->
  String.eqb (Str.lower (tag c)) "yld" = false.
Proof.
  intros Hin ->. cbn in Hin.
  repeat (destruct Hin as [<-|Hin]; [reflexivity|]). contradiction.
Qed.

(** The YLD leaf that [_groom] makes of the first YIELD child goes through
    the hook and the flattening, to the key [yld]. *)
Lemma flatten_yld (elem e' : ETElement) (pre post : list ETElement)
  (y : ETElement) (m : flat) :
  children elem = pre ++ y :: post ->
  tag y = "YIELD" -> Str.nonempty (data y) = true ->
  Forall (fun c => tag c <> "YIELD") pre ->
  Forall (fun c => Str.lower (tag c) <> "yld") (pre ++ post) ->
  trimmed (rename_yield elem) e' ->
  _flatten e' = Ok m ->
  Dict.get "yld" m = Some (data y).
Proof.
  intros Hcs Hy Hd Hpre Hother (_ & _ & ts & Hts & Hcs') Hf.
  destruct e' as [t x cs']. cbn [children] in Hcs'.
  apply flatten_Ok in Hf as [_ Hf]. apply Hf.
  rewrite leaf_value_filter, Hcs', filter_remove_all.
  - rewrite children_rename_yield, Hcs.
    rewrite (retag_first_first "YIELD" "YLD" y pre post Hy Hpre).
    apply Forall_app in Hother as [H1 H2].
    assert (Hp1 : filter (fun c => String.eqb (Str.lower (tag c)) "yld") pre
                  = []).
    { apply filter_none. eapply Forall_impl; [|exact H1]. intros c Hc.
      now apply String.eqb_neq. }
    assert (Hp2 : filter (fun c => String.eqb (Str.lower (tag c)) "yld") post
                  = []).
    { apply filter_none. eapply Forall_impl; [|exact H2]. intros c Hc.
      now apply String.eqb_neq. }
    rewrite filter_app, Hp1.
    change (filter (fun c => String.eqb (Str.lower (tag c)) "yld")
              (Elem "YLD" (text y) (children y) :: post))
      with (Elem "YLD" (text y) (children y)
              :: filter (fun c => String.eqb (Str.lower (tag c)) "yld") post).
    rewrite Hp2. cbn [app leaf_value]. unfold leaf_for.
    change (data (Elem "YLD" (text y) (children y))) with (data y).
    rewrite Hd. reflexivity.
  - intros t0 c Hin. apply hook_tags_not_yld. now apply Hts.
Qed.

Lemma class_fact (P : Class -> bool) (c : Class) :
  forallb P module_classes = true -> In c module_classes -> P c = true.
Proof. intros H. now apply forallb_forall. Qed.

(** C10: [_groom] renames the first direct child tagged YIELD to YLD, and
    no other, whether or not the check of the exclusive pairs that follows
    raises; that check, the lookup of the class, the hook and the
    flattening all see the renamed tree.  So when the first YIELD child is
    a data-bearing leaf and no other child flattens to [yld], a decoded
    record holds the converted text of that leaf under [yld]; and no
    decoded record ever has an attribute named [yield]. *)
Theorem yield_renamed (elem : ETElement) (pre post : list ETElement)
  (y : ETElement) :
  fst (_groom elem)
  = Elem (tag elem) (text elem)
      (retag_first "YIELD" "YLD" (children elem)) /\
  snd (_groom elem) = check_exclusive (fst (_groom elem)) dual_relationships /\
  match from_etree elem with
  | Ok inst => Dict.get "yield" (snd inst) = None
  | Raise _ => True
  end /\
  (children elem = pre ++ y :: post ->
   tag y = "YIELD" ->
   Forall (fun c => tag c <> "YIELD") pre ->
   children (fst (_groom elem))
   = pre ++ Elem "YLD" (text y) (children y) :: post /\
   (Str.nonempty (data y) = true ->
    Forall (fun c => Str.lower (tag c) <> "yld") (pre ++ post) ->
    match from_etree elem with
    | Ok inst =>
        exists v,
          convert (Types.Decimal (Some 4) false) (ObjStr (data y)) = Ok v /\
          Dict.get "yld" (snd inst) = Some v
    | Raise _ => True
    end)).
Proof.
  split; [apply rename_yield_eq|]. split; [reflexivity|]. split.
  - destruct (from_etree elem) as [inst|] eqn:E; [|exact I].
    apply from_etree_Ok in E
      as (c & e' & m & inst0 & Hc & Hn & _ & Hf & Hi & Hg & _).
    rewrite Hg; [|discriminate|cbn; intuition discriminate].
    destruct e' as [t x cs]. apply flatten_Ok in Hf as [Hnd _].
    destruct (init_Ok (tag elem) m inst0 Hnd Hi) as (_ & _ & Hk).
    pose proof (class_fact _ c module_classes_no_yield Hc) as Hy.
    cbn beta in Hy. rewrite Hn in Hy. apply negb_true_iff in Hy.
    apply mem_false in Hy. rewrite <- Hk in Hy. apply mem_false in Hy.
    unfold Dict.mem in Hy. now destruct (Dict.get "yield" (snd inst0)).
  - intros Hcs Hy Hpre. split.
    + cbn [_groom fst]. rewrite children_rename_yield, Hcs.
      now apply retag_first_first.
    + intros Hd Hother.
      destruct (from_etree elem) as [inst|] eqn:E; [|exact I].
      apply from_etree_Ok in E
        as (c & e' & m & inst0 & Hc & Hn & Htr & Hf & Hi & Hg & _).
      rewrite Hg; [|discriminate|cbn; intuition discriminate].
      pose proof (flatten_yld elem e' pre post y m Hcs Hy Hd Hpre Hother
                    Htr Hf) as Hm.
      destruct e' as [t x cs]. apply flatten_Ok in Hf as [Hnd _].
      destruct (init_get (tag elem) "yld" (data y) m inst0 Hnd Hi Hm)
        as [Hin [v [Hv Hget]]].
      exists v. split; [|exact Hget].
      pose proof (class_fact _ c module_classes_yld Hc) as Hb.
      cbn beta in Hb. rewrite Hn in Hb.
      apply mem_In in Hin. rewrite Hin in Hb. cbn [negb orb] in Hb.
      unfold bound_to in Hb. unfold setattr_value in Hv.
      remember (type_lookup classes (__mro__ classes (tag elem)) "yld")
        as bound eqn:Eb.
      clear - Hb Hv.
      destruct bound as [[d| |]|]; try discriminate Hb.
      destruct d as [| | | | |[[|[|[|[|[|]]]]]|] [|]|]; try discriminate Hb.
      exact Hv.
Qed.

(** ** Private tags *)

Lemma decoded_names_no_dot (elem : ETElement) (inst : Instance) :
  from_etree elem = Ok inst -> Forall no_dot (Dict.keys (snd inst)).
Proof.
  intros E. apply from_etree_Ok in E
    as (c & e' & m & inst0 & Hc & Hn & _ & Hf & Hi & _ & Hk).
  destruct e' as [t x cs]. apply flatten_Ok in Hf as [Hnd _].
  destruct (init_Ok (tag elem) m inst0 Hnd Hi) as (_ & _ & Hk0).
  pose proof (class_fact _ c module_classes_no_dot Hc) as Hd.
  cbn beta in Hd. rewrite Hn, <- Hk0 in Hd.
  rewrite forallb_forall in Hd.
  pose proof hook_tags_no_dot as Hh. rewrite Forall_forall in Hh.
  apply Forall_forall. intros k Hin. apply Hk in Hin as [Hin|[->|Hin]].
  - apply Hd in Hin. now apply negb_true_iff in Hin.
  - apply Hh. now left.
  - apply Hh. now right.
Qed.

(** C7: a data-bearing leaf whose tag holds a dot is dropped by
    [_flatten] at every depth.  Flattening a tree gives exactly what
    flattening the tree without its private leaves gives, be it a mapping
    or an exception, so such a leaf adds no entry and raises nothing; no
    key of the flat mapping holds a dot, and neither does the name of any
    attribute of a decoded record. *)
Theorem private_leaves_dropped (e : ETElement) :
  _flatten e = _flatten (drop_private e) /\
  match _flatten e with
  | Ok m => Forall no_dot (Dict.keys m)
  | Raise _ => True
  end /\
  match from_etree e with
  | Ok inst => Forall no_dot (Dict.keys (snd inst))
  | Raise _ => True
  end.
Proof.
  split; [symmetry; apply flatten_drop_private|]. split.
  - destruct (_flatten e) as [m|] eqn:E; [|exact I].
    now apply flatten_no_dot with (e := e).
  - destruct (from_etree e) as [inst|] eqn:E; [|exact I].
    now apply decoded_names_no_dot with (elem := e).
Qed.

End Properties.

(* ------------------------------------------------------------------ *)
(** * Further properties of the decoder *)

Section Coverage.
Context {ext : External}.

(** ** [_flatten]: where the entries come from *)

Lemma get_In {V : Type} (k : string) (v : V) (d : Dict.t V) :
  Dict.get k d = Some v -> In (k, v) d.
Proof.
  induction d as [|[k0 v0] r IH]; cbn; [discriminate|].
  destruct (String.eqb k k0) eqn:E.
  - apply String.eqb_eq in E. subst k0. intros [= ->]. now left.
  - intros H. right. now apply IH.
Qed.

Lemma In_update {V : Type} (k : string) (v : V) (d other : Dict.t V) :
  In (k, v) (Dict.update d other) -> In (k, v) d \/ In (k, v) other.
Proof.
  unfold Dict.update. revert d.
  induction other as [|[k0 v0] r IH]; intros d; cbn [fold_left fst snd].
  - now left.
  - intros H. apply IH in H as [H|H]; [|right; now right].
    apply In_set in H as [[= -> ->]|H]; [right; now left|now left].
Qed.

Lemma update_app {V : Type} (other : Dict.t V) :
  forall d,
    NoDup (Dict.keys d ++ Dict.keys other) ->
    Dict.update d other = d ++ other.
Proof.
  unfold Dict.update.
  induction other as [|[k v] r IH]; intros d Hnd; cbn [fold_left fst snd].
  - now rewrite app_nil_r.
  - rewrite set_fresh.
    + rewrite IH; [now rewrite <- app_assoc|].
      rewrite keys_app, <- app_assoc. exact Hnd.
    + apply mem_false. intros Hin. apply NoDup_remove_2 in Hnd.
      apply Hnd, in_or_app. now left.
Qed.

Lemma leaves_of_unfold (t : string) (x : option string)
  (c : ETElement) (r : list ETElement) :
  leaves_of (Elem t x (c :: r)) =
  (if Str.nonempty (data c) then
     if Str.contains "."%char (tag c) then [] else [leaf_entry c]
   else leaves_of c) ++ leaves_of (Elem t x r).
Proof. reflexivity. Qed.

Lemma flatten_children_sound (t : string) (x : option string)
  (cs : list ETElement) :
  Forall flat_sound cs ->
  forall aggs leaves aggs' leaves',
    flatten_children _flatten cs aggs leaves = Ok (aggs', leaves') ->
    (forall k,
       In k (Dict.keys aggs') \/ In k (Dict.keys leaves') <->
       (In k (Dict.keys aggs) \/ In k (Dict.keys leaves)) \/
       In k (map fst (leaves_of (Elem t x cs)))) /\
    (forall k v,
       In (k, v) aggs' \/ In (k, v) leaves' ->
       (In (k, v) aggs \/ In (k, v) leaves) \/
       In (k, v) (leaves_of (Elem t x cs))).
Proof.
  induction 1 as [|c r Hc Hr IH]; intros aggs leaves aggs' leaves'.
  - cbn. intros [= <- <-]. split; intros; tauto.
  - cbn [flatten_children]. rewrite leaves_of_unfold.
    destruct (Str.nonempty (data c)).
    + destruct (Dict.mem (tag c) leaves); cbn [negb assert bind];
        [discriminate|].
      destruct (Str.contains "."%char (tag c)); cbn [negb].
      * apply IH.
      * intros H. apply IH in H as [Hk He]. split.
        -- intros k. rewrite Hk, keys_set_In, map_app, in_app_iff.
           unfold leaf_entry. cbn [map fst In].
           intuition (subst; auto).
        -- intros k v Hin. apply He in Hin as [[Hin|Hin]|Hin].
           ++ tauto.
           ++ apply In_set in Hin as [Hin|Hin]; [|tauto].
              right. apply in_or_app. left. left. now symmetry.
           ++ right. apply in_or_app. now right.
    + destruct (Dict.mem (tag c) aggs); cbn [negb assert bind];
        [discriminate|].
      destruct (_flatten c) as [sub|] eqn:Es; cbn [bind]; [|discriminate].
      destruct (Hc sub Es) as [Hsk Hse].
      intros H. apply IH in H as [Hk He]. split.
      * intros k. rewrite Hk, keys_update_In, map_app, in_app_iff, Hsk.
        tauto.
      * intros k v Hin. apply He in Hin as [[Hin|Hin]|Hin].
        -- apply In_update in Hin as [Hin|Hin]; [tauto|].
           right. apply in_or_app. left. now apply Hse.
        -- tauto.
        -- right. apply in_or_app. now right.
Qed.

Lemma flatten_sound (e : ETElement) : flat_sound e.
Proof.
  induction e as [t x cs IH] using ETElement_rect'. intros m.
  rewrite flatten_unfold.
  destruct (flatten_children _flatten cs [] []) as [[aggs leaves]|] eqn:E;
    cbn [bind]; [|discriminate].
  intros Hm. apply flatten_finish_Ok in Hm. subst m.
  destruct (flatten_children_sound t x cs IH [] [] aggs leaves E) as [Hk He].
  split.
  - intros k. rewrite keys_update_In. specialize (Hk k). cbn in Hk. tauto.
  - intros k v Hin. apply In_update in Hin.
    specialize (He k v). cbn in He. tauto.
Qed.

(** X1: what a flat mapping holds.  When [_flatten] returns a mapping, its
    keys are distinct and are exactly the lower-cased tags of the
    data-bearing leaves without a dot that are reached through children
    without text; the value under a key is the stripped text of one of
    the leaves with that key.  Nothing else gets into the mapping. *)
Theorem flatten_entries_are_leaves (e : ETElement) (m : flat)
  (Hm : _flatten e = Ok m) :
  NoDup (Dict.keys m) /\
  (forall k, In k (Dict.keys m) <-> In k (map fst (leaves_of e))) /\
  (forall k v, Dict.get k m = Some v -> In (k, v) (leaves_of e)).
Proof.
  destruct (flatten_sound e m Hm) as [Hk He].
  split; [|split; [exact Hk|]].
  - destruct e as [t x cs]. now apply flatten_Ok in Hm.
  - intros k v Hg. now apply He, get_In.
Qed.

Lemma flatten_children_keeps_aggs (rec : ETElement -> Result flat)
  (cs : list ETElement) :
  forall aggs leaves aggs' leaves',
    flatten_children rec cs aggs leaves = Ok (aggs', leaves') ->
    (forall k, In k (Dict.keys aggs) -> In k (Dict.keys aggs')) /\
    (forall c sub k,
       In c cs -> Str.nonempty (data c) = false -> rec c = Ok sub ->
       In k (Dict.keys sub) -> In k (Dict.keys aggs')).
Proof.
  induction cs as [|c r IH]; intros aggs leaves aggs' leaves'.
  - cbn. intros [= <- <-]. split; [tauto|]. intros ? ? ? [].
  - cbn [flatten_children].
    destruct (Str.nonempty (data c)) eqn:Ed.
    + destruct (Dict.mem (tag c) leaves); cbn [negb assert bind];
        [discriminate|].
      assert (Hboth : forall leaves0,
        flatten_children rec r aggs leaves0 = Ok (aggs', leaves') ->
        (forall k, In k (Dict.keys aggs) -> In k (Dict.keys aggs')) /\
        (forall c0 sub k,
           In c0 (c :: r) -> Str.nonempty (data c0) = false ->
           rec c0 = Ok sub -> In k (Dict.keys sub) ->
           In k (Dict.keys aggs'))).
      { intros leaves0 H. apply IH in H as [H1 H2]. split; [exact H1|].
        intros c0 sub k [<-|Hin] Hd; [congruence|].
        now apply (H2 c0 sub k). }
      destruct (Str.contains "."%char (tag c)); cbn [negb]; apply Hboth.
    + destruct (Dict.mem (tag c) aggs); cbn [negb assert bind];
        [discriminate|].
      destruct (rec c) as [sub0|] eqn:Es; cbn [bind]; [|discriminate].
      intros H. apply IH in H as [H1 H2]. split.
      * intros k Hin. apply H1, keys_update_In. now left.
      * intros c0 sub k [<-|Hin] Hd Hr Hk.
        -- rewrite Es in Hr. injection Hr as <-.
           apply H1, keys_update_In. now right.
        -- now apply (H2 c0 sub k).
Qed.

Lemma leaf_value_None (k : string) (cs : list ETElement) :
  forall acc,
    leaf_value k cs acc = None ->
    acc = None /\ forall c, In c cs -> leaf_for k c = false.
Proof.
  induction cs as [|c r IH]; intros acc; cbn [leaf_value].
  - intros ->. split; [reflexivity|]. intros ? [].
  - intros H. apply IH in H as [Ha Hr].
    destruct (leaf_for k c) eqn:El; [discriminate|].
    split; [exact Ha|]. intros c0 [<-|Hin]; [exact El|now apply Hr].
Qed.

(** X2: the collision the final check of [_flatten] does catch.  When
    [_flatten] returns a mapping for a node, no key of the flattening of a
    child without text is also the key of a data-bearing child of the
    node: a leaf never merges with an entry of a sibling aggregate. *)
Theorem flatten_keeps_leaves_apart (t : string) (x : option string)
  (cs : list ETElement) (m : flat) (c : ETElement) (sub : flat) (k : string)
  (Hm : _flatten (Elem t x cs) = Ok m)
  (Hc : In c cs)
  (Hagg : Str.nonempty (data c) = false)
  (Hsub : _flatten c = Ok sub)
  (Hk : In k (Dict.keys sub)) :
  forall c', In c' cs -> leaf_for k c' = false.
Proof.
  rewrite flatten_unfold in Hm.
  destruct (flatten_children _flatten cs [] []) as [[aggs leaves]|] eqn:E;
    cbn [bind] in Hm; [|discriminate].
  unfold flatten_finish in Hm.
  destruct (check_collisions (Dict.keys aggs) leaves) as [[]|] eqn:Ec;
    cbn [bind] in Hm; [|discriminate].
  destruct (flatten_children_keeps_aggs _ _ _ _ _ _ E) as [_ H].
  pose proof (H c sub k Hc Hagg Hsub Hk) as Hin.
  apply (check_collisions_Ok _ _ Ec) in Hin.
  pose proof (flatten_children_get _ k _ _ _ _ _ E) as Hg.
  cbn [Dict.get] in Hg. unfold Dict.mem in Hin.
  destruct (Dict.get k leaves); [discriminate|].
  symmetry in Hg. now apply leaf_value_None in Hg.
Qed.

(** ** [_flatten]: nesting, mixed content, repeated leaves *)

(** X3: a level of nesting leaves no trace.  A node whose only child
    has no text flattens to what that child flattens to, mapping or
    exception. *)
Theorem flatten_single_aggregate (t : string) (x : option string)
  (c : ETElement) (Hagg : Str.nonempty (data c) = false) :
  _flatten (Elem t x [c]) = _flatten c.
Proof.
  rewrite flatten_unfold. cbn [flatten_children]. rewrite Hagg.
  cbn [Dict.mem Dict.get negb assert bind].
  destruct (_flatten c) as [sub|] eqn:Es; cbn [bind]; [|reflexivity].
  assert (Hnd : NoDup (Dict.keys sub)).
  { destruct c as [t' x' cs']. now apply flatten_Ok in Es. }
  unfold flatten_finish.
  rewrite (update_app sub []) by exact Hnd.
  cbn [app].
  assert (Hc : check_collisions (Dict.keys sub) [] = Ok tt).
  { clear. induction (Dict.keys sub) as [|k r IH]; [reflexivity|].
    cbn. exact IH. }
  rewrite Hc. cbn [bind]. now rewrite (update_app sub []).
Qed.

Lemma flatten_children_same_leaf (rec : ETElement -> Result flat)
  (c1 c2 : ETElement) (pre post : list ETElement) :
  tag c1 = tag c2 -> data c1 = data c2 ->
  Str.nonempty (data c1) = true ->
  forall aggs leaves,
    flatten_children rec (pre ++ c1 :: post) aggs leaves
    = flatten_children rec (pre ++ c2 :: post) aggs leaves.
Proof.
  intros Ht Hd Hn. induction pre as [|c r IH]; intros aggs leaves.
  - cbn [app flatten_children]. rewrite <- Ht, <- Hd, Hn. reflexivity.
  - cbn [app flatten_children].
    destruct (Str.nonempty (data c)).
    + destruct (Dict.mem (tag c) leaves); cbn [negb assert bind];
        [reflexivity|].
      destruct (Str.contains "."%char (tag c)); cbn [negb]; apply IH.
    + destruct (Dict.mem (tag c) aggs); cbn [negb assert bind];
        [reflexivity|].
      destruct (rec c); cbn [bind]; [apply IH|reflexivity].
Qed.

(** X4: what is below a data-bearing child is not read.  The children of
    a child that carries text play no part in the flattening: the node
    flattens as if that child were a bare leaf. *)
Theorem flatten_ignores_below_text (t l d : string) (x : option string)
  (pre post kids : list ETElement)
  (Hd : Str.nonempty (Str.strip d) = true) :
  _flatten (Elem t x (pre ++ Elem l (Some d) kids :: post))
  = _flatten (Elem t x (pre ++ leaf l d :: post)).
Proof.
  rewrite !flatten_unfold.
  now rewrite (flatten_children_same_leaf _flatten
                 (Elem l (Some d) kids) (leaf l d) pre post).
Qed.

Lemma flatten_children_app (rec : ETElement -> Result flat)
  (l1 l2 : list ETElement) :
  forall aggs leaves,
    flatten_children rec (l1 ++ l2) aggs leaves
    = (r <- flatten_children rec l1 aggs leaves ;;
       flatten_children rec l2 (fst r) (snd r)).
Proof.
  induction l1 as [|c r IH]; intros aggs leaves; [reflexivity|].
  cbn [app flatten_children].
  destruct (Str.nonempty (data c)).
  - destruct (Dict.mem (tag c) leaves); cbn [negb assert bind];
      [reflexivity|].
    destruct (Str.contains "."%char (tag c)); cbn [negb]; apply IH.
  - destruct (Dict.mem (tag c) aggs); cbn [negb assert bind];
      [reflexivity|].
    destruct (rec c); cbn [bind]; [apply IH|reflexivity].
Qed.

Lemma flatten_children_keeps_leaves (rec : ETElement -> Result flat)
  (k : string) (cs : list ETElement) :
  forall aggs leaves aggs' leaves',
    flatten_children rec cs aggs leaves = Ok (aggs', leaves') ->
    Dict.mem k leaves = true -> Dict.mem k leaves' = true.
Proof.
  induction cs as [|c r IH]; intros aggs leaves aggs' leaves'.
  - cbn. now intros [= _ <-].
  - cbn [flatten_children].
    destruct (Str.nonempty (data c)).
    + destruct (Dict.mem (tag c) leaves); cbn [negb assert bind];
        [discriminate|].
      destruct (Str.contains "."%char (tag c)); cbn [negb].
      * apply IH.
      * intros H Hm. apply (IH _ _ _ _ H).
        apply mem_In, keys_set_In. right. now apply mem_In.
    + destruct (Dict.mem (tag c) aggs); cbn [negb assert bind];
        [discriminate|].
      destruct (rec c); cbn [bind]; [apply IH|discriminate].
Qed.

(** X5: the repeated leaf that the first assertion of [_flatten] does
    catch.  Two data-bearing children of one node with the same tag,
    when that tag is lower-case already and holds no dot, never flatten:
    [_flatten] raises. *)
Theorem flatten_repeated_lower_case_leaf (t : string) (x : option string)
  (pre mid post : list ETElement) (c1 c2 : ETElement)
  (Htag : tag c1 = tag c2)
  (Hlow : Str.lower (tag c1) = tag c1)
  (Hdot : no_dot (tag c1))
  (H1 : Str.nonempty (data c1) = true)
  (H2 : Str.nonempty (data c2) = true) :
  raises (_flatten (Elem t x (pre ++ c1 :: mid ++ c2 :: post))).
Proof.
  rewrite flatten_unfold.
  assert (Hr : raises (flatten_children _flatten
                         (pre ++ c1 :: mid ++ c2 :: post) [] [])).
  { change (pre ++ c1 :: mid ++ c2 :: post)
      with (pre ++ [c1] ++ mid ++ c2 :: post).
    rewrite flatten_children_app.
    destruct (flatten_children _flatten pre [] []) as [[a0 l0]|e0];
      cbn [bind fst snd]; [|now exists e0].
    rewrite flatten_children_app.
    destruct (flatten_children _flatten [c1] a0 l0) as [[a1 l1]|e1] eqn:E1;
      cbn [bind fst snd]; [|now exists e1].
    assert (Hm1 : Dict.mem (tag c1) l1 = true).
    { cbn [flatten_children] in E1. rewrite H1 in E1.
      destruct (Dict.mem (tag c1) l0); cbn [negb assert bind] in E1;
        [discriminate|].
      unfold no_dot in Hdot. rewrite Hdot in E1. cbn [negb] in E1.
      injection E1 as _ <-. rewrite Hlow.
      apply mem_In, keys_set_In. now left. }
    rewrite flatten_children_app.
    destruct (flatten_children _flatten mid a1 l1) as [[a2 l2]|e2] eqn:E2;
      cbn [bind fst snd]; [|now exists e2].
    apply (flatten_children_keeps_leaves _ (tag c1) _ _ _ _ _ E2) in Hm1.
    cbn [flatten_children]. rewrite H2, <- Htag, Hm1.
    now exists AssertionError. }
  destruct Hr as [e He]. exists e. now rewrite He.
Qed.

(** ** [_groom] and the lookup of the class *)

Lemma check_exclusive_Ok_iff (e : ETElement) (pairs : list (string * string)) :
  check_exclusive e pairs = Ok tt <->
  forall a b, In (a, b) pairs -> find a e = None \/ find b e = None.
Proof.
  induction pairs as [|[a b] r IH]; cbn [check_exclusive].
  - split; [intros _ ? ? []|reflexivity].
  - destruct (find a e) eqn:Ea, (find b e) eqn:Eb.
    + split; [discriminate|]. intros H.
      destruct (H a b (or_introl eq_refl)) as [H'|H'];
        rewrite ?Ea, ?Eb in H'; discriminate.
    + rewrite IH. split.
      * intros H a' b' [[= <- <-]|Hin]; [now right|now apply H].
      * intros H a' b' Hin. apply H. now right.
    + rewrite IH. split.
      * intros H a' b' [[= <- <-]|Hin]; [now left|now apply H].
      * intros H a' b' Hin. apply H. now right.
    + rewrite IH. split.
      * intros H a' b' [[= <- <-]|Hin]; [now left|now apply H].
      * intros H a' b' Hin. apply H. now right.
Qed.

(** X6: when [_groom] lets a node through.  It raises nothing exactly
    when, for each of the three listed pairs, at least one member is
    missing among the direct children of the node, as they were before
    the renaming of YIELD. *)
Theorem groom_accepts (elem : ETElement) :
  snd (_groom elem) = Ok tt <->
  forall first second,
    In (first, second) dual_relationships ->
    find first elem = None \/ find second elem = None.
Proof.
  cbn [_groom snd]. rewrite check_exclusive_Ok_iff. split.
  - intros H a b Hin.
    destruct (dual_relationships_tags _ _ Hin) as [[? ?] [? ?]].
    specialize (H a b Hin). now rewrite !find_rename_yield in H.
  - intros H a b Hin.
    destruct (dual_relationships_tags _ _ Hin) as [[? ?] [? ?]].
    rewrite !find_rename_yield by assumption. now apply H.
Qed.

Lemma existsb_class_false (name : string) (l : list Class) :
  ~ In name (map cls_name l) ->
  existsb (fun c => String.eqb (cls_name c) name) l = false.
Proof.
  induction l as [|c r IH]; [reflexivity|]. cbn [map In existsb].
  intros H. rewrite IH by tauto.
  replace (String.eqb (cls_name c) name) with false; [reflexivity|].
  symmetry. apply String.eqb_neq. tauto.
Qed.

(** X7: a tag that names no aggregate class.  When [_groom] lets the node
    through and its tag is not the name of a class of the module,
    [from_etree] raises before any hook or flattening: [KeyError] on the
    tag, or [AttributeError] when the tag happens to be another name of
    the module namespace, which has no [_preflatten]. *)
Theorem from_etree_unknown_tag (elem : ETElement)
  (Hgroom : snd (_groom elem) = Ok tt)
  (Hunknown : ~ In (tag elem) (map cls_name module_classes)) :
  from_etree elem =
  Raise (if existsb (String.eqb (tag elem)) other_globals
         then AttributeError "_preflatten"
         else KeyError (tag elem)).
Proof.
  rewrite from_etree_unfold. unfold from_etree_body.
  cbn [_groom snd] in Hgroom. cbn [_groom]. rewrite Hgroom. cbn [bind].
  rewrite tag_rename_yield. unfold globals.
  rewrite (existsb_class_false _ _ Hunknown).
  now destruct (existsb (String.eqb (tag elem)) other_globals).
Qed.

(** ** [elements] *)

Lemma element_items_fold_In (d : list (string * ClassAttr)) :
  forall (acc : Dict.t Types.Element) k,
    In k (Dict.keys
            (fold_left
               (fun acc kv =>
                  match snd kv with
                  | AttrElement e => Dict.set (fst kv) e acc
                  | _ => acc
                  end) d acc)) <->
    In k (Dict.keys acc) \/ exists e, In (k, AttrElement e) d.
Proof.
  induction d as [|[k0 a] r IH]; intros acc k; cbn [fold_left fst snd].
  - split; [tauto|]. intros [H|[e []]]. exact H.
  - rewrite IH. destruct a as [e0| |].
    + rewrite keys_set_In. split.
      * intros [[->|H]|[e H]].
        -- right. exists e0. now left.
        -- now left.
        -- right. exists e. now right.
      * intros [H|[e [[= -> _]|H]]].
        -- left. now right.
        -- left. now left.
        -- right. now exists e.
    + split.
      * intros [H|[e H]]; [now left|right; exists e; now right].
      * intros [H|[e [H|H]]]; [now left|discriminate|right; now exists e].
    + split.
      * intros [H|[e H]]; [now left|right; exists e; now right].
      * intros [H|[e [H|H]]]; [now left|discriminate|right; now exists e].
Qed.

Lemma element_items_fold_entries (d : list (string * ClassAttr)) :
  forall (acc : Dict.t Types.Element) k e,
    In (k, e)
       (fold_left
          (fun acc kv =>
             match snd kv with
             | AttrElement e => Dict.set (fst kv) e acc
             | _ => acc
             end) d acc) ->
    In (k, e) acc \/ In (k, AttrElement e) d.
Proof.
  induction d as [|[k0 a] r IH]; intros acc k e; cbn [fold_left fst snd].
  - tauto.
  - intros H. apply IH in H as [H|H]; [|right; now right].
    destruct a as [e0| |]; try tauto.
    apply In_set in H as [[= -> ->]|H]; [right; now left|now left].
Qed.

Lemma elements_of_In (cl : list Class) (mro : list string) (k : string) :
  In k (Dict.keys (elements_of cl mro)) <->
  exists m e, In m mro /\ In (k, AttrElement e) (class_dict cl m).
Proof.
  induction mro as [|m r IH] using rev_ind.
  - cbn. split; [tauto|]. intros (m & e & [] & _).
  - rewrite elements_of_snoc, keys_update_In, IH.
    unfold element_items at 1. rewrite element_items_fold_In. cbn [Dict.keys map In].
    split.
    + intros [(m0 & e & Hm & He)|[[]|[e He]]].
      * exists m0, e. split; [apply in_or_app; now left|exact He].
      * exists m, e. split; [apply in_or_app; right; now left|exact He].
    + intros (m0 & e & Hm & He). apply in_app_or in Hm as [Hm|[<-|[]]].
      * left. now exists m0, e.
      * right. right. now exists e.
Qed.

Lemma elements_of_entries (cl : list Class) (mro : list string)
  (k : string) (e : Types.Element) :
  In (k, e) (elements_of cl mro) ->
  exists m, In m mro /\ In (k, AttrElement e) (class_dict cl m).
Proof.
  induction mro as [|m r IH] using rev_ind; [intros []|].
  rewrite elements_of_snoc. intros H. apply In_update in H as [H|H].
  - destruct (IH H) as [m0 [Hm He]]. exists m0.
    split; [apply in_or_app; now left|exact He].
  - apply element_items_fold_entries in H as [[]|H].
    exists m. split; [apply in_or_app; right; now left|exact H].
Qed.


(** ** [__init__] *)

(** X9: what a constructed instance holds.  When the constructor
    returns, every field of the class holds what its descriptor made of
    the value the mapping has under the field's name, or of [None] when
    the mapping has no such key. *)
Theorem init_fields_converted (cls : string) (kwargs : Dict.t string)
  (self : Instance) (k : string)
  (Hok : __init__ cls kwargs = Ok self)
  (Hk : In k (Dict.keys (elements classes cls))) :
  exists v,
    setattr_value cls k (of_text (Dict.get k kwargs)) = Ok v /\
    Dict.get k (snd self) = Some v.
Proof.
  apply init_call_Ok in Hok as [_ Hok]. unfold init_body in Hok.
  pose proof (elements_of_NoDup classes (__mro__ classes cls)) as Hnames.
  fold (elements classes cls) in Hnames.
  remember (Dict.keys (elements classes cls)) as names eqn:En. clear En.
  destruct (init_elements names kwargs (cls, []))
    as [[rest self0]|] eqn:E; cbn [bind] in Hok; [|discriminate Hok].
  apply (init_elements_get _ k Hnames Hk) in E as [v [Hv Hg]].
  exists v. split; [exact Hv|].
  destruct rest; [|discriminate Hok]. now injection Hok as <-.
Qed.


(** ** [_preflatten] *)

Lemma remove_first_absent (t : string) (cs : list ETElement) :
  Forall (fun c => tag c <> t) cs -> remove_first t cs = cs.
Proof.
  induction 1 as [|c r Hc Hr IH]; [reflexivity|]. cbn.
  apply String.eqb_neq in Hc as ->. now rewrite IH.
Qed.

Lemma remove_all_absent (ts : list string) (cs : list ETElement) :
  Forall (fun c => ~ In (tag c) ts) cs -> remove_all ts cs = cs.
Proof.
  unfold remove_all. induction ts as [|t r IH]; intros H; [reflexivity|].
  cbn [fold_left]. rewrite remove_first_absent.
  - apply IH. eapply Forall_impl; [|exact H].
    intros c Hc Hin. apply Hc. now right.
  - eapply Forall_impl; [|exact H].
    intros c Hc Heq. apply Hc. left. now symmetry.
Qed.

Lemma find_remove_other (t t' : string) (cs : list ETElement) :
  t <> t' ->
  List.find (fun c => String.eqb (tag c) t) (remove_first t' cs)
  = List.find (fun c => String.eqb (tag c) t) cs.
Proof.
  intros Hne. induction cs as [|c r IH]; [reflexivity|].
  cbn [remove_first List.find].
  destruct (String.eqb (tag c) t') eqn:E'.
  - apply String.eqb_eq in E'.
    replace (String.eqb (tag c) t) with false; [reflexivity|].
    symmetry. apply String.eqb_neq. congruence.
  - cbn [List.find]. now rewrite IH.
Qed.

Lemma find_remove (t t' : string) (e : ETElement) :
  t <> t' -> find t (remove t' e) = find t e.
Proof.
  intros Hne. destruct e as [g x cs]. unfold find. cbn [remove children].
  now apply find_remove_other.
Qed.

Lemma remove_absent (t : string) (e : ETElement) :
  find t e = None -> remove t e = e.
Proof.
  destruct e as [g x cs]. unfold find. cbn [children remove]. intros H.
  f_equal. induction cs as [|c r IH]; [reflexivity|].
  cbn [List.find remove_first] in *.
  destruct (String.eqb (tag c) t); [discriminate H|]. now rewrite IH.
Qed.

Lemma first_children_keys (tags : list string) (e : ETElement) (k : string) :
  In k (Dict.keys (first_children tags e)) <->
  In k tags /\ find k e <> None.
Proof.
  induction tags as [|t r IH]; [cbn; tauto|].
  cbn [first_children flat_map]. fold (first_children r e).
  rewrite keys_app, in_app_iff, IH. cbn [In].
  destruct (find t e) as [x|] eqn:E; cbn [Dict.keys map fst In].
  - split.
    + intros [[<-|[]]|[H1 H2]]; [|tauto]. split; [now left|]. now rewrite E.
    + intros [[<-|H1] H2]; [left; now left|right; now split].
  - split.
    + intros [[]|[H1 H2]]. tauto.
    + intros [[<-|H1] H2]; [contradiction|right; now split].
Qed.

Lemma first_children_remove (tags : list string) (t : string)
  (e : ETElement) :
  ~ In t tags -> first_children tags (remove t e) = first_children tags e.
Proof.
  induction tags as [|t0 r IH]; [reflexivity|]. intros Hn.
  cbn [first_children flat_map]. fold (first_children r (remove t e)).
  fold (first_children r e).
  rewrite find_remove by (intros ->; apply Hn; now left).
  rewrite IH; [reflexivity|]. intros Hin. apply Hn. now right.
Qed.

(** One step of a hook: the first child tagged [t], when there is one,
    leaves the node and is set aside under [t]. *)
Lemma strip_subagg_exact (t : string) (acc : Dict.t Subagg) (e : ETElement) :
  ~ In t (Dict.keys acc) ->
  strip_subagg t (find t e) acc e
  = (acc ++ first_children [t] e, remove t e).
Proof.
  intros Hf. unfold strip_subagg, first_children. cbn [flat_map].
  destruct (find t e) as [x|] eqn:E.
  - rewrite app_nil_r, set_fresh by now apply mem_false. reflexivity.
  - cbn [app]. now rewrite !app_nil_r, remove_absent.
Qed.

Lemma strip_subaggs_exact (tags : list string) :
  forall (acc : Dict.t Subagg) (e : ETElement),
    NoDup tags ->
    (forall t, In t tags -> ~ In t (Dict.keys acc)) ->
    strip_subaggs tags acc e
    = (acc ++ first_children tags e,
       Elem (tag e) (text e) (remove_all tags (children e))).
Proof.
  induction tags as [|t r IH]; intros acc e Hnd Hfresh.
  - cbn. rewrite app_nil_r. now destruct e.
  - cbn [strip_subaggs].
    rewrite strip_subagg_exact by (apply Hfresh; now left).
    inversion Hnd as [|? ? Hn Hr]; subst.
    rewrite IH; [|exact Hr|].
    + rewrite first_children_remove by exact Hn.
      rewrite <- app_assoc. destruct e as [g x cs].
      unfold first_children. cbn [flat_map]. now rewrite app_nil_r.
    + intros t' Hin Hk. rewrite keys_app in Hk.
      apply in_app_or in Hk as [Hk|Hk].
      * apply (Hfresh t'); [now right|exact Hk].
      * apply first_children_keys in Hk as [[<-|[]] _]. contradiction.
Qed.

(** What each hook does, exactly: it takes out of the node the first
    child of each tag of its list, sets aside the ones of MFINFO and of a
    bank transaction under their tags, in the order of the list, and
    computes nothing but [curtype]. *)
Lemma run_hook_exact (h : Hook) (e e' : ETElement)
  (attrs : Dict.t (PyObj Value)) (subaggs : Dict.t Subagg) :
  run_hook h e = Ok (attrs, subaggs, e') ->
  e' = Elem (tag e) (text e) (remove_all (hook_removes h) (children e)) /\
  subaggs = first_children (hook_sets_aside h) e /\
  incl (Dict.keys attrs) (hook_computes h).
Proof.
  destruct h; cbn [run_hook hook_removes hook_sets_aside hook_computes].
  - intros [= <- <- <-]. split; [now destruct e|].
    split; [reflexivity|apply incl_refl].
  - intros H. apply ORIGCURRENCY_preflatten_spec in H as (-> & -> & Ha).
    split; [now destruct e|]. split; [reflexivity|].
    intros k Hk. left. symmetry. now apply Ha.
  - unfold MFINFO__preflatten, Aggregate__preflatten. cbn [bind].
    rewrite strip_subagg_exact by (intros []).
    rewrite <- (find_remove "FIMFASSETCLASS" "MFASSETCLASS" e) by discriminate.
    rewrite strip_subagg_exact.
    + rewrite first_children_remove by (intros [H|[]]; discriminate H).
      intros [= <- <- <-]. split; [now destruct e|].
      split; [|apply incl_refl]. cbn [app]. unfold first_children.
      cbn [flat_map]. now rewrite !app_nil_r.
    + cbn [app]. intros Hk.
      apply first_children_keys in Hk as [[H|[]] _]. discriminate H.
  - unfold OPTINFO__preflatten, Aggregate__preflatten. cbn [bind].
    destruct (find "SECID" e) eqn:E.
    + intros [= <- <- <-]. split; [now destruct e|].
      split; [reflexivity|apply incl_refl].
    + intros [= <- <- <-]. rewrite <- (remove_absent "SECID" e E) at 1.
      split; [now destruct e|]. split; [reflexivity|apply incl_refl].
  - unfold STMTTRN__preflatten.
    destruct (ORIGCURRENCY__preflatten e) as [[[attrs0 subaggs0] e0]|] eqn:E0;
      cbn [bind]; [|discriminate].
    apply ORIGCURRENCY_preflatten_spec in E0 as (-> & -> & Ha).
    rewrite strip_subaggs_exact.
    + intros [= <- <- <-]. split; [reflexivity|]. split; [reflexivity|].
      intros k Hk. left. symmetry. now apply Ha.
    + repeat constructor; cbn; intuition discriminate.
    + intros t _ [].
Qed.

Lemma hook_removes_tags (h : Hook) :
  NoDup (hook_removes h) /\ incl (hook_removes h) hook_tags /\
  incl (hook_sets_aside h) (hook_removes h).
Proof.
  destruct h; cbn [hook_removes hook_sets_aside]; split;
    try (repeat constructor; cbn; intuition discriminate);
    split; intros t Ht; cbn in *; tauto.
Qed.

(** X11: what any [_preflatten] does to a node.  Whatever the class, the
    hook it resolves to keeps the tag and the text of the node and takes
    out the first child, and no other, of each tag of its own list, where
    the node has one: MFASSETCLASS and FIMFASSETCLASS for MFINFO, SECID
    for OPTINFO, CCACCTTO, BANKACCTTO and PAYEE for a bank transaction,
    none for the other two hooks.  The children taken out by the hooks of
    MFINFO and of a bank transaction, and nothing else, are set aside,
    each under its own tag, in the order of the list; the hook computes no
    attribute but [curtype], and none at all unless it is or extends the
    hook of ORIGCURRENCY.  So a node without a child of those six tags
    comes back as it is, with no sub-aggregate. *)
Theorem preflatten_contract (name : string) (elem e' : ETElement)
  (attrs : Dict.t (PyObj Value)) (subaggs : Dict.t Subagg)
  (H : _preflatten (GClass name) elem = Ok (attrs, subaggs, e')) :
  exists h,
    resolve_preflatten classes (__mro__ classes name) = Some h /\
    NoDup (hook_removes h) /\ incl (hook_removes h) hook_tags /\
    tag e' = tag elem /\ text e' = text elem /\
    children e' = remove_all (hook_removes h) (children elem) /\
    subaggs = first_children (hook_sets_aside h) elem /\
    incl (Dict.keys attrs) (hook_computes h) /\
    subaggs_of elem subaggs /\ only_curtype attrs /\
    (Forall (fun c => ~ In (tag c) hook_tags) (children elem) ->
     e' = elem /\ subaggs = []).
Proof.
  cbn [_preflatten] in H.
  destruct (resolve_preflatten classes (__mro__ classes name)) as [h|];
    [|discriminate H].
  exists h. split; [reflexivity|].
  destruct (hook_removes_tags h) as (Hnd & Hincl & _).
  split; [exact Hnd|]. split; [exact Hincl|].
  pose proof (run_hook_exact _ _ _ _ _ H) as (He & Hsub & Hattrs).
  apply run_hook_spec in H as (Htr & Hs & Ha).
  split; [now rewrite He|]. split; [now rewrite He|].
  split; [now rewrite He|]. split; [exact Hsub|]. split; [exact Hattrs|].
  split; [exact Hs|]. split; [exact Ha|].
  intros Hnone. split.
  - rewrite He, remove_all_absent; [now destruct elem|].
    eapply Forall_impl; [|exact Hnone]. intros c Hc Hin.
    apply Hc. now apply Hincl.
  - destruct subaggs as [|[t s] r]; [reflexivity|]. exfalso.
    destruct (Hs t s (or_introl eq_refl)) as (Ht & x & _ & Hx & Htx).
    rewrite Forall_forall in Hnone. apply (Hnone x Hx). now rewrite Htx.
Qed.

(** ** A decoded record *)

Lemma set_attrs_keeps (attrs : Dict.t (PyObj Value)) :
  forall inst inst',
    set_attrs inst attrs = Ok inst' ->
    fst inst' = fst inst /\
    forall k, In k (Dict.keys (snd inst)) -> In k (Dict.keys (snd inst')).
Proof.
  induction attrs as [|[a v] r IH]; intros inst inst'.
  - cbn. intros [= <-]. now split.
  - cbn [set_attrs].
    destruct (setattr inst a v) as [inst1|] eqn:E; cbn [bind]; [|discriminate].
    intros H. apply IH in H as [H1 H2].
    apply setattr_Ok in E as [Hc [v' Hd]]. split; [congruence|].
    intros k Hin. apply H2. rewrite Hd. apply keys_set_In. now right.
Qed.

Lemma attach_subaggs_keeps (rec : ETElement -> Result Instance)
  (subaggs : Dict.t Subagg) :
  forall inst inst',
    attach_subaggs rec inst subaggs = Ok inst' ->
    fst inst' = fst inst /\
    forall k, In k (Dict.keys (snd inst)) -> In k (Dict.keys (snd inst')).
Proof.
  induction subaggs as [|[t s] r IH]; intros inst inst'.
  - cbn. intros [= <-]. now split.
  - cbn [attach_subaggs].
    destruct (decode_subagg rec s) as [v|]; cbn [bind]; [|discriminate].
    destruct (setattr inst (Str.lower t) v) as [inst1|] eqn:E; cbn [bind];
      [|discriminate].
    intros H. apply IH in H as [H1 H2].
    apply setattr_Ok in E as [Hc [v' Hd]]. split; [congruence|].
    intros k Hin. apply H2. rewrite Hd. apply keys_set_In. now right.
Qed.

Lemma attach_subaggs_sets (rec : ETElement -> Result Instance)
  (subaggs : Dict.t Subagg) :
  forall inst inst',
    attach_subaggs rec inst subaggs = Ok inst' ->
    forall t, In t (Dict.keys subaggs) ->
      In (Str.lower t) (Dict.keys (snd inst')).
Proof.
  induction subaggs as [|[t0 s0] r IH]; intros inst inst'; [intros _ t []|].
  cbn [attach_subaggs].
  destruct (decode_subagg rec s0) as [v|]; cbn [bind]; [|discriminate].
  destruct (setattr inst (Str.lower t0) v) as [inst1|] eqn:E; cbn [bind];
    [|discriminate].
  intros H t [<-|Hin].
  - apply attach_subaggs_keeps in H as [_ Hk]. apply Hk.
    apply setattr_Ok in E as [_ [v' ->]]. apply keys_set_In. now left.
  - now apply (IH inst1 inst' H).
Qed.

(** In the module, an attribute that the hook of a class computes is a
    field of the class. *)
Lemma computed_attrs_are_fields :
  forallb
    (fun c =>
       match resolve_preflatten classes (__mro__ classes (cls_name c)) with
       | Some h =>
           forallb (fun k => Dict.mem k (elements classes (cls_name c)))
             (hook_computes h)
       | None => true
       end)
    module_classes = true.
Proof. vm_compute. reflexivity. Qed.

Lemma hook_sets_aside_tags (h : Hook) (t : string) :
  In t (hook_sets_aside h) -> t <> "YIELD" /\ t <> "YLD".
Proof.
  destruct h; cbn [hook_sets_aside In]; intros Ht;
    repeat (destruct Ht as [<-|Ht]; [split; discriminate|]); contradiction.
Qed.

(** X12: the shape of a decoded record.  When [from_etree] returns, the
    tag of the node is the name of a class of the module and the class of
    the record, and the attributes of the record are exactly the fields
    of [elements] and, for each tag that the hook of the class sets aside
    (MFASSETCLASS and FIMFASSETCLASS for MFINFO, CCACCTTO, BANKACCTTO and
    PAYEE for a bank transaction, none for the other hooks) and that a
    direct child of the node has, the lower-cased tag.  The [curtype]
    that a hook computes is a field already, and the SECID that the hook
    of OPTINFO takes out leaves no attribute. *)
Theorem from_etree_record_shape (elem : ETElement) (inst : Instance)
  (Hok : from_etree elem = Ok inst) :
  fst inst = tag elem /\
  In (tag elem) (map cls_name module_classes) /\
  exists h,
    resolve_preflatten classes (__mro__ classes (tag elem)) = Some h /\
    forall k,
      In k (Dict.keys (snd inst)) <->
      In k (Dict.keys (elements classes (tag elem))) \/
      exists t, k = Str.lower t /\ In t (hook_sets_aside h) /\
                find t elem <> None.
Proof.
  pose proof Hok as Hshape. apply from_etree_Ok in Hshape
    as (c & _ & _ & _ & Hc & Hn & _).
  rewrite from_etree_body_from_etree in Hok.
  apply from_etree_body_Ok in Hok
    as (h & attrs & subaggs & e' & m & inst0 & _ & Hr & Hh & Hf & Hi & Hp).
  apply run_hook_exact in Hh as (_ & Hsub & Hattrs).
  destruct e' as [t x cs]. apply flatten_Ok in Hf as [Hnd _].
  destruct (init_Ok (tag elem) m inst0 Hnd Hi) as (_ & Hcls & Hkeys).
  unfold _postflatten in Hp.
  destruct (set_attrs inst0 attrs) as [inst1|] eqn:E1; cbn [bind] in Hp;
    [|discriminate Hp].
  pose proof (set_attrs_keeps _ _ _ E1) as [Hc1 Hk1].
  apply set_attrs_spec in E1 as [_ Hb1].
  pose proof (attach_subaggs_keeps _ _ _ _ Hp) as [Hc2 Hk2].
  pose proof (attach_subaggs_sets _ _ _ _ Hp) as Hset.
  apply attach_subaggs_spec in Hp as [_ Hb2].
  assert (Hcomputed : forall k, In k (hook_computes h) ->
            In k (Dict.keys (elements classes (tag elem)))).
  { pose proof (class_fact _ c computed_attrs_are_fields Hc) as Hf.
    cbn beta in Hf. rewrite Hn, Hr in Hf. rewrite forallb_forall in Hf.
    intros k Hk. now apply mem_In, Hf. }
  assert (Haside : forall t0,
            In t0 (Dict.keys subaggs) <->
            In t0 (hook_sets_aside h) /\ find t0 elem <> None).
  { intros t0. rewrite Hsub, first_children_keys. split.
    - intros [H1 H2]. split; [exact H1|].
      destruct (hook_sets_aside_tags h t0 H1).
      now rewrite find_rename_yield in H2.
    - intros [H1 H2]. split; [exact H1|].
      destruct (hook_sets_aside_tags h t0 H1).
      now rewrite find_rename_yield. }
  split; [congruence|]. split; [rewrite <- Hn; now apply in_map|].
  exists h. split; [exact Hr|]. intros k. split.
  - intros Hin. apply Hb2 in Hin as [Hin|Hin].
    + left. apply Hb1 in Hin as [Hin|Hin]; [now rewrite <- Hkeys|].
      now apply Hcomputed, Hattrs.
    + right. apply in_map_iff in Hin as (t0 & <- & Hin).
      apply Haside in Hin as [H1 H2]. now exists t0.
  - intros [Hin|(t0 & -> & H1 & H2)].
    + apply Hk2, Hk1. now rewrite Hkeys.
    + apply Hset, Haside. now split.
Qed.

(** ** Sub-aggregates of a bank transaction *)

Lemma strip_subaggs_get (tags : list string) :
  forall (acc acc' : Dict.t Subagg) (e e' : ETElement),
    NoDup tags -> NoDup (Dict.keys acc) ->
    strip_subaggs tags acc e = (acc', e') ->
    NoDup (Dict.keys acc') /\
    (forall t, ~ In t tags ->
       Dict.get t acc' = Dict.get t acc /\ find t e' = find t e) /\
    (forall t p, In t tags -> find t e = Some p ->
       Dict.get t acc' = Some (SubElement p)) /\
    (forall t, In t (Dict.keys acc') -> In t (Dict.keys acc) \/ In t tags).
Proof.
  induction tags as [|t0 r IH]; intros acc acc' e e' Hnd Hacc.
  - cbn. intros [= <- <-]. repeat split; auto. intros t p [].
  - cbn [strip_subaggs]. inversion Hnd as [|? ? Hfresh Hr]; subst.
    destruct (strip_subagg t0 (find t0 e) acc e) as [acc1 e1] eqn:E1.
    assert (H1 : NoDup (Dict.keys acc1) /\
                 (forall t, t <> t0 ->
                    Dict.get t acc1 = Dict.get t acc /\
                    find t e1 = find t e) /\
                 (forall p, find t0 e = Some p ->
                    Dict.get t0 acc1 = Some (SubElement p)) /\
                 (forall t, In t (Dict.keys acc1) ->
                    In t (Dict.keys acc) \/ t = t0)).
    { unfold strip_subagg in E1. destruct (find t0 e) as [x|].
      - injection E1 as <- <-. split; [now apply keys_set_NoDup|].
        split; [|split].
        + intros t Hne. rewrite get_set.
          apply String.eqb_neq in Hne as Hb. rewrite Hb.
          split; [reflexivity|now apply find_remove].
        + intros p [= ->]. now rewrite get_set, String.eqb_refl.
        + intros t Hin. apply keys_set_In in Hin. tauto.
      - injection E1 as <- <-. split; [exact Hacc|]. split; [|split].
        + now split.
        + discriminate.
        + intros t Hin. now left. }
    destruct H1 as (Hnd1 & Hother & Hhit & Hkeys1).
    intros H. apply (IH _ _ _ _ Hr Hnd1) in H
      as (Hnd' & Hout & Hin & Hkeys).
    split; [exact Hnd'|]. split; [|split].
    + intros t Hn.
      assert (Hne : t <> t0) by (intros ->; apply Hn; now left).
      destruct (Hout t) as [Hg Hf]; [intros ?; apply Hn; now right|].
      destruct (Hother t Hne) as [Hg1 Hf1]. split; congruence.
    + intros t p [<-|Ht] Hf.
      * destruct (Hout t0 Hfresh) as [Hg _]. rewrite Hg. now apply Hhit.
      * assert (Hne : t <> t0) by (intros ->; contradiction).
        apply Hin; [exact Ht|].
        destruct (Hother t Hne) as [_ Hf1]. congruence.
    + intros t Ht. apply Hkeys in Ht as [Ht|Ht]; [|right; now right].
      apply Hkeys1 in Ht as [Ht|Ht]; [now left|right; now left].
Qed.

Lemma attach_subaggs_get (rec : ETElement -> Result Instance)
  (t : string) (p : ETElement) (subaggs : Dict.t Subagg) :
  forall inst inst',
    NoDup (map Str.lower (Dict.keys subaggs)) ->
    attach_subaggs rec inst subaggs = Ok inst' ->
    In (t, SubElement p) subaggs ->
    exists sub v,
      rec p = Ok sub /\
      setattr_value (fst inst) (Str.lower t)
        (ObjInstance (fst sub) (snd sub)) = Ok v /\
      Dict.get (Str.lower t) (snd inst') = Some v.
Proof.
  induction subaggs as [|[t0 s0] r IH]; intros inst inst' Hnd; [intros _ []|].
  cbn [attach_subaggs]. cbn [Dict.keys map] in Hnd.
  inversion Hnd as [|? ? Hfresh Hr]; subst.
  destruct (decode_subagg rec s0) as [v0|] eqn:Ed; cbn [bind]; [|discriminate].
  destruct (setattr inst (Str.lower t0) v0) as [inst1|] eqn:Es; cbn [bind];
    [|discriminate].
  intros Ha [[= -> ->]|Hin].
  - cbn [decode_subagg] in Ed.
    destruct (rec p) as [sub|]; cbn [bind] in Ed; [|discriminate].
    injection Ed as <-. exists sub.
    rewrite setattr_eq in Es.
    destruct (setattr_value (fst inst) (Str.lower t)
                (ObjInstance (fst sub) (snd sub))) as [v|];
      cbn [bind] in Es; [|discriminate].
    injection Es as <-. exists v. repeat split.
    apply attach_subaggs_spec in Ha as [Hg _].
    rewrite Hg by exact Hfresh. cbn [snd].
    now rewrite get_set, String.eqb_refl.
  - apply setattr_Ok in Es as [Hc _]. rewrite <- Hc.
    now apply (IH inst1 inst' Hr Ha).
Qed.

Lemma resolve_bank_transaction (name : string) :
  name = "STMTTRN" \/ name = "INVBANKTRAN" ->
  resolve_preflatten classes (__mro__ classes name) = Some STMTTRN_hook /\
  forall t, In t ["CCACCTTO"; "BANKACCTTO"; "PAYEE"] ->
    type_lookup classes (__mro__ classes name) (Str.lower t) = Some AttrNone.
Proof.
  intros [-> | ->]; (split; [vm_compute; reflexivity|]);
    intros t [<-|[<-|[<-|[]]]]; vm_compute; reflexivity.
Qed.

(** X13: the sub-aggregates of a bank transaction.  When a STMTTRN or
    INVBANKTRAN node decodes and has a direct child tagged CCACCTTO,
    BANKACCTTO or PAYEE, the first such child decodes too, through
    [from_etree] itself, and the record holds the record of that child
    under the lower-cased tag. *)
Theorem bank_transaction_subaggregate (elem p : ETElement) (inst : Instance)
  (t : string)
  (Htag : tag elem = "STMTTRN" \/ tag elem = "INVBANKTRAN")
  (Ht : In t ["CCACCTTO"; "BANKACCTTO"; "PAYEE"])
  (Hfind : find t elem = Some p)
  (Hok : from_etree elem = Ok inst) :
  exists sub,
    from_etree p = Ok sub /\
    Dict.get (Str.lower t) (snd inst)
    = Some (ObjInstance (fst sub) (snd sub)).
Proof.
  rewrite from_etree_body_from_etree in Hok.
  apply from_etree_body_Ok in Hok
    as (h & attrs & subaggs & e' & m & inst0 & _ & Hr & Hh & Hf & Hi & Hp).
  assert (Hndm : NoDup (Dict.keys m)).
  { destruct e' as [t' x' cs']. now apply flatten_Ok in Hf. }
  destruct (resolve_bank_transaction (tag elem) Htag) as [Hres Hnone].
  rewrite Hres in Hr. injection Hr as <-.
  cbn [run_hook] in Hh. unfold STMTTRN__preflatten in Hh.
  destruct (ORIGCURRENCY__preflatten (rename_yield elem))
    as [[[attrs0 subaggs0] e0]|] eqn:E0; cbn [bind] in Hh; [|discriminate Hh].
  apply ORIGCURRENCY_preflatten_spec in E0 as (-> & -> & _).
  destruct (strip_subaggs ["CCACCTTO"; "BANKACCTTO"; "PAYEE"] []
              (rename_yield elem)) as [subaggs1 e1] eqn:E1.
  injection Hh as <- <- <-.
  apply strip_subaggs_get in E1 as (Hnd & _ & Hin & Hkeys).
  - assert (Hft : find t (rename_yield elem) = Some p).
    { rewrite find_rename_yield; [exact Hfind| |];
        destruct Ht as [<-|[<-|[<-|[]]]]; discriminate. }
    pose proof (get_In _ _ _ (Hin t p Ht Hft)) as Hentry.
    destruct (init_Ok (tag elem) m inst0 Hndm Hi) as (_ & Hcls & _).
    unfold _postflatten in Hp.
    destruct (set_attrs inst0 attrs0) as [inst1|] eqn:Ea; cbn [bind] in Hp;
      [|discriminate Hp].
    apply set_attrs_keeps in Ea as [Hc1 _].
    destruct (attach_subaggs_get from_etree t p subaggs1 inst1 inst)
      as (sub & v & Hsub & Hv & Hg); [|exact Hp|exact Hentry|].
    + apply NoDup_map_NoDup_ForallPairs; [|exact Hnd].
      intros a b Ha Hb.
      apply Hkeys in Ha as [[]|Ha]. apply Hkeys in Hb as [[]|Hb].
      cbn in Ha, Hb.
      destruct Ha as [<-|[<-|[<-|[]]]]; destruct Hb as [<-|[<-|[<-|[]]]];
        intros Heq; try reflexivity; discriminate Heq.
    + exists sub. split; [exact Hsub|].
      unfold setattr_value in Hv. rewrite Hc1, Hcls, (Hnone t Ht) in Hv.
      injection Hv as <-. exact Hg.
  - repeat constructor; cbn; intuition discriminate.
  - constructor.
Qed.

(** ** More on [MFINFO._preflatten] *)

Lemma attach_any_raises (rec : ETElement -> Result Instance)
  (t : string) (x : ETElement) (subaggs : Dict.t Subagg) :
  In (t, SubElement x) subaggs -> raises (rec x) ->
  forall inst, raises (attach_subaggs rec inst subaggs).
Proof.
  intros Hin Hx. induction subaggs as [|[t0 s0] r IH]; [destruct Hin|].
  intros inst. cbn [attach_subaggs].
  destruct Hin as [[= -> ->]|Hin].
  - destruct Hx as [e He]. exists e. cbn [decode_subagg]. now rewrite He.
  - destruct (decode_subagg rec s0) as [v|e]; cbn [bind]; [|now exists e].
    destruct (setattr inst (Str.lower t0) v) as [inst1|e]; cbn [bind];
      [|now exists e].
    now apply IH.
Qed.

(** X14: asset classes are never decoded.  An MFINFO node with a direct
    child tagged MFASSETCLASS or FIMFASSETCLASS never decodes: the hook
    sets the child aside as an element and [_postflatten] hands it to
    [from_etree], but the module has no class of either name. *)
Theorem asset_class_children_never_decode (elem : ETElement)
  (Htag : tag elem = "MFINFO")
  (Hchild : find "MFASSETCLASS" elem <> None \/
            find "FIMFASSETCLASS" elem <> None) :
  raises (from_etree elem).
Proof.
  destruct (raises_or_Ok (from_etree elem)) as [H|[inst H]]; [exact H|].
  exfalso. rewrite from_etree_body_from_etree in H.
  apply from_etree_body_Ok in H
    as (h & attrs & subaggs & e' & m & i0 & _ & Hr & Hh & _ & _ & Hp).
  rewrite Htag, resolve_MFINFO in Hr. injection Hr as <-.
  cbn [run_hook] in Hh.
  unfold MFINFO__preflatten, Aggregate__preflatten in Hh. cbn [bind] in Hh.
  rewrite !find_rename_yield in Hh by discriminate.
  assert (Hsub : exists t x,
    In (t, SubElement x) subaggs /\
    (tag x = "MFASSETCLASS" \/ tag x = "FIMFASSETCLASS")).
  { destruct (find "MFASSETCLASS" elem) as [mf|] eqn:Emf;
      destruct (find "FIMFASSETCLASS" elem) as [fi|] eqn:Efi;
      cbn in Hh; injection Hh as <- <- <-.
    - apply find_child in Emf as [_ Hmf].
      exists "MFASSETCLASS", mf. split; [now left|now left].
    - apply find_child in Emf as [_ Hmf].
      exists "MFASSETCLASS", mf. split; [now left|now left].
    - apply find_child in Efi as [_ Hfi].
      exists "FIMFASSETCLASS", fi. split; [now left|now right].
    - destruct Hchild as [Hc|Hc]; now contradiction Hc. }
  destruct Hsub as (t & x & Hin & Hx).
  unfold _postflatten in Hp.
  destruct (set_attrs i0 attrs) as [i1|]; cbn [bind] in Hp;
    [|discriminate Hp].
  destruct (attach_any_raises from_etree t x subaggs Hin) with (inst := i1)
    as [e He]; [|congruence].
  rewrite from_etree_body_from_etree.
  now apply from_etree_MFASSETCLASS_raises.
Qed.

(** ** More on the constructor and on [from_etree] *)

Lemma no_class_binds_self :
  forallb (fun c => negb (existsb (String.eqb "self") (map fst (cls_dict c))))
    classes = true.
Proof. vm_compute. reflexivity. Qed.

(** No class has a field named [self]. *)
Lemma no_field_named_self (cls : string) :
  ~ In "self" (Dict.keys (elements classes cls)).
Proof.
  intros H. apply elements_of_In in H as (m & e & _ & Hin).
  unfold class_dict in Hin.
  destruct (get_class classes m) as [c|] eqn:E; [|contradiction].
  apply find_some in E as [Hc _].
  pose proof no_class_binds_self as Hall.
  rewrite forallb_forall in Hall. specialize (Hall c Hc).
  apply negb_true_iff in Hall.
  assert (Ht : existsb (String.eqb "self") (map fst (cls_dict c)) = true).
  { apply existsb_exists. exists "self". split; [|apply String.eqb_refl].
    apply in_map_iff. now exists ("self", AttrElement e). }
  congruence.
Qed.

(** X15: when the constructor returns.  A mapping all of whose keys are
    fields of the class, and for which every field of the class converts
    (an absent key as [None]), makes an instance. *)
Theorem init_succeeds (cls : string) (kwargs : Dict.t string)
  (Hdict : NoDup (Dict.keys kwargs))
  (Hclaimed : unclaimed cls kwargs = [])
  (Hfields : forall k, In k (Dict.keys (elements classes cls)) ->
     exists v, setattr_value cls k (of_text (Dict.get k kwargs)) = Ok v) :
  exists self, __init__ cls kwargs = Ok self.
Proof.
  assert (Hs : Dict.mem "self" kwargs = false).
  { destruct (Dict.mem "self" kwargs) eqn:E; [|reflexivity]. exfalso.
    assert (Hin : In "self" (unclaimed cls kwargs)).
    { unfold unclaimed. apply filter_In. split; [now apply mem_In|].
      apply negb_true_iff, mem_false, no_field_named_self. }
    rewrite Hclaimed in Hin. contradiction. }
  unfold __init__. rewrite Hs.
  rewrite (init_spec cls kwargs Hdict), Hclaimed.
  destruct (init_elements_succeeds cls (Dict.keys (elements classes cls))
              kwargs (cls, [])) as (rest & self & ->);
    [apply elements_of_NoDup|reflexivity|exact Hfields|].
  now exists self.
Qed.

Lemma existsb_class_true (name : string) (l : list Class) :
  In name (map cls_name l) ->
  existsb (fun c => String.eqb (cls_name c) name) l = true.
Proof.
  intros H. apply in_map_iff in H as [c [Hn Hin]].
  apply existsb_exists. exists c. split; [exact Hin|].
  now apply String.eqb_eq.
Qed.

(** X16: decoding with the default hook.  For a class that inherits
    [Aggregate._preflatten], [from_etree] is [_groom], then [_flatten]
    of the groomed node, then the constructor on the flat mapping:
    nothing is set aside, nothing is attached afterwards, and
    [from_etree] does not call itself. *)
Theorem from_etree_default_hook (elem : ETElement)
  (Hclass : In (tag elem) (map cls_name module_classes))
  (Hhook : resolve_preflatten classes (__mro__ classes (tag elem))
           = Some Aggregate_hook) :
  from_etree elem =
  (_ <- snd (_groom elem) ;;
   m <- _flatten (fst (_groom elem)) ;;
   if Dict.mem "self" m then Raise (OtherError "TypeError")
   else __init__ (tag elem) m).
Proof.
  rewrite from_etree_unfold. unfold from_etree_body. cbn [_groom fst snd].
  destruct (check_exclusive (rename_yield elem) dual_relationships);
    cbn [bind]; [|reflexivity].
  rewrite tag_rename_yield. unfold globals.
  rewrite (existsb_class_true _ _ Hclass). cbn [bind _preflatten].
  rewrite Hhook. cbn [run_hook]. unfold Aggregate__preflatten. cbn [bind].
  destruct (_flatten (rename_yield elem)) as [m|]; cbn [bind]; [|reflexivity].
  cbn [instantiate]. unfold __init__.
  destruct (Dict.mem "self" m); [reflexivity|].
  now destruct (init_body (tag elem) m).
Qed.

(** ** [elements] and attribute lookup, in the module *)

Lemma In_get {V : Type} (k : string) (v : V) (d : Dict.t V) :
  NoDup (Dict.keys d) -> In (k, v) d -> Dict.get k d = Some v.
Proof.
  induction d as [|[k0 v0] r IH]; [intros _ []|].
  cbn [Dict.keys map fst]. intros Hnd. inversion Hnd as [|? ? Hfresh Hr]; subst.
  cbn [Dict.get In]. intros [[= -> ->]|Hin].
  - now rewrite String.eqb_refl.
  - destruct (String.eqb k k0) eqn:E; [|now apply IH].
    apply String.eqb_eq in E. subst k0. exfalso. apply Hfresh.
    change (In k (Dict.keys r)). apply in_map_iff. now exists (k, v).
Qed.

Lemma NoDup_app_disjoint {A : Type} (l1 l2 : list A) (a : A) :
  NoDup (l1 ++ l2) -> In a l1 -> In a l2 -> False.
Proof.
  induction l1 as [|b r IH]; [intros _ []|].
  cbn [app]. intros Hnd. inversion Hnd as [|? ? Hfresh Hr]; subst.
  intros [->|Hin] H2.
  - apply Hfresh, in_or_app. now right.
  - now apply IH.
Qed.

Lemma type_lookup_bound (cl : list Class) (mro : list string)
  (m k : string) (a : ClassAttr) :
  NoDup (bound_names cl mro) ->
  In m mro -> In (k, a) (class_dict cl m) ->
  type_lookup cl mro k = Some a.
Proof.
  induction mro as [|m0 r IH]; [intros _ []|].
  cbn [bound_names flat_map type_lookup]. intros Hnd [->|Hm] Hin.
  - rewrite (In_get k a (class_dict cl m)); [reflexivity| |exact Hin].
    now apply NoDup_app_remove_r in Hnd.
  - destruct (Dict.get k (class_dict cl m0)) as [a0|] eqn:E.
    + exfalso. apply (NoDup_app_disjoint _ _ k Hnd).
      * apply get_In in E. apply in_map_iff. now exists (k, a0).
      * apply in_flat_map. exists m. split; [exact Hm|].
        apply in_map_iff. now exists (k, a).
    + apply IH; [|exact Hm|exact Hin]. now apply NoDup_app_remove_l in Hnd.
Qed.

Lemma distinct_NoDup (l : list string) : distinct l = true -> NoDup l.
Proof.
  induction l as [|k r IH]; [constructor|]. cbn [distinct].
  intros H. apply andb_true_iff in H as [Hk Hr].
  constructor; [|now apply IH].
  intros Hin. apply negb_true_iff in Hk.
  assert (Ht : existsb (String.eqb k) r = true).
  { apply existsb_exists. exists k. split; [exact Hin|apply String.eqb_refl]. }
  congruence.
Qed.

Lemma module_classes_bind_names_once :
  forallb
    (fun c => distinct (bound_names classes (__mro__ classes (cls_name c))))
    module_classes = true.
Proof. vm_compute. reflexivity. Qed.

(** X17: in the module, [elements] and attribute lookup agree.  For
    every class of the module, no name is bound twice along its MRO, so
    the descriptor that [elements] holds under a name is the one that
    attribute lookup on the class finds, the one [setattr] runs; and a
    name that lookup finds bound to a descriptor is a field of
    [elements]. *)
Theorem elements_agree_with_lookup (c : Class) (k : string)
  (e : Types.Element) (Hc : In c module_classes) :
  Dict.get k (elements classes (cls_name c)) = Some e <->
  type_lookup classes (__mro__ classes (cls_name c)) k
  = Some (AttrElement e).
Proof.
  pose proof (class_fact _ c module_classes_bind_names_once Hc) as Hd.
  cbn beta in Hd. apply distinct_NoDup in Hd.
  remember (__mro__ classes (cls_name c)) as mro eqn:Em.
  assert (Hfwd : forall e0,
    Dict.get k (elements_of classes mro) = Some e0 ->
    type_lookup classes mro k = Some (AttrElement e0)).
  { intros e0 H. apply get_In, elements_of_entries in H as [m [Hm Hin]].
    now apply (type_lookup_bound classes mro m k _ Hd Hm). }
  unfold elements. rewrite <- Em. split; [apply Hfwd|].
  intros Ht.
  assert (Hin : In k (Dict.keys (elements_of classes mro))).
  { apply elements_of_In.
    clear - Ht. induction mro as [|m0 r IH]; [discriminate Ht|].
    cbn [type_lookup] in Ht.
    destruct (Dict.get k (class_dict classes m0)) as [a0|] eqn:E.
    - injection Ht as ->. apply get_In in E.
      exists m0, e. split; [now left|exact E].
    - destruct (IH Ht) as (m & e1 & Hm & He).
      exists m, e1. split; [now right|exact He]. }
  apply mem_In in Hin. unfold Dict.mem in Hin.
  assert (Hex : exists e0, Dict.get k (elements_of classes mro) = Some e0).
  { destruct (Dict.get k (elements_of classes mro)) as [e0|];
      [now exists e0|discriminate Hin]. }
  destruct Hex as [e0 E0]. pose proof (Hfwd e0 E0) as H0.
  rewrite E0. congruence.
Qed.

End Coverage.

(* ------------------------------------------------------------------ *)
(** * The decoder on the examples *)

Import SpecTypes.

(** C3, at a bank transaction that holds two of the pairs: it is found
    to hold NAME and PAYEE, which come first among its children, and the
    exception names CCACCTTO and BANKACCTTO, which come first in the
    list. *)
Lemma exclusive_pair_rejected_witness :
  In ("NAME", "PAYEE") dual_relationships /\
  find "NAME" Examples.stmttrn_two_pairs <> None /\
  find "PAYEE" Examples.stmttrn_two_pairs <> None /\
  from_etree_body from_etree Examples.stmttrn_two_pairs
  = Raise (ValueError (MsgExclusive "STMTTRN" "CCACCTTO" "BANKACCTTO")) /\
  from_etree Examples.stmttrn_two_pairs
  = Raise (ValueError (MsgExclusive "STMTTRN" "CCACCTTO" "BANKACCTTO")).
Proof.
  assert (H1 : In ("NAME", "PAYEE") dual_relationships)
    by (right; left; reflexivity).
  assert (H2 : find "NAME" Examples.stmttrn_two_pairs <> None)
    by (vm_compute; discriminate).
  assert (H3 : find "PAYEE" Examples.stmttrn_two_pairs <> None)
    by (vm_compute; discriminate).
  repeat (split; [assumption|]).
  destruct (exclusive_pair_rejected from_etree Examples.stmttrn_two_pairs
              "NAME" "PAYEE" H1 H2 H3)
    as (a & b & Hf & _ & _ & _ & Hb & He).
  vm_compute in Hf. injection Hf as <- <-. split; [exact Hb|exact He].
Defined.

(** C3, as first stated, fails: the pairs are not declared per parent tag.
    A balance, and a node whose tag names no class at all, are rejected
    for holding a pair just as a transaction is. *)
Lemma exclusive_pairs_are_global :
  from_etree
    (agg "LEDGERBAL" [agg "CCACCTTO" []; agg "BANKACCTTO" []])
  = Raise (ValueError (MsgExclusive "LEDGERBAL" "CCACCTTO" "BANKACCTTO")) /\
  globals "NOSUCHAGGREGATE" = Raise (KeyError "NOSUCHAGGREGATE") /\
  from_etree (agg "NOSUCHAGGREGATE" [leaf "NAME" "x"; agg "PAYEE" []])
  = Raise (ValueError (MsgExclusive "NOSUCHAGGREGATE" "NAME" "PAYEE")).
Proof. repeat split; vm_compute; reflexivity. Qed.

(** C4: what [ORIGCURRENCY._preflatten] leaves in [curtype].  A CURRENCY
    that is a direct child of the node is not found at all (the search is
    for grandchildren); an ORIGCURRENCY two levels down is found, and
    [curtype] gets its text, which an aggregate does not have, instead of
    its tag.  Either way the record says [None]. *)
Theorem curtype_is_not_the_tag :
  find "CURRENCY" Examples.stmttrn_currency
  = Some (Examples.currency "CURRENCY") /\
  ORIGCURRENCY__preflatten Examples.stmttrn_currency
  = Ok ([], [], Examples.stmttrn_currency) /\
  match from_etree Examples.stmttrn_currency with
  | Ok inst =>
      Dict.get "curtype" (snd inst) = Some ObjNone /\
      Dict.get "cursym" (snd inst) = Some (ObjValue (VString "EUR"))
  | Raise _ => False
  end /\
  find_grandchild "ORIGCURRENCY" Examples.buystock_origcurrency
  = Some (Examples.currency "ORIGCURRENCY") /\
  ORIGCURRENCY__preflatten Examples.buystock_origcurrency
  = Ok ([("curtype", ObjNone)], [], Examples.buystock_origcurrency) /\
  match from_etree Examples.buystock_origcurrency with
  | Ok inst =>
      Dict.get "curtype" (snd inst) = Some ObjNone /\
      Dict.get "cursym" (snd inst) = Some (ObjValue (VString "EUR"))
  | Raise _ => False
  end.
Proof. vm_compute. repeat split; reflexivity. Qed.

(** The truth test of [ORIGCURRENCY._preflatten] counts every child of
    the element it found, a private leaf included: the leaf is dropped by
    the flattening all the same, but the hook now reads the text of the
    element into [curtype]. *)
Lemma truth_test_counts_private_leaves :
  _flatten (Examples.buystock_blank_currency [leaf "INTU.ID" "7"])
  = _flatten (Examples.buystock_blank_currency []) /\
  raises (from_etree (Examples.buystock_blank_currency [leaf "INTU.ID" "7"])) /\
  ~ raises (from_etree (Examples.buystock_blank_currency [])).
Proof.
  split; [vm_compute; reflexivity|]. split.
  - eexists. vm_compute. reflexivity.
  - intros [e He]. vm_compute in He. discriminate He.
Qed.

(** C5: a mutual fund whose asset classes come three times does not
    decode.  With three PORTIONs in one MFASSETCLASS the element is set
    aside and handed to [from_etree], which finds no class of that name;
    with three MFASSETCLASS children only the first is set aside, and the
    flattening of the node sees the other two. *)
Theorem asset_class_lists_do_not_decode :
  from_etree Examples.mfinfo_portions = Raise (KeyError "MFASSETCLASS") /\
  (exists attrs,
     MFINFO__preflatten Examples.mfinfo_portions
     = Ok (attrs,
           [("MFASSETCLASS",
             SubElement (agg "MFASSETCLASS" Examples.three_portions))],
           agg "MFINFO" Examples.mfinfo_fields)) /\
  from_etree Examples.mfinfo_repeated
  = Raise (ValueError (MsgUndefined "MFINFO" ["assetclass"; "percent"])) /\
  from_etree (agg "MFINFO" Examples.mfinfo_fields)
  = Ok ("MFINFO",
        [("mftype", ObjValue (VString "OPENEND")); ("yld", ObjNone);
         ("dtyieldasof", ObjNone); ("secname", ObjValue (VString "Fund"));
         ("ticker", ObjValue (VString "FND")); ("fiid", ObjNone);
         ("rating", ObjNone); ("unitprice", ObjNone); ("dtasof", ObjNone);
         ("memo", ObjNone); ("cursym", ObjNone); ("currate", ObjNone);
         ("uniqueid", ObjValue (VString "123"));
         ("uniqueidtype", ObjValue (VString "CUSIP"))]).
Proof.
  split; [vm_compute; reflexivity|]. split; [eexists; vm_compute; reflexivity|].
  split; vm_compute; reflexivity.
Qed.

(** C6, at a balance with two keys too many. *)
Lemma init_rejects_unclaimed_witness :
  let kwargs :=
    [("balamt", "1"); ("bogus", "2"); ("dtasof", "20230101"); ("extra", "3")]
  in
  NoDup (Dict.keys kwargs) /\
  Dict.mem "self" kwargs = false /\
  unclaimed "LEDGERBAL" kwargs = ["bogus"; "extra"] /\
  __init__ "LEDGERBAL" kwargs
  = Raise (ValueError (MsgUndefined "LEDGERBAL" ["bogus"; "extra"])).
Proof.
  intros kwargs.
  assert (Hnd : NoDup (Dict.keys kwargs)).
  { repeat constructor; cbn; intuition discriminate. }
  assert (Hs : Dict.mem "self" kwargs = false) by reflexivity.
  assert (Hu : unclaimed "LEDGERBAL" kwargs = ["bogus"; "extra"])
    by (vm_compute; reflexivity).
  split; [exact Hnd|]. split; [exact Hs|]. split; [exact Hu|].
  destruct (init_rejects_unclaimed "LEDGERBAL" kwargs Hnd)
    as (_ & _ & _ & H & _).
  rewrite <- Hu. apply (H Hs).
  - rewrite Hu. discriminate.
  - intros k Hin. vm_compute in Hin.
    destruct Hin as [<-|[<-|[]]]; eexists; vm_compute; reflexivity.
Defined.

(** C6, as first stated, fails: with an unclaimed key and a required field
    missing, the exception is the one of the field and lists no key. *)
Lemma init_field_error_comes_first :
  unclaimed "LEDGERBAL" [("bogus", "2")] = ["bogus"] /\
  __init__ "LEDGERBAL" [("bogus", "2")]
  = Raise (ValueError
             (MsgCantCreate "LEDGERBAL" "balamt" (MsgText "required"))).
Proof. split; vm_compute; reflexivity. Qed.

(** C8, at an option with the SECID of its underlying. *)
Lemma underlying_secid_discarded_witness :
  tag (Examples.secid "999") = "SECID" /\
  Forall (fun c => tag c <> "SECID") (Examples.optinfo_fields ++ []) /\
  from_etree Examples.optinfo_underlying
  = from_etree (agg "OPTINFO" (Examples.optinfo_fields ++ [])) /\
  match from_etree Examples.optinfo_underlying with
  | Ok inst => Dict.get "uniqueid" (snd inst) = Some (ObjValue (VString "111"))
  | Raise _ => False
  end.
Proof.
  assert (H1 : tag (Examples.secid "999") = "SECID") by reflexivity.
  assert (H2 : Forall (fun c => tag c <> "SECID")
                 (Examples.optinfo_fields ++ [])).
  { repeat constructor; discriminate. }
  split; [exact H1|]. split; [exact H2|]. split.
  - exact (proj2 (underlying_secid_discarded from_etree None
                    Examples.optinfo_fields [] (Examples.secid "999") H1 H2)).
  - vm_compute. reflexivity.
Defined.

(** C10, at a mutual fund with a yield. *)
Lemma yield_renamed_witness :
  let pre := Examples.mfinfo_fields in
  let post := [leaf "DTYIELDASOF" "20230101"] in
  children Examples.mfinfo_yield = pre ++ Examples.yield_leaf :: post /\
  Forall (fun c => tag c <> "YIELD") pre /\
  Forall (fun c => Str.lower (tag c) <> "yld") (pre ++ post) /\
  children (fst (_groom Examples.mfinfo_yield))
  = pre ++ leaf "YLD" " 5.0 " :: post /\
  exists inst,
    from_etree Examples.mfinfo_yield = Ok inst /\
    Dict.get "yld" (snd inst) = Some (ObjValue (VDecimal "5.0")) /\
    Dict.get "yield" (snd inst) = None.
Proof.
  intros pre post.
  assert (H1 : Forall (fun c => tag c <> "YIELD") pre)
    by (repeat constructor; discriminate).
  assert (H2 : Forall (fun c => Str.lower (tag c) <> "yld") (pre ++ post))
    by (repeat constructor; discriminate).
  destruct (yield_renamed Examples.mfinfo_yield pre post Examples.yield_leaf)
    as (_ & _ & Hno & H).
  destruct (H eq_refl eq_refl H1) as [Hc Hy].
  specialize (Hy eq_refl H2).
  split; [reflexivity|]. split; [exact H1|]. split; [exact H2|].
  split; [exact Hc|].
  destruct (from_etree Examples.mfinfo_yield) as [inst|] eqn:E;
    [|vm_compute in E; discriminate].
  exists inst. split; [reflexivity|]. split; [|exact Hno].
  destruct Hy as [v [Hv Hg]]. vm_compute in Hv. injection Hv as <-. exact Hg.
Defined.

(* ------------------------------------------------------------------ *)
(** * The further properties on the examples *)

(** X1, at a statement with a balance and a private leaf. *)
Lemma flatten_entries_are_leaves_witness :
  _flatten Examples.stmtrs
  = Ok [("curdef", "USD"); ("balamt", "100.00"); ("dtasof", "20230101")] /\
  NoDup ["curdef"; "balamt"; "dtasof"] /\
  In ("balamt", "100.00") (leaves_of Examples.stmtrs).
Proof.
  assert (Hm : _flatten Examples.stmtrs
               = Ok [("curdef", "USD"); ("balamt", "100.00");
                     ("dtasof", "20230101")]) by reflexivity.
  destruct (flatten_entries_are_leaves _ _ Hm) as (Hnd & _ & He).
  split; [exact Hm|]. split; [exact Hnd|]. now apply He.
Defined.

(** X2, at a bank transaction with a CURRENCY. *)
Lemma flatten_keeps_leaves_apart_witness :
  In (Examples.currency "CURRENCY") (children Examples.stmttrn_currency) /\
  forall c', In c' (children Examples.stmttrn_currency) ->
    leaf_for "cursym" c' = false.
Proof.
  assert (Hc : In (Examples.currency "CURRENCY")
                 (children Examples.stmttrn_currency)).
  { cbn. tauto. }
  split; [exact Hc|].
  exact (flatten_keeps_leaves_apart "STMTTRN" None
           (children Examples.stmttrn_currency)
           [("trntype", "CREDIT"); ("dtposted", "20230101");
            ("trnamt", "10.00"); ("fitid", "1"); ("currate", "1.1");
            ("cursym", "EUR")]
           (Examples.currency "CURRENCY")
           [("currate", "1.1"); ("cursym", "EUR")] "cursym"
           eq_refl Hc eq_refl eq_refl (or_intror (or_introl eq_refl))).
Defined.

(** X3, at a CURRENCY wrapped once more. *)
Lemma flatten_single_aggregate_witness :
  _flatten (Elem "INVBUY" None [Examples.currency "CURRENCY"])
  = _flatten (Examples.currency "CURRENCY").
Proof.
  exact (flatten_single_aggregate "INVBUY" None
           (Examples.currency "CURRENCY") eq_refl).
Defined.

(** X4, at a memo with text and a child. *)
Lemma flatten_ignores_below_text_witness :
  _flatten (Elem "STMTTRN" None Examples.memo_with_child)
  = _flatten (Elem "STMTTRN" None
                ([leaf "FITID" "1"] ++ leaf "MEMO" "note" :: [])).
Proof.
  exact (flatten_ignores_below_text "STMTTRN" "MEMO" "note" None
           [leaf "FITID" "1"] [] [leaf "X" "y"] eq_refl).
Defined.

(** X5, at two leaves tagged [name]. *)
Lemma flatten_repeated_lower_case_leaf_witness :
  raises
    (_flatten
       (Elem "PAYEE" None
          ([] ++ leaf "name" "a" :: [leaf "city" "b"] ++
           leaf "name" "c" :: []))).
Proof.
  exact (flatten_repeated_lower_case_leaf "PAYEE" None [] [leaf "city" "b"]
           [] (leaf "name" "a") (leaf "name" "c")
           eq_refl eq_refl eq_refl eq_refl eq_refl).
Defined.

(** X7, at a statement, for which the module has no class. *)
Lemma from_etree_unknown_tag_witness :
  from_etree Examples.stmtrs = Raise (KeyError "STMTRS").
Proof.
  apply (from_etree_unknown_tag Examples.stmtrs).
  - reflexivity.
  - intros Hin. vm_compute in Hin.
    repeat (destruct Hin as [Hin|Hin]; [discriminate Hin|]). exact Hin.
Defined.

(** X9, at a ledger balance. *)
Lemma init_fields_converted_witness :
  exists v,
    setattr_value "LEDGERBAL" "balamt"
      (of_text
         (Dict.get "balamt" [("balamt", "100.00"); ("dtasof", "20230101")]))
    = Ok v /\
    Dict.get "balamt"
      (snd ("LEDGERBAL",
            [("balamt", ObjValue (VDecimal "100.00"));
             ("dtasof", ObjValue (VDateTime "20230101"))]))
    = Some v.
Proof.
  apply (init_fields_converted (ext := external) "LEDGERBAL"
           [("balamt", "100.00"); ("dtasof", "20230101")]
           ("LEDGERBAL",
            [("balamt", ObjValue (VDecimal "100.00"));
             ("dtasof", ObjValue (VDateTime "20230101"))])
           "balamt").
  - vm_compute. reflexivity.
  - vm_compute. now left.
Defined.


(** X11, at an option with the SECID of its underlying. *)
Lemma preflatten_contract_witness :
  _preflatten (GClass "OPTINFO") Examples.optinfo_underlying
  = Ok ([], [], agg "OPTINFO" Examples.optinfo_fields) /\
  children (agg "OPTINFO" Examples.optinfo_fields)
  = remove_all ["SECID"] (children Examples.optinfo_underlying).
Proof.
  assert (H : _preflatten (GClass "OPTINFO") Examples.optinfo_underlying
              = Ok ([], [], agg "OPTINFO" Examples.optinfo_fields))
    by (vm_compute; reflexivity).
  split; [exact H|].
  destruct (preflatten_contract _ _ _ _ _ H)
    as (h & Hr & _ & _ & _ & _ & Hc & _).
  vm_compute in Hr. injection Hr as <-. exact Hc.
Defined.

(** X12, at a bank transaction to a credit card account. *)
Lemma from_etree_record_shape_witness :
  exists inst,
    from_etree Examples.stmttrn_ccacctto = Ok inst /\
    fst inst = "STMTTRN" /\
    In "trnamt" (Dict.keys (snd inst)) /\
    In "ccacctto" (Dict.keys (snd inst)).
Proof.
  destruct (from_etree Examples.stmttrn_ccacctto) as [inst|] eqn:E;
    [|vm_compute in E; discriminate E].
  destruct (from_etree_record_shape _ _ E) as (Hc & _ & h & Hr & Hk).
  vm_compute in Hr. injection Hr as <-.
  exists inst. split; [reflexivity|]. split; [exact Hc|]. split.
  - apply Hk. left. vm_compute. tauto.
  - apply Hk. right. exists "CCACCTTO". split; [reflexivity|].
    split; [left; reflexivity|vm_compute; discriminate].
Defined.

(** X13, at a bank transaction to a credit card account. *)
Lemma bank_transaction_subaggregate_witness :
  exists inst sub,
    from_etree Examples.stmttrn_ccacctto = Ok inst /\
    from_etree Examples.ccacctto = Ok sub /\
    Dict.get "ccacctto" (snd inst) = Some (ObjInstance (fst sub) (snd sub)).
Proof.
  destruct (from_etree Examples.stmttrn_ccacctto) as [inst|] eqn:E;
    [|vm_compute in E; discriminate E].
  destruct (bank_transaction_subaggregate Examples.stmttrn_ccacctto
              Examples.ccacctto inst "CCACCTTO"
              (or_introl eq_refl) (or_introl eq_refl) eq_refl E)
    as (sub & Hs & Hg).
  exists inst, sub. split; [reflexivity|]. split; [exact Hs|exact Hg].
Defined.

(** X14, at a mutual fund with its asset classes. *)
Lemma asset_class_children_never_decode_witness :
  raises (from_etree Examples.mfinfo_portions).
Proof.
  apply (asset_class_children_never_decode Examples.mfinfo_portions).
  - reflexivity.
  - left. vm_compute. discriminate.
Defined.

(** X15, at a ledger balance. *)
Lemma init_succeeds_witness :
  exists self,
    __init__ "LEDGERBAL" [("balamt", "100.00"); ("dtasof", "20230101")]
    = Ok self.
Proof.
  apply (init_succeeds "LEDGERBAL"
           [("balamt", "100.00"); ("dtasof", "20230101")]).
  - repeat constructor; cbn; intuition discriminate.
  - vm_compute. reflexivity.
  - intros k Hin. vm_compute in Hin.
    destruct Hin as [<-|[<-|[]]]; eexists; vm_compute; reflexivity.
Defined.

(** X16, at a ledger balance. *)
Lemma from_etree_default_hook_witness :
  from_etree Examples.ledgerbal =
  (_ <- snd (_groom Examples.ledgerbal) ;;
   m <- _flatten (fst (_groom Examples.ledgerbal)) ;;
   if Dict.mem "self" m then Raise (OtherError "TypeError")
   else __init__ "LEDGERBAL" m).
Proof.
  apply (from_etree_default_hook Examples.ledgerbal).
  - vm_compute. repeat (first [left; reflexivity | right]).
  - vm_compute. reflexivity.
Defined.

(** X17, at the amount of a ledger balance. *)
Lemma elements_agree_with_lookup_witness :
  Dict.get "balamt" (elements classes "LEDGERBAL")
  = Some (Types.Decimal None true) <->
  type_lookup classes (__mro__ classes "LEDGERBAL") "balamt"
  = Some (AttrElement (Types.Decimal None true)).
Proof.
  apply (elements_agree_with_lookup LEDGERBAL "balamt"
           (Types.Decimal None true)).
  unfold module_classes. repeat (first [left; reflexivity | right]).
Defined.
